(** * The motor-bus driver of lerobot (lerobot/common/motors/motors_bus.py)

    A shallow embedding of [MotorsBus] and of the module-level helpers around
    the control tables.  Python objects are embedded as follows.

    - [int] is [Z]; [float] is an abstract carrier [F] with the operations of
      the class [PyFloat], instantiated below with IEEE-754 binary64 (what a
      CPython float is) and with exact rationals.
    - a [dict] whose iteration order is observable is an insertion-ordered
      association list ([dict K V]); the static control tables, which the code
      only looks up and compares, are [gmap]s.
    - a method is a function of the bus that returns the bus it leaves behind,
      also when it raises: an exception does not undo the effects before it.
    - the transport (port handler, packet handler, group reader and writer) is
      a scripted stand-in that logs every packet handed to it and answers the
      k-th one with [reply k]. *)

From Stdlib Require Import ZArith QArith Floats Lia Lqa.
From stdpp Require Import numbers strings gmap list.

Open Scope string_scope.
Open Scope Z_scope.
Open Scope list_scope.

(** ** Names, values and exceptions *)

(** [NameOrID: TypeAlias = str | int] *)
Inductive NameOrID : Type :=
| Name (s : string)
| ID (i : Z).

Global Instance NameOrID_eq_dec : EqDecision NameOrID.
Proof. solve_decision. Defined.

(** The bus operation a connectivity or device error comes from. *)
Inductive BusOp : Type := OpSyncRead | OpSyncWrite | OpWrite.

(** The exceptions the module raises, with the data their messages carry. *)
Inductive Exn : Type :=
| KeyError (key : NameOrID)                       (* a failed [d[key]] *)
| KeyError_ctrl_table (model : string)            (* get_ctrl_table *)
| KeyError_address (data_name model : string)     (* get_address *)
| NotImplementedError                             (* unsupported norm mode *)
| NotImplementedError_address (data_name : string) (found : list (string * Z))
| NotImplementedError_bytes (data_name : string) (found : list (string * Z))
| ValueError_same_id                              (* _validate_motors *)
| ValueError (msg : string)
| OverflowError
| TypeError
| ZeroDivisionError
| StopIteration
| UnboundLocalError (var : string)
| DeviceAlreadyConnectedError (port : string)
| DeviceNotConnectedError (port : string)
| ConnectionError_port (port : string)            (* connect *)
| ConnectionError (op : BusOp) (data_name : string) (tries : Z) (diag : string)
| RuntimeError (op : BusOp) (data_name : string) (tries : Z) (diag : string)
| RuntimeError_motors (expected : list (Z * Z)) (found : option (list (Z * Z)))
| RuntimeError_model (id_ expected found : Z)
| OSError (msg : string)
| HookError (msg : string).                       (* raised by a vendor override *)

Inductive Result (A : Type) : Type :=
| Ok (a : A)
| Raise (e : Exn).
Arguments Ok {A} a.
Arguments Raise {A} e.

Global Instance Result_ret : MRet Result := @Ok.
Global Instance Result_bind : MBind Result := λ A B f r,
  match r with Ok a => f a | Raise e => Raise e end.
Global Instance Result_fmap : FMap Result := λ A B f r,
  match r with Ok a => Ok (f a) | Raise e => Raise e end.

(** ** Python floats *)

(** What the driver needs of [float]: conversion from [int], true division of
    two [int]s, the four operations, [<], and [int(x)]. *)
Class PyFloat (F : Type) : Type := {
  float_of_int : Z → F;              (* float(n) *)
  int_true_div : Z → Z → F;          (* n / m, for m nonzero *)
  fadd : F → F → F;
  fsub : F → F → F;
  fmul : F → F → F;
  fdiv : F → F → F;
  fltb : F → F → bool;               (* x < y *)
  int_of_float : F → Result Z        (* int(x): truncation towards zero *)
}.

(** [Value: TypeAlias = int | float] *)
Inductive Value (F : Type) : Type :=
| VInt (n : Z)
| VFloat (x : F).
Arguments VInt {F} n.
Arguments VFloat {F} x.

(** Python's arithmetic on [Value]s, for the operand shapes the driver uses:
    the right operand is always an [int]. *)
Module Py.
Section ops.
Context {F : Type} `{PyFloat F}.

Definition to_float (v : Value F) : F :=
  match v with VInt n => float_of_int n | VFloat x => x end.

(** [v + n] *)
Definition add_int (v : Value F) (n : Z) : Value F :=
  match v with
  | VInt m => VInt (m + n)
  | VFloat x => VFloat (fadd x (float_of_int n))
  end.

(** [v - n] *)
Definition sub_int (v : Value F) (n : Z) : Value F :=
  match v with
  | VInt m => VInt (m - n)
  | VFloat x => VFloat (fsub x (float_of_int n))
  end.

(** [v * n] *)
Definition mul_int (v : Value F) (n : Z) : Value F :=
  match v with
  | VInt m => VInt (m * n)
  | VFloat x => VFloat (fmul x (float_of_int n))
  end.

(** [v / n] *)
Definition truediv_int (v : Value F) (n : Z) : Result (Value F) :=
  if decide (n = 0) then Raise ZeroDivisionError
  else match v with
       | VInt m => Ok (VFloat (int_true_div m n))
       | VFloat x => Ok (VFloat (fdiv x (float_of_int n)))
       end.

(** [v < x] for a float [x] *)
Definition lt_float (v : Value F) (x : F) : bool := fltb (to_float v) x.

(** [v > x] for a float [x] *)
Definition gt_float (v : Value F) (x : F) : bool := fltb x (to_float v).

(** [max(x, v)] with a float literal first: [v] if [v > x], else [x]. *)
Definition max_float (x : F) (v : Value F) : Value F :=
  if gt_float v x then v else VFloat x.

(** [min(x, v)] with a float literal first: [v] if [v < x], else [x]. *)
Definition min_float (x : F) (v : Value F) : Value F :=
  if lt_float v x then v else VFloat x.

(** [v < w] *)
Definition lt (v w : Value F) : bool :=
  match v, w with
  | VInt n, VInt m => bool_decide (n < m)
  | _, _ => fltb (to_float v) (to_float w)
  end.

(** [min(v, w)]: [w] if [w < v], else [v]. *)
Definition min (v w : Value F) : Value F := if lt w v then w else v.

(** [max(v, w)]: [w] if [w > v], else [v]. *)
Definition max (v w : Value F) : Value F := if lt v w then w else v.

(** [int(v)] *)
Definition int (v : Value F) : Result Z :=
  match v with VInt n => Ok n | VFloat x => int_of_float x end.
End ops.
End Py.

(** *** binary64 *)

Module Binary64.
(** The spec-level float with the exact value of an integer. *)
Definition exact (n : Z) : spec_float :=
  match n with
  | Z0 => S754_zero false
  | Zpos p => S754_finite false p 0
  | Zneg p => S754_finite true p 0
  end.

(** [float(n)], rounded to nearest even. *)
Definition of_int (n : Z) : float :=
  SF2Prim (binary_normalize prec emax n 0 false).

(** [n / m] on two [int]s: the exact quotient, rounded once. *)
Definition true_div (n m : Z) : float :=
  SF2Prim (SFdiv prec emax (exact n) (exact m)).

(** [int(x)]: [ValueError] on a NaN, [OverflowError] on an infinity. *)
Definition to_int (x : float) : Result Z :=
  match Prim2SF x with
  | S754_zero _ => Ok 0
  | S754_infinity _ => Raise OverflowError
  | S754_nan => Raise (ValueError "cannot convert float NaN to integer")
  | S754_finite s m e =>
      let a := if decide (0 ≤ e) then Z.pos m * 2 ^ e else Z.pos m / 2 ^ (- e) in
      Ok (if s then - a else a)
  end.

Global Instance binary64 : PyFloat float := {|
  float_of_int := of_int;
  int_true_div := true_div;
  fadd := PrimFloat.add;
  fsub := PrimFloat.sub;
  fmul := PrimFloat.mul;
  fdiv := PrimFloat.div;
  fltb := PrimFloat.ltb;
  int_of_float := to_int
|}.
End Binary64.

(** *** Exact rationals *)

(** Arithmetic without rounding: what the formulas of the driver compute
    before binary64 rounds them. *)
Module Exact.

End Exact.

(** ** Insertion-ordered dictionaries *)

(** A Python [dict]: the items in insertion order.  Assigning to a key that is
    present replaces its value in place; a new key goes to the end. *)
Definition dict (K V : Type) : Type := list (K * V).

Module Dict.
Section dict.
Context {K V : Type} `{EqDecision K}.

(** [d.get(k)] *)
Fixpoint get (k : K) (d : dict K V) : option V :=
  match d with
  | [] => None
  | (k', v) :: d' => if decide (k' = k) then Some v else get k d'
  end.

(** [d[k] = v] *)
Fixpoint set (k : K) (v : V) (d : dict K V) : dict K V :=
  match d with
  | [] => [(k, v)]
  | (k', v') :: d' => if decide (k' = k) then (k, v) :: d' else (k', v') :: set k v d'
  end.

(** [list(d)] *)
Definition keys (d : dict K V) : list K := d.*1.

(** [list(d.values())] *)
Definition values (d : dict K V) : list V := d.*2.

(** [{key(x): val(x) for x in xs}] *)
Definition comp {A : Type} (key : A → K) (val : A → V) (xs : list A) : dict K V :=
  foldl (λ d x, set (key x) (val x) d) [] xs.

(** The keys of a dictionary are pairwise distinct. *)
Definition wf (d : dict K V) : Prop := NoDup (keys d).
End dict.
End Dict.

(** ** Data model *)

Inductive MotorNormMode : Type :=
| DEGREE
| RANGE_0_100
| RANGE_M100_100
| VELOCITY.

Global Instance MotorNormMode_eq_dec : EqDecision MotorNormMode.
Proof. solve_decision. Defined.

Record MotorCalibration : Type := {
  c_id : Z;
  drive_mode : Z;
  homing_offset : Z;
  range_min : Z;
  range_max : Z
}.

Record Motor : Type := {
  m_id : Z;
  m_model : string;
  norm_mode : MotorNormMode
}.

(** ** The transport *)

(** One transmission handed to the SDK. *)
Inductive Packet : Type :=
| SyncReadPacket (start_address data_length : Z) (ids : list Z)
    (* sync_reader.txRxPacket() *)
| SyncWritePacket (start_address data_length : Z) (param : list (Z * list Z))
    (* sync_writer.txPacket() *)
| WritePacket (id_ address length : Z) (data : list Z).
    (* packet_handler.writeTxRx(port_handler, id, address, length, data) *)

(** [GroupSyncRead] and [GroupSyncWrite]: the configured address, width and
    participants. *)
Record GroupSync (P : Type) : Type := {
  start_address : Z;
  data_length : Z;
  param : list P
}.
Arguments start_address {P} _.
Arguments data_length {P} _.
Arguments param {P} _.

(** What [port_handler.openPort()] does. *)
Inductive OpenOutcome : Type := OpenTrue | OpenFalse | OpenRaises.

(** The SDK objects of one bus.  [sent] is the log of transmissions, oldest
    first; transmission number [k] (counting from 0) is answered with the
    communication status and device error [reply k]; [rx_data k id_ addr
    n_bytes] is what [getData] returns once [k] transmissions were made. *)
Record Transport : Type := {
  is_open : bool;
  open_outcome : OpenOutcome;
  packet_timeout : Z;
  sent : list Packet;
  reply : nat → Z * Z;
  rx_data : nat → Z → Z → Z → Z;
  getTxRxResult : Z → string;
  getRxPacketError : Z → string;
  sync_reader : GroupSync Z;
  sync_writer : GroupSync (Z * list Z)
}.

Definition with_is_open (o : bool) (t : Transport) : Transport :=
  {| is_open := o; open_outcome := open_outcome t; packet_timeout := packet_timeout t;
     sent := sent t; reply := reply t; rx_data := rx_data t;
     getTxRxResult := getTxRxResult t; getRxPacketError := getRxPacketError t;
     sync_reader := sync_reader t; sync_writer := sync_writer t |}.

Definition with_packet_timeout (ms : Z) (t : Transport) : Transport :=
  {| is_open := is_open t; open_outcome := open_outcome t; packet_timeout := ms;
     sent := sent t; reply := reply t; rx_data := rx_data t;
     getTxRxResult := getTxRxResult t; getRxPacketError := getRxPacketError t;
     sync_reader := sync_reader t; sync_writer := sync_writer t |}.

Definition with_sent (l : list Packet) (t : Transport) : Transport :=
  {| is_open := is_open t; open_outcome := open_outcome t; packet_timeout := packet_timeout t;
     sent := l; reply := reply t; rx_data := rx_data t;
     getTxRxResult := getTxRxResult t; getRxPacketError := getRxPacketError t;
     sync_reader := sync_reader t; sync_writer := sync_writer t |}.

Definition with_sync_reader (r : GroupSync Z) (t : Transport) : Transport :=
  {| is_open := is_open t; open_outcome := open_outcome t; packet_timeout := packet_timeout t;
     sent := sent t; reply := reply t; rx_data := rx_data t;
     getTxRxResult := getTxRxResult t; getRxPacketError := getRxPacketError t;
     sync_reader := r; sync_writer := sync_writer t |}.

Definition with_sync_writer (w : GroupSync (Z * list Z)) (t : Transport) : Transport :=
  {| is_open := is_open t; open_outcome := open_outcome t; packet_timeout := packet_timeout t;
     sent := sent t; reply := reply t; rx_data := rx_data t;
     getTxRxResult := getTxRxResult t; getRxPacketError := getRxPacketError t;
     sync_reader := sync_reader t; sync_writer := w |}.

(** Hands packet [p] to the wire and returns its (status, error) answer. *)
Definition transmit (p : Packet) (t : Transport) : (Z * Z) * Transport :=
  (reply t (length (sent t)), with_sent (sent t ++ [p]) t).

(** ** The bus *)

(** The class attributes a vendor subclass defines. *)
Record MotorsBusClass : Type := {
  default_timeout : Z;
  model_ctrl_table : gmap string (gmap string (Z * Z));
  model_number_table : dict string Z;
  model_resolution_table : dict string Z;
  normalization_required : list string;
  _comm_success : Z;
  _no_error : Z
}.

Record MotorsBus : Type := {
  cls : MotorsBusClass;
  port : string;
  motors : dict string Motor;
  calibration : dict string MotorCalibration;
  _id_to_model_dict : dict Z string;
  _id_to_name_dict : dict Z string;
  _model_nb_to_model_dict : dict Z string;
  (* the slot of the cached property [_has_different_ctrl_tables] *)
  _has_different_ctrl_tables_cache : option bool;
  transport : Transport
}.

Definition with_calibration (c : dict string MotorCalibration) (b : MotorsBus) : MotorsBus :=
  {| cls := cls b; port := port b; motors := motors b; calibration := c;
     _id_to_model_dict := _id_to_model_dict b; _id_to_name_dict := _id_to_name_dict b;
     _model_nb_to_model_dict := _model_nb_to_model_dict b;
     _has_different_ctrl_tables_cache := _has_different_ctrl_tables_cache b;
     transport := transport b |}.

Definition with_cache (c : option bool) (b : MotorsBus) : MotorsBus :=
  {| cls := cls b; port := port b; motors := motors b; calibration := calibration b;
     _id_to_model_dict := _id_to_model_dict b; _id_to_name_dict := _id_to_name_dict b;
     _model_nb_to_model_dict := _model_nb_to_model_dict b;
     _has_different_ctrl_tables_cache := c;
     transport := transport b |}.

Definition with_transport (t : Transport) (b : MotorsBus) : MotorsBus :=
  {| cls := cls b; port := port b; motors := motors b; calibration := calibration b;
     _id_to_model_dict := _id_to_model_dict b; _id_to_name_dict := _id_to_name_dict b;
     _model_nb_to_model_dict := _model_nb_to_model_dict b;
     _has_different_ctrl_tables_cache := _has_different_ctrl_tables_cache b;
     transport := t |}.

(** A method: it runs on a bus and leaves a bus, whether it returns or raises. *)
Definition M (A : Type) : Type := MotorsBus → Result A * MotorsBus.

Global Instance M_ret : MRet M := λ A a b, (Ok a, b).
Global Instance M_bind : MBind M := λ A B f m b,
  match m b with
  | (Ok a, b') => f a b'
  | (Raise e, b') => (Raise e, b')
  end.

Definition raise {A : Type} (e : Exn) : M A := λ b, (Raise e, b).
Definition lift {A : Type} (r : Result A) : M A := λ b, (r, b).
Definition gets {A : Type} (f : MotorsBus → A) : M A := λ b, (Ok (f b), b).
Definition modify (f : MotorsBus → MotorsBus) : M unit := λ b, (Ok tt, f b).

(** [d[k]], raising [KeyError(k)]. *)
Definition subscript {K V : Type} `{EqDecision K} (inj : K → NameOrID)
    (d : dict K V) (k : K) : Result V :=
  match Dict.get k d with
  | Some v => Ok v
  | None => Raise (KeyError (inj k))
  end.

(** ** Control tables (module level) *)

Definition get_ctrl_table (model_ctrl_table : gmap string (gmap string (Z * Z)))
    (model : string) : Result (gmap string (Z * Z)) :=
  match model_ctrl_table !! model with
  | None => Raise (KeyError_ctrl_table model)
  | Some ctrl_table => Ok ctrl_table
  end.

Definition get_address (model_ctrl_table : gmap string (gmap string (Z * Z)))
    (model data_name : string) : Result (Z * Z) :=
  ctrl_table ← get_ctrl_table model_ctrl_table model;
  match ctrl_table !! data_name with
  | None => Raise (KeyError_address data_name model)
  | Some addr_bytes => Ok addr_bytes
  end.

(** The [for] loop of [assert_same_address]: the (address, width) of every
    model, in order, stopping at the first model that has none. *)
Fixpoint all_addresses (model_ctrl_table : gmap string (gmap string (Z * Z)))
    (motor_models : list string) (data_name : string) : Result (list (Z * Z)) :=
  match motor_models with
  | [] => Ok []
  | model :: rest =>
      ab ← get_address model_ctrl_table model data_name;
      abs ← all_addresses model_ctrl_table rest data_name;
      Ok (ab :: abs)
  end.

Definition assert_same_address (model_ctrl_table : gmap string (gmap string (Z * Z)))
    (motor_models : list string) (data_name : string) : Result unit :=
  abs ← all_addresses model_ctrl_table motor_models data_name;
  let all_addr := abs.*1 in
  let all_bytes := abs.*2 in
  if decide (size (list_to_set all_addr : gset Z) ≠ 1%nat) then
    Raise (NotImplementedError_address data_name (zip motor_models all_addr))
  else if decide (size (list_to_set all_bytes : gset Z) ≠ 1%nat) then
    Raise (NotImplementedError_bytes data_name (zip motor_models all_bytes))
  else Ok ().

(** ** MotorsBus *)

(** The abstract methods of [MotorsBus].  The codecs are bit transforms of
    their arguments; the others act on the bus. *)
Class Overrides (F : Type) : Type := {
  _encode_value : Value F → string → Z → Result Z;
  _decode_value : Z → string → Z → Result Z;
  _split_int_to_bytes : Z → Z → Result (list Z);
  _get_half_turn_homings : dict NameOrID (Value F) → M (dict NameOrID (Value F));
  _enable_torque : list NameOrID → M unit;
  _disable_torque : list NameOrID → M unit;
  broadcast_ping : Z → bool → M (option (dict Z Z))
}.

(** An argument declared [NameOrID | list[NameOrID] | None]; [MotorsOther] is
    an object of any other type. *)
Inductive MotorsArg : Type :=
| MotorsNone
| MotorsOne (motor : NameOrID)
| MotorsList (motors : list NameOrID)
| MotorsOther.

(** An argument declared [Value | dict[NameOrID, Value]]. *)
Inductive ValuesArg (F : Type) : Type :=
| OneValue (v : Value F)
| PerMotor (d : dict NameOrID (Value F)).
Arguments OneValue {F} v.
Arguments PerMotor {F} d.

Section MotorsBus.
Context {F : Type} `{PyFloat F} `{Overrides F}.

(** [__init__]: [c] is the subclass and [t] the SDK objects it creates. *)
Definition __init__ (c : MotorsBusClass) (t : Transport) (port : string)
    (motors : dict string Motor) (calibration : option (dict string MotorCalibration))
    : MotorsBus :=
  {| cls := c;
     port := port;
     motors := motors;
     calibration := match calibration with Some d => d | None => [] end;
     _id_to_model_dict := Dict.comp m_id m_model (Dict.values motors);
     _id_to_name_dict := Dict.comp (λ item, m_id item.2) fst motors;
     _model_nb_to_model_dict := Dict.comp snd fst (model_number_table c);
     _has_different_ctrl_tables_cache := None;
     transport := t |}.

(** The cached properties [names], [models] and [ids] are functions of
    [motors], which no method assigns. *)
Definition names (b : MotorsBus) : list string := Dict.keys (motors b).
Definition models (b : MotorsBus) : list string := m_model <$> Dict.values (motors b).
Definition ids (b : MotorsBus) : list Z := m_id <$> Dict.values (motors b).

(** [any(DeepDiff(first_table, get_ctrl_table(..., model)) for model in ...)]:
    a deep difference is non-empty exactly when the two tables differ. *)
Fixpoint any_table_differs (tbl : gmap string (gmap string (Z * Z)))
    (first_table : gmap string (Z * Z)) (ms : list string) : Result bool :=
  match ms with
  | [] => Ok false
  | model :: rest =>
      t ← get_ctrl_table tbl model;
      if decide (first_table ≠ t) then Ok true
      else any_table_differs tbl first_table rest
  end.

(** The body of the property [_has_different_ctrl_tables]. *)
Definition _has_different_ctrl_tables_body (b : MotorsBus) : Result bool :=
  match models b with
  | model0 :: ((_ :: _) as rest) =>
      match model_ctrl_table (cls b) !! model0 with
      | None => Raise (KeyError (Name model0))
      | Some first_table => any_table_differs (model_ctrl_table (cls b)) first_table rest
      end
  | _ => Ok false                       (* len(self.models) < 2 *)
  end.

(** [@cached_property]: the body runs when the slot is empty and its value,
    once returned, fills the slot. *)
Definition _has_different_ctrl_tables : M bool := λ b,
  match _has_different_ctrl_tables_cache b with
  | Some v => (Ok v, b)
  | None =>
      match _has_different_ctrl_tables_body b with
      | Ok v => (Ok v, with_cache (Some v) b)
      | Raise e => (Raise e, b)
      end
  end.

Definition _id_to_model (motor_id : Z) : M string := λ b,
  (subscript ID (_id_to_model_dict b) motor_id, b).

Definition _id_to_name (motor_id : Z) : M string := λ b,
  (subscript ID (_id_to_name_dict b) motor_id, b).

(** The [else: raise TypeError] of the two methods below needs an argument
    that is neither [str] nor [int]; a [NameOrID] is one of them. *)
Definition _get_motor_id (motor : NameOrID) : M Z := λ b,
  match motor with
  | Name s => (m_id <$> subscript Name (motors b) s, b)
  | ID i => (Ok i, b)
  end.

Definition _get_motor_model (motor : NameOrID) : M string := λ b,
  match motor with
  | Name s => (m_model <$> subscript Name (motors b) s, b)
  | ID i => (subscript ID (_id_to_model_dict b) i, b)
  end.

(** The loop of [_validate_motors]: a control table for every model. *)
Fixpoint ctrl_tables_available (tbl : gmap string (gmap string (Z * Z)))
    (ms : list string) : Result unit :=
  match ms with
  | [] => Ok ()
  | model :: rest => _ ← get_ctrl_table tbl model; ctrl_tables_available tbl rest
  end.

Definition _validate_motors : M unit := λ b,
  if decide (length (ids b) ≠ size (list_to_set (ids b) : gset Z)) then
    (Raise ValueError_same_id, b)
  else (ctrl_tables_available (model_ctrl_table (cls b)) (models b), b).

Definition _is_comm_success (comm : Z) : M bool :=
  gets (λ b, bool_decide (comm = _comm_success (cls b))).

Definition _is_error (error : Z) : M bool :=
  gets (λ b, bool_decide (error ≠ _no_error (cls b))).

(** [{m.id: self.model_number_table[m.model] for m in self.motors.values()}] *)
Fixpoint expected_models_of (ms : list Motor) (acc : dict Z Z) : M (dict Z Z) :=
  match ms with
  | [] => mret acc
  | m :: rest =>
      nb ← (λ b, (subscript Name (model_number_table (cls b)) (m_model m), b)) : M Z;
      expected_models_of rest (Dict.set (m_id m) nb acc)
  end.

(** The second loop of [_assert_motors_exist]. *)
Fixpoint check_found_models (found_models : dict Z Z) (expected : list (Z * Z)) : M unit :=
  match expected with
  | [] => mret ()
  | (id_, model) :: rest =>
      found ← lift (subscript ID found_models id_);
      if decide (found ≠ model) then raise (RuntimeError_model id_ model found)
      else check_found_models found_models rest
  end.

Definition _assert_motors_exist : M unit :=
  found_models ← broadcast_ping 0 false;
  ms ← gets (λ b, Dict.values (motors b));
  expected_models ← expected_models_of ms [];
  all_ids ← gets ids;
  match found_models with
  | Some ((_ :: _) as found) =>
      if decide ((list_to_set (Dict.keys found) : gset Z) ≠ list_to_set all_ids) then
        raise (RuntimeError_motors expected_models found_models)
      else check_found_models found expected_models
  | _ => raise (RuntimeError_motors expected_models found_models)
  end.

(** The property [is_connected]. *)
Definition is_connected (b : MotorsBus) : bool := is_open (transport b).

(** [port_handler.openPort()] *)
Definition openPort : M bool := λ b,
  match open_outcome (transport b) with
  | OpenTrue => (Ok true, with_transport (with_is_open true (transport b)) b)
  | OpenFalse => (Ok false, b)
  | OpenRaises => (Raise (OSError "could not open port"), b)
  end.

Definition set_timeout (timeout_ms : option Z) : M unit :=
  modify (λ b,
    let timeout_ms := match timeout_ms with Some ms => ms | None => default_timeout (cls b) end in
    with_transport (with_packet_timeout timeout_ms (transport b)) b).

(** [except (FileNotFoundError, OSError, serial.SerialException)]: the
    builtin [ConnectionError] is an [OSError]. *)
Definition is_OSError (e : Exn) : bool :=
  match e with
  | OSError _ | ConnectionError_port _ | ConnectionError _ _ _ _ => true
  | _ => false
  end.

Definition connect (assert_motors_exist : bool) : M unit := λ b,
  if is_connected b then (Raise (DeviceAlreadyConnectedError (port b)), b)
  else
    let tried : M unit :=
      opened ← openPort;
      if negb opened then raise (OSError "Failed to open port")
      else if assert_motors_exist then _assert_motors_exist
      else mret () in
    match tried b with
    | (Raise e, b') =>
        if is_OSError e then (Raise (ConnectionError_port (port b')), b')
        else (Raise e, b')
    | (Ok _, b') => set_timeout None b'
    end.

Definition disconnect : M unit := λ b,
  if negb (is_connected b) then (Raise (DeviceNotConnectedError (port b)), b)
  else (Ok (), with_transport (with_is_open false (transport b)) b).

Definition disable_torque (motors : MotorsArg) : M unit :=
  motors ← match motors with
           | MotorsNone => gets (λ b, Name <$> names b)
           | MotorsOne motor => mret [motor]
           | MotorsList l => mret l
           | MotorsOther => raise TypeError
           end;
  _disable_torque motors.

Definition enable_torque (motors : MotorsArg) : M unit :=
  motors ← match motors with
           | MotorsNone => gets (λ b, Name <$> names b)
           | MotorsOne motor => mret [motor]
           | MotorsList l => mret l
           | MotorsOther => raise TypeError
           end;
  _enable_torque motors.

(** *** Normalization *)

(** The loop of [_normalize]; [normalized_values] is the dictionary built so
    far. *)
Fixpoint _normalize_loop (b : MotorsBus) (items : list (Z * Z))
    (normalized_values : dict Z (Value F)) : Result (dict Z (Value F)) :=
  match items with
  | [] => Ok normalized_values
  | (id_, val) :: rest =>
      name ← subscript ID (_id_to_name_dict b) id_;
      cal ← subscript Name (calibration b) name;
      let min_ := range_min cal in
      let max_ := range_max cal in
      let bounded_val := Z.min max_ (Z.max min_ val) in
      motor ← subscript Name (motors b) name;
      match norm_mode motor with
      | RANGE_M100_100 =>
          q ← Py.truediv_int (VInt (bounded_val - min_)) (max_ - min_);
          _normalize_loop b rest
            (Dict.set id_ (Py.sub_int (Py.mul_int q 200) 100) normalized_values)
      | RANGE_0_100 =>
          q ← Py.truediv_int (VInt (bounded_val - min_)) (max_ - min_);
          _normalize_loop b rest (Dict.set id_ (Py.mul_int q 100) normalized_values)
      | _ => Raise NotImplementedError
      end
  end.

Definition _normalize (data_name : string) (ids_values : dict Z Z)
    : M (dict Z (Value F)) := λ b,
  (_normalize_loop b ids_values [], b).

(** The loop of [_unnormalize]. *)
Fixpoint _unnormalize_loop (b : MotorsBus) (items : list (Z * Value F))
    (unnormalized_values : dict Z Z) : Result (dict Z Z) :=
  match items with
  | [] => Ok unnormalized_values
  | (id_, val) :: rest =>
      name ← subscript ID (_id_to_name_dict b) id_;
      cal ← subscript Name (calibration b) name;
      let min_ := range_min cal in
      let max_ := range_max cal in
      motor ← subscript Name (motors b) name;
      match norm_mode motor with
      | RANGE_M100_100 =>
          let bounded_val :=
            Py.min_float (float_of_int 100) (Py.max_float (float_of_int (-100)) val) in
          q ← Py.truediv_int (Py.add_int bounded_val 100) 200;
          n ← Py.int (Py.add_int (Py.mul_int q (max_ - min_)) min_);
          _unnormalize_loop b rest (Dict.set id_ n unnormalized_values)
      | RANGE_0_100 =>
          let bounded_val :=
            Py.min_float (float_of_int 100) (Py.max_float (float_of_int 0) val) in
          q ← Py.truediv_int bounded_val 100;
          n ← Py.int (Py.add_int (Py.mul_int q (max_ - min_)) min_);
          _unnormalize_loop b rest (Dict.set id_ n unnormalized_values)
      | _ => Raise NotImplementedError
      end
  end.

Definition _unnormalize (data_name : string) (ids_values : dict Z (Value F))
    : M (dict Z Z) := λ b,
  (_unnormalize_loop b ids_values [], b).

(** *** SDK calls *)

(** [self.sync_reader.txRxPacket()] *)
Definition sync_reader_txRxPacket : M Z := λ b,
  let r := sync_reader (transport b) in
  let '(answer, t) :=
    transmit (SyncReadPacket (start_address r) (data_length r) (param r)) (transport b) in
  (Ok answer.1, with_transport t b).

(** [self.sync_reader.getData(id_, addr, n_bytes)] *)
Definition sync_reader_getData (id_ addr n_bytes : Z) : M Z :=
  gets (λ b, rx_data (transport b) (length (sent (transport b))) id_ addr n_bytes).

(** [self.sync_writer.txPacket()] *)
Definition sync_writer_txPacket : M Z := λ b,
  let w := sync_writer (transport b) in
  let '(answer, t) :=
    transmit (SyncWritePacket (start_address w) (data_length w) (param w)) (transport b) in
  (Ok answer.1, with_transport t b).

(** [self.packet_handler.writeTxRx(self.port_handler, motor_id, addr, n_bytes, data)] *)
Definition writeTxRx (motor_id addr n_bytes : Z) (data : list Z) : M (Z * Z) := λ b,
  let '(answer, t) := transmit (WritePacket motor_id addr n_bytes data) (transport b) in
  (Ok answer, with_transport t b).

(** The retry loop shared by [_sync_read], [_sync_write] and [_write]:
    [for n_try in range(n): r = attempt(); if self._is_comm_success(comm): break].
    [last] is what the loop variables hold so far, if anything; the calls to
    the logger have no effect on the bus. *)
Fixpoint retry_loop {R : Type} (n : nat) (attempt : M R) (comm_of : R → Z)
    (last : option R) : M (option R) :=
  match n with
  | O => mret last
  | S n' =>
      r ← attempt;
      ok ← _is_comm_success (comm_of r);
      if (ok : bool) then mret (Some r) else retry_loop n' attempt comm_of (Some r)
  end.

(** [range(1 + num_retry)] has this many elements. *)
Definition tries (num_retry : Z) : nat := Z.to_nat (1 + num_retry).

(** *** Group read *)

Definition _setup_sync_reader (motor_ids : list Z) (addr n_bytes : Z) : M unit :=
  modify (λ b,
    with_transport
      (with_sync_reader {| start_address := addr; data_length := n_bytes; param := motor_ids |}
         (transport b)) b).

(** [[self._id_to_model(id_) for id_ in motor_ids]] *)
Fixpoint models_of (motor_ids : list Z) : M (list string) :=
  match motor_ids with
  | [] => mret []
  | id_ :: rest =>
      model ← _id_to_model id_;
      ms ← models_of rest;
      mret (model :: ms)
  end.

(** The last loop of [_sync_read]. *)
Fixpoint read_values (data_name : string) (motor_ids : list Z) (addr n_bytes : Z)
    (values : dict Z Z) : M (dict Z Z) :=
  match motor_ids with
  | [] => mret values
  | id_ :: rest =>
      val ← sync_reader_getData id_ addr n_bytes;
      decoded ← lift (_decode_value val data_name n_bytes);
      read_values data_name rest addr n_bytes (Dict.set id_ decoded values)
  end.

Definition _sync_read (data_name : string) (motor_ids : list Z) (model : option string)
    (num_retry : Z) : M (Z * dict Z Z) :=
  different ← _has_different_ctrl_tables;
  _ ← (if (different : bool) then
         models ← models_of motor_ids;
         tbl ← gets (λ b, model_ctrl_table (cls b));
         lift (assert_same_address tbl models data_name)
       else mret ());
  model ← match model with
          | Some model => mret model
          | None =>
              match motor_ids with        (* next(iter(motor_ids)) *)
              | [] => raise StopIteration
              | id_ :: _ => _id_to_model id_
              end
          end;
  tbl ← gets (λ b, model_ctrl_table (cls b));
  '(addr, n_bytes) ← lift (get_address tbl model data_name);
  _ ← _setup_sync_reader motor_ids addr n_bytes;
  comm ← retry_loop (tries num_retry) sync_reader_txRxPacket (λ comm, comm) None;
  values ← read_values data_name motor_ids addr n_bytes [];
  match comm with
  | None => raise (UnboundLocalError "comm")
  | Some comm => mret (comm, values)
  end.

(** [{self._get_motor_id(m): m for m in motors}] *)
Fixpoint id_key_map_of (motors : list NameOrID) (acc : dict Z NameOrID)
    : M (dict Z NameOrID) :=
  match motors with
  | [] => mret acc
  | m :: rest =>
      id_ ← _get_motor_id m;
      id_key_map_of rest (Dict.set id_ m acc)
  end.

(** [{id_key_map[id_]: val for id_, val in ids_values.items()}] *)
Fixpoint rekey (id_key_map : dict Z NameOrID) (items : list (Z * Value F))
    (acc : dict NameOrID (Value F)) : Result (dict NameOrID (Value F)) :=
  match items with
  | [] => Ok acc
  | (id_, val) :: rest =>
      key ← subscript ID id_key_map id_;
      rekey id_key_map rest (Dict.set key val acc)
  end.

(** The [if]/[elif] chain of [sync_read] that builds [id_key_map]. *)
Definition id_key_map_for (motors_ : MotorsArg) : M (dict Z NameOrID) :=
  match motors_ with
  | MotorsNone =>
      gets (λ b, Dict.comp (λ item, m_id item.2) (λ item, Name item.1) (motors b))
  | MotorsOne motor => id_ ← _get_motor_id motor; mret [(id_, motor)]
  | MotorsList l => id_key_map_of l []
  | MotorsOther => raise TypeError
  end.

Definition sync_read (data_name : string) (motors_ : MotorsArg) (normalize : bool)
    (num_retry : Z) : M (dict NameOrID (Value F)) :=
  connected ← gets is_connected;
  if negb connected then
    port ← gets port; raise (DeviceNotConnectedError port)
  else
    id_key_map ← id_key_map_for motors_;
    let motor_ids := Dict.keys id_key_map in
    '(comm, ids_values) ← _sync_read data_name motor_ids None num_retry;
    ok ← _is_comm_success comm;
    if negb ok then
      diag ← gets (λ b, getTxRxResult (transport b) comm);
      raise (ConnectionError OpSyncRead data_name (num_retry + 1) diag)
    else
      required ← gets (λ b, normalization_required (cls b));
      ids_values ← (if normalize && bool_decide (data_name ∈ required)
                    then _normalize data_name ids_values
                    else mret (prod_map id VInt <$> ids_values));
      lift (rekey id_key_map ids_values []).

(** *** Group write *)

(** [{id_: self._encode_value(value, data_name, n_bytes) for id_, value in ...}] *)
Fixpoint encode_values (data_name : string) (n_bytes : Z) (items : list (Z * Value F))
    (acc : dict Z Z) : Result (dict Z Z) :=
  match items with
  | [] => Ok acc
  | (id_, value) :: rest =>
      encoded ← _encode_value value data_name n_bytes;
      encode_values data_name n_bytes rest (Dict.set id_ encoded acc)
  end.

(** The loop of [_setup_sync_writer]. *)
Fixpoint add_params (n_bytes : Z) (items : list (Z * Z)) : M unit :=
  match items with
  | [] => mret ()
  | (id_, value) :: rest =>
      data ← lift (_split_int_to_bytes value n_bytes);
      _ ← modify (λ b,
            let w := sync_writer (transport b) in
            with_transport
              (with_sync_writer
                 {| start_address := start_address w; data_length := data_length w;
                    param := param w ++ [(id_, data)] |} (transport b)) b);
      add_params n_bytes rest
  end.

Definition _setup_sync_writer (ids_values : dict Z Z) (addr n_bytes : Z) : M unit :=
  _ ← modify (λ b,
        with_transport
          (with_sync_writer {| start_address := addr; data_length := n_bytes; param := [] |}
             (transport b)) b);
  add_params n_bytes ids_values.

Definition _sync_write (data_name : string) (ids_values : dict Z (Value F))
    (num_retry : Z) : M Z :=
  different ← _has_different_ctrl_tables;
  _ ← (if (different : bool) then
         models ← models_of (Dict.keys ids_values);
         tbl ← gets (λ b, model_ctrl_table (cls b));
         lift (assert_same_address tbl models data_name)
       else mret ());
  model ← match Dict.keys ids_values with      (* next(iter(ids_values)) *)
          | [] => raise StopIteration
          | id_ :: _ => _id_to_model id_
          end;
  tbl ← gets (λ b, model_ctrl_table (cls b));
  '(addr, n_bytes) ← lift (get_address tbl model data_name);
  ids_values ← lift (encode_values data_name n_bytes ids_values []);
  _ ← _setup_sync_writer ids_values addr n_bytes;
  comm ← retry_loop (tries num_retry) sync_writer_txPacket (λ comm, comm) None;
  match comm with
  | None => raise (UnboundLocalError "comm")
  | Some comm => mret comm
  end.

(** [{self._get_motor_id(motor): val for motor, val in values.items()}] *)
Fixpoint ids_values_of (items : list (NameOrID * Value F)) (acc : dict Z (Value F))
    : M (dict Z (Value F)) :=
  match items with
  | [] => mret acc
  | (motor, val) :: rest =>
      id_ ← _get_motor_id motor;
      ids_values_of rest (Dict.set id_ val acc)
  end.

(** [sync_write] from the point where [ids_values] is known.
    [self.calibration is not None] holds of every dictionary. *)
Definition sync_write_ids_values (data_name : string) (ids_values : dict Z (Value F))
    (normalize : bool) (num_retry : Z) : M unit :=
  required ← gets (λ b, normalization_required (cls b));
  ids_values ← (if normalize && bool_decide (data_name ∈ required)
                then raw ← _unnormalize data_name ids_values;
                     mret (prod_map id VInt <$> raw)
                else mret ids_values);
  comm ← _sync_write data_name ids_values num_retry;
  ok ← _is_comm_success comm;
  if negb ok then
    diag ← gets (λ b, getTxRxResult (transport b) comm);
    raise (ConnectionError OpSyncWrite data_name (num_retry + 1) diag)
  else mret ().

(** The [if]/[elif] chain of [sync_write] that builds [ids_values]. *)
Definition ids_values_for (values : ValuesArg F) : M (dict Z (Value F)) :=
  match values with
  | OneValue (VInt n) =>        (* isinstance(values, int) *)
      gets (λ b, Dict.comp (λ id_, id_) (λ _, VInt n) (ids b))
  | PerMotor d => ids_values_of d []
  | OneValue (VFloat _) => raise TypeError
  end.

Definition sync_write (data_name : string) (values : ValuesArg F) (normalize : bool)
    (num_retry : Z) : M unit :=
  connected ← gets is_connected;
  if negb connected then
    port ← gets port; raise (DeviceNotConnectedError port)
  else
    ids_values ← ids_values_for values;
    sync_write_ids_values data_name ids_values normalize num_retry.

(** *** Single write *)

Definition _write (data_name : string) (motor_id : Z) (value : Value F) (num_retry : Z)
    : M (Z * Z) :=
  model ← _id_to_model motor_id;
  tbl ← gets (λ b, model_ctrl_table (cls b));
  '(addr, n_bytes) ← lift (get_address tbl model data_name);
  value ← lift (_encode_value value data_name n_bytes);
  data ← lift (_split_int_to_bytes value n_bytes);
  r ← retry_loop (tries num_retry) (writeTxRx motor_id addr n_bytes data) fst None;
  match r with
  | None => raise (UnboundLocalError "comm")
  | Some (comm, error) => mret (comm, error)
  end.

Definition write (data_name : string) (motor : NameOrID) (value : Value F)
    (normalize : bool) (num_retry : Z) : M unit :=
  connected ← gets is_connected;
  if negb connected then
    port ← gets port; raise (DeviceNotConnectedError port)
  else
    id_ ← _get_motor_id motor;
    required ← gets (λ b, normalization_required (cls b));
    value ← (if normalize && bool_decide (data_name ∈ required)
             then id_value ← _unnormalize data_name [(id_, value)];
                  raw ← lift (subscript ID id_value id_);
                  mret (VInt raw)
             else mret value);
    '(comm, error) ← _write data_name id_ value num_retry;
    ok ← _is_comm_success comm;
    if negb ok then
      diag ← gets (λ b, getTxRxResult (transport b) comm);
      raise (ConnectionError OpWrite data_name (num_retry + 1) diag)
    else
      failed ← _is_error error;
      if (failed : bool) then
        diag ← gets (λ b, getRxPacketError (transport b) error);
        raise (RuntimeError OpWrite data_name (num_retry + 1) diag)
      else mret ().

(** *** Calibration *)

(** The loop of [reset_calibration]. *)
Fixpoint reset_calibration_loop (motors : list NameOrID) : M unit :=
  match motors with
  | [] => mret ()
  | motor :: rest =>
      model ← _get_motor_model motor;
      res ← (λ b, (subscript Name (model_resolution_table (cls b)) model, b)) : M Z;
      let max_res := res - 1 in
      _ ← write "Homing_Offset" motor (VInt 0) false 0;
      _ ← write "Min_Position_Limit" motor (VInt 0) false 0;
      _ ← write "Max_Position_Limit" motor (VInt max_res) false 0;
      reset_calibration_loop rest
  end.

Definition reset_calibration (motors : MotorsArg) : M unit :=
  motors ← match motors with
           | MotorsNone => gets (λ b, Name <$> names b)
           | MotorsOne motor => mret [motor]
           | MotorsList l => mret l
           | MotorsOther => raise TypeError
           end;
  reset_calibration_loop motors.

(** The loop of [write_calibration]. *)
Fixpoint write_calibration_loop (items : list (string * MotorCalibration)) : M unit :=
  match items with
  | [] => mret ()
  | (motor, calibration) :: rest =>
      _ ← write "Homing_Offset" (Name motor) (VInt (homing_offset calibration)) true 0;
      _ ← write "Min_Position_Limit" (Name motor) (VInt (range_min calibration)) true 0;
      _ ← write "Max_Position_Limit" (Name motor) (VInt (range_max calibration)) true 0;
      write_calibration_loop rest
  end.

Definition write_calibration (calibration_dict : dict string MotorCalibration) : M unit :=
  _ ← write_calibration_loop calibration_dict;
  modify (with_calibration calibration_dict).

(** The last loop of [set_half_turn_homings]. *)
Fixpoint write_homing_offsets (items : list (NameOrID * Value F)) : M unit :=
  match items with
  | [] => mret ()
  | (motor, offset) :: rest =>
      _ ← write "Homing_Offset" motor offset true 0;
      write_homing_offsets rest
  end.

Definition set_half_turn_homings (motors : MotorsArg) : M (dict NameOrID (Value F)) :=
  motors ← match motors with
           | MotorsNone => gets (λ b, Name <$> names b)
           | MotorsOne motor => mret [motor]
           | _ => raise TypeError
           end;
  _ ← reset_calibration (MotorsList motors);
  actual_positions ← sync_read "Present_Position" (MotorsList motors) false 0;
  homing_offsets ← _get_half_turn_homings actual_positions;
  _ ← write_homing_offsets homing_offsets;
  mret homing_offsets.

(** [{motor: pick(positions[motor], bound) for motor, bound in bounds.items()}] *)
Fixpoint update_bounds (pick : Value F → Value F → Value F)
    (positions : dict NameOrID (Value F)) (bounds : list (NameOrID * Value F))
    (acc : dict NameOrID (Value F)) : Result (dict NameOrID (Value F)) :=
  match bounds with
  | [] => Ok acc
  | (motor, bound) :: rest =>
      position ← subscript (λ k, k) positions motor;
      update_bounds pick positions rest (Dict.set motor (pick position bound) acc)
  end.

(** The rows printed when [display_values] is set: the three lookups of
    every row. *)
Fixpoint display_rows (motors : list NameOrID)
    (mins positions maxes : dict NameOrID (Value F)) : Result unit :=
  match motors with
  | [] => Ok ()
  | name :: rest =>
      _ ← subscript (λ k, k) mins name;
      _ ← subscript (λ k, k) positions name;
      _ ← subscript (λ k, k) maxes name;
      display_rows rest mins positions maxes
  end.

(** The [while True] loop of [record_ranges_of_motion], run for at most
    [fuel] rounds; [enter_pressed k] is what [enter_pressed()] answers in
    round [k].  [None] means that the loop has not been left yet. *)
Fixpoint record_ranges_loop (fuel : nat) (enter_pressed : nat → bool) (k : nat)
    (motors : list NameOrID) (display_values : bool)
    (mins maxes : dict NameOrID (Value F))
    : M (option (dict NameOrID (Value F) * dict NameOrID (Value F))) :=
  match fuel with
  | O => mret None
  | S fuel' =>
      positions ← sync_read "Present_Position" (MotorsList motors) false 0;
      mins ← lift (update_bounds Py.min positions mins []);
      maxes ← lift (update_bounds Py.max positions maxes []);
      _ ← lift (if display_values then display_rows motors mins positions maxes
                else Ok ());
      if enter_pressed k then mret (Some (mins, maxes))
      else record_ranges_loop fuel' enter_pressed (S k) motors display_values mins maxes
  end.

Definition record_ranges_of_motion (fuel : nat) (enter_pressed : nat → bool)
    (motors : MotorsArg) (display_values : bool)
    : M (option (dict NameOrID (Value F) * dict NameOrID (Value F))) :=
  motors ← match motors with
           | MotorsNone => gets (λ b, Name <$> names b)
           | MotorsOne motor => mret [motor]
           | MotorsList l => mret l
           | MotorsOther => raise TypeError
           end;
  start_positions ← sync_read "Present_Position" (MotorsList motors) false 0;
  record_ranges_loop fuel enter_pressed 0 motors display_values
    start_positions start_positions.

End MotorsBus.

(** ** Well-formed buses *)

(** The lookup tables are the ones [__init__] derives from [motors]. *)
Definition derived_dicts_ok (b : MotorsBus) : Prop :=
  _id_to_model_dict b = Dict.comp m_id m_model (Dict.values (motors b))
  ∧ _id_to_name_dict b = Dict.comp (λ item, m_id item.2) fst (motors b).

(** A bus as [__init__] leaves it and [_validate_motors] wants it: [motors]
    is a dictionary and no two motors share an id. *)
Definition valid_bus (b : MotorsBus) : Prop :=
  Dict.wf (motors b) ∧ NoDup (ids b) ∧ derived_dicts_ok b.

(** The norm modes that [_normalize] and [_unnormalize] do not implement. *)
Definition unsupported (mode : MotorNormMode) : Prop :=
  mode = DEGREE ∨ mode = VELOCITY.

(** ** Normalization as the specification words it *)

Section normalization_spec.
Context {F : Type} `{PyFloat F}.

(** [clamp] brings a raw value into [[min_, max_]]. *)
Definition clamp (min_ max_ val : Z) : Z := Z.min max_ (Z.max min_ val).

(** Specification of [_normalize] for one motor: clamp, then map linearly,
    [((clamped - min) / (max - min)) * 200 - 100] onto [-100, 100] and
    [((clamped - min) / (max - min)) * 100] onto [0, 100]. *)
Definition spec_normalize (mode : MotorNormMode) (min_ max_ val : Z) : option (Value F) :=
  let clamped := clamp min_ max_ val in
  match mode with
  | RANGE_M100_100 =>
      Some (VFloat (fsub (fmul (int_true_div (clamped - min_) (max_ - min_))
                            (float_of_int 200)) (float_of_int 100)))
  | RANGE_0_100 =>
      Some (VFloat (fmul (int_true_div (clamped - min_) (max_ - min_)) (float_of_int 100)))
  | _ => None
  end.


(** The motor behind an id, with its calibration. *)
Definition motor_of_id (b : MotorsBus) (id_ : Z) : option (Motor * MotorCalibration) :=
  name ← Dict.get id_ (_id_to_name_dict b);
  cal ← Dict.get name (calibration b);
  motor ← Dict.get name (motors b);
  Some (motor, cal).

(** One entry is normalized as specified. *)
Definition normalizes_to (b : MotorsBus) (item : Z * Z) (res : Z * Value F) : Prop :=
  res.1 = item.1
  ∧ ∃ motor cal,
      motor_of_id b item.1 = Some (motor, cal)
      ∧ range_min cal < range_max cal
      ∧ spec_normalize (norm_mode motor) (range_min cal) (range_max cal) item.2 = Some res.2.




End normalization_spec.

(** ** Transmissions and attempts *)

(** The bus after the packets [extra] were handed to the wire. *)
Definition after_sending (extra : list Packet) (b : MotorsBus) : MotorsBus :=
  with_transport (with_sent (sent (transport b) ++ extra) (transport b)) b.

(** The wire reports communication success for transmission number [k]. *)
Definition comm_ok (b : MotorsBus) (k : nat) : bool :=
  bool_decide ((reply (transport b) k).1 = _comm_success (cls b)).

(** How many of at most [n] attempts are made when the first one is
    transmission number [k0]: up to and including the first success. *)
Fixpoint attempts_made (ok : nat → bool) (n k0 : nat) : nat :=
  match n with
  | O => O
  | S n' => if ok k0 then 1%nat else S (attempts_made ok n' (S k0))
  end.

(** The attempts one call with retry budget [num_retry] makes on bus [b]. *)
Definition attempts (b : MotorsBus) (num_retry : Z) : nat :=
  attempts_made (comm_ok b) (tries num_retry) (length (sent (transport b))).

(** The wire reports a communication failure for every transmission to come. *)
Definition all_fail (b : MotorsBus) : Prop :=
  ∀ k, (length (sent (transport b)) ≤ k)%nat → comm_ok b k = false.

(** The next [j] transmissions fail and the one after them succeeds. *)
Definition first_success (b : MotorsBus) (j : nat) : Prop :=
  (∀ i, (i < j)%nat → comm_ok b (length (sent (transport b)) + i) = false)
  ∧ comm_ok b (length (sent (transport b)) + j) = true.

(** The status of the last of [1 + num_retry] attempts. *)
Definition last_comm (b : MotorsBus) (num_retry : Z) : Z :=
  (reply (transport b) (length (sent (transport b)) + Z.to_nat num_retry)).1.

(** Every participating motor is configured and its model keeps [data_name]
    at [addr], on [n_bytes] bytes. *)
Definition same_address (b : MotorsBus) (data_name : string) (motor_ids : list Z)
    (addr n_bytes : Z) : Prop :=
  motor_ids ≠ []
  ∧ ∀ id_, id_ ∈ motor_ids →
      ∃ model, Dict.get id_ (_id_to_model_dict b) = Some model
               ∧ get_address (model_ctrl_table (cls b)) model data_name = Ok (addr, n_bytes).

(** The property [_has_different_ctrl_tables] has a value: it is cached, or
    every model of the bus has a control table to compare. *)
Definition tables_compared (b : MotorsBus) : Prop :=
  ∃ different, (_has_different_ctrl_tables b).1 = Ok different.

(** What [write] makes of the answer to its last attempt. *)
Definition write_outcome (b : MotorsBus) (data_name : string) (num_retry : Z)
    (answer : Z * Z) : Result unit :=
  if bool_decide (answer.1 = _comm_success (cls b)) then
    if bool_decide (answer.2 ≠ _no_error (cls b)) then
      Raise (RuntimeError OpWrite data_name (num_retry + 1)
               (getRxPacketError (transport b) answer.2))
    else Ok ()
  else Raise (ConnectionError OpWrite data_name (num_retry + 1)
                (getTxRxResult (transport b) answer.1)).

(** The bus once the group reader is set up. *)
Definition configured_reader (addr n_bytes : Z) (motor_ids : list Z) (b : MotorsBus)
    : MotorsBus :=
  with_transport
    (with_sync_reader {| start_address := addr; data_length := n_bytes; param := motor_ids |}
       (transport b)) b.

(** The bus once the group writer is set up. *)
Definition configured_writer (addr n_bytes : Z) (params : list (Z * list Z)) (b : MotorsBus)
    : MotorsBus :=
  with_transport
    (with_sync_writer {| start_address := addr; data_length := n_bytes; param := params |}
       (transport b)) b.


(** The slot of [_has_different_ctrl_tables], when filled, holds what the
    body of the property computes. *)
Definition cache_ok (b : MotorsBus) : Prop :=
  ∀ different, _has_different_ctrl_tables_cache b = Some different →
               _has_different_ctrl_tables_body b = Ok different.

(** The participating motors are configured, their models all have
    [data_name], and not at one (address, width). *)
Definition conflicting (b : MotorsBus) (data_name : string) (motor_ids : list Z) : Prop :=
  ∃ models addresses,
    Forall2 (λ id_ model, Dict.get id_ (_id_to_model_dict b) = Some model) motor_ids models
    ∧ all_addresses (model_ctrl_table (cls b)) models data_name = Ok addresses
    ∧ ∃ x y, x ∈ addresses ∧ y ∈ addresses ∧ x ≠ y.

(** The two errors of [assert_same_address]. *)
Definition cross_model_error (data_name : string) (e : Exn) : Prop :=
  match e with
  | NotImplementedError_address d _ | NotImplementedError_bytes d _ => d = data_name
  | _ => False
  end.

Section codec_conditions.
Context {F : Type} `{PyFloat F} `{Overrides F}.

(** The vendor decoder accepts whatever is read. *)
Definition decodes (data_name : string) (n_bytes : Z) : Prop :=
  ∀ val, ∃ decoded, _decode_value val data_name n_bytes = Ok decoded.

(** The vendor encoder and byte splitter turn [ids_values] into the
    parameters [params] of the group writer. *)
Definition encodes (data_name : string) (n_bytes : Z) (ids_values : dict Z (Value F))
    (params : list (Z * list Z)) : Prop :=
  ∃ encoded,
    encode_values data_name n_bytes ids_values [] = Ok encoded
    ∧ Forall2 (λ e p, p.1 = e.1 ∧ _split_int_to_bytes e.2 n_bytes = Ok p.2) encoded params.

(** What the [if normalize and data_name in self.normalization_required]
    step of [sync_write] and [write] makes of [ids_values]. *)
Definition unnormalized_as (b : MotorsBus) (data_name : string) (normalize : bool)
    (ids_values raw : dict Z (Value F)) : Prop :=
  if normalize && bool_decide (data_name ∈ normalization_required (cls b))
  then ∃ ticks, _unnormalize data_name ids_values b = (Ok ticks, b)
                ∧ raw = prod_map id VInt <$> ticks
  else raw = ids_values.
End codec_conditions.

(** ** A concrete bus

    A Feetech-like subclass over binary64 and a scripted transport, used to
    run the driver on examples. *)
Module Fixture.
Import Binary64.

Definition sts3215 : gmap string (Z * Z) :=
  list_to_map [("Goal_Position", (42, 2)); ("Present_Position", (56, 2));
               ("Homing_Offset", (31, 2)); ("Min_Position_Limit", (9, 2));
               ("Max_Position_Limit", (11, 2))].

(** A model that keeps the goal position elsewhere, on four bytes. *)
Definition xl430 : gmap string (Z * Z) :=
  list_to_map [("Goal_Position", (116, 4)); ("Present_Position", (132, 4));
               ("Homing_Offset", (20, 4)); ("Min_Position_Limit", (52, 4));
               ("Max_Position_Limit", (48, 4))].

Definition klass : MotorsBusClass :=
  {| default_timeout := 1000;
     model_ctrl_table := list_to_map [("sts3215", sts3215); ("xl430", xl430)];
     model_number_table := [("sts3215", 777); ("xl430", 1060)];
     model_resolution_table := [("sts3215", 4096); ("xl430", 4096)];
     normalization_required := ["Goal_Position"; "Present_Position"];
     _comm_success := 0;
     _no_error := 0 |}.

(** Little-endian bytes, as the docstring of [_split_int_to_bytes] asks. *)
Definition split_int_to_bytes (value n_bytes : Z) : Result (list Z) :=
  if decide (value < 0) then Raise (ValueError "Negative values are not allowed")
  else if decide (n_bytes ∉ [1; 2; 4]) then Raise NotImplementedError
  else if decide (2 ^ (8 * n_bytes) ≤ value) then Raise (ValueError "Value exceeds the maximum")
  else Ok ((λ i, Z.land (Z.shiftr value (8 * i)) 255) <$> seqZ 0 n_bytes).

Global Instance overrides : Overrides float :=
  {| _encode_value := λ value _ _,
       match value with
       | VInt n => Ok n
       | VFloat _ => Raise (HookError "cannot encode a float")
       end;
     _decode_value := λ value _ _, Ok value;
     _split_int_to_bytes := split_int_to_bytes;
     _get_half_turn_homings := λ positions,
       mret (prod_map id (λ v, Py.sub_int v 2047) <$> positions);
     _enable_torque := λ _, mret ();
     _disable_torque := λ _, mret ();
     broadcast_ping := λ _ _, mret None |}.

(** A transport whose [k]-th transmission is answered with [script k] and
    whose registers all read [register]. *)
Definition wire (opened : bool) (script : nat → Z * Z) (register : Z) : Transport :=
  {| is_open := opened;
     open_outcome := OpenTrue;
     packet_timeout := 0;
     sent := [];
     reply := script;
     rx_data := λ _ _ _ _, register;
     getTxRxResult := λ comm,
       if decide (comm = 0) then "[TxRxResult] Communication success!"
       else "[TxRxResult] There is no status packet!";
     getRxPacketError := λ error,
       if decide (error = 0) then "" else "[RxPacketError] Out of range error!";
     sync_reader := {| start_address := 0; data_length := 0; param := [] |};
     sync_writer := {| start_address := 0; data_length := 0; param := [] |} |}.

Definition always (answer : Z * Z) : nat → Z * Z := λ _, answer.

(** The first [k] transmissions fail, the following ones succeed. *)
Definition fails_first (k : nat) : nat → Z * Z :=
  λ i, if decide (i < k)%nat then (-3001, 0) else (0, 0).

Definition full_range (id_ : Z) : MotorCalibration :=
  {| c_id := id_; drive_mode := 0; homing_offset := 0; range_min := 0; range_max := 4095 |}.

(** One motor, as in the docstring of [MotorsBus], calibrated over a turn. *)
Definition gripper (mode : MotorNormMode) (t : Transport) : MotorsBus :=
  __init__ klass t "/dev/tty.usbmodem575E0031751"
    [("gripper", {| m_id := 6; m_model := "sts3215"; norm_mode := mode |})]
    (Some [("gripper", full_range 6)]).

(** The same motor on a bus that was given no calibration. *)
Definition uncalibrated (mode : MotorNormMode) (t : Transport) : MotorsBus :=
__init__ klass t "/dev/tty.usbmodem575E0031751"
  [("gripper", {| m_id := 6; m_model := "sts3215"; norm_mode := mode |})]
  None.

(** Two motors of one model. *)
Definition arm (t : Transport) : MotorsBus :=
  __init__ klass t "/dev/ttyACM0"
    [("shoulder", {| m_id := 1; m_model := "sts3215"; norm_mode := RANGE_M100_100 |});
     ("gripper", {| m_id := 6; m_model := "sts3215"; norm_mode := RANGE_0_100 |})]
    (Some [("shoulder", full_range 1); ("gripper", full_range 6)]).

(** Two motors of two models with different control tables. *)
Definition mixed (t : Transport) : MotorsBus :=
  __init__ klass t "/dev/ttyACM0"
    [("shoulder", {| m_id := 1; m_model := "sts3215"; norm_mode := RANGE_M100_100 |});
     ("wrist", {| m_id := 2; m_model := "xl430"; norm_mode := RANGE_M100_100 |})]
    None.

(** Two names for one id. *)
Definition clash (t : Transport) : MotorsBus :=
  __init__ klass t "/dev/ttyACM0"
    [("shoulder", {| m_id := 1; m_model := "sts3215"; norm_mode := RANGE_M100_100 |});
     ("elbow", {| m_id := 1; m_model := "sts3215"; norm_mode := RANGE_M100_100 |})]
    None.
End Fixture.

(** ** Further definitions *)

(** *** Further lookups *)

(** [__len__] *)
Definition __len__ (b : MotorsBus) : nat := length (motors b).

Definition _model_nb_to_model (motor_nb : Z) : M string := λ b,
  (subscript ID (_model_nb_to_model_dict b) motor_nb, b).

(** The bus once [port_handler.openPort()] has opened the port. *)
Definition opened_port (b : MotorsBus) : MotorsBus :=
  with_transport (with_is_open true (transport b)) b.

(** The bus once the timeout of the packets is [ms]. *)
Definition timeout_set (ms : Z) (b : MotorsBus) : MotorsBus :=
  with_transport (with_packet_timeout ms (transport b)) b.

(** The answer of [broadcast_ping] does not let [_assert_motors_exist]
    pass its first test: it is [None], empty, or its ids are not the ids of
    the bus. *)
Definition motors_missing (b : MotorsBus) (found : option (dict Z Z)) : Prop :=
  match found with
  | Some (item :: f) =>
      (list_to_set (Dict.keys (item :: f)) : gset Z) ≠ list_to_set (ids b)
  | _ => True
  end.

Module Responding.
(** A vendor subclass like the one of [Fixture], whose [broadcast_ping]
    finds the motors 1 and 6, both with model number 777. *)
Definition overrides : Overrides float :=
  {| _encode_value := _encode_value (Overrides := Fixture.overrides);
     _decode_value := _decode_value (Overrides := Fixture.overrides);
     _split_int_to_bytes := Fixture.split_int_to_bytes;
     _get_half_turn_homings := _get_half_turn_homings (Overrides := Fixture.overrides);
     _enable_torque := λ _, mret ();
     _disable_torque := λ _, mret ();
     broadcast_ping := λ _ _, mret (Some [(1, 777); (6, 777)]) |}.
End Responding.

(** What the read and write operations leave alone: the class, the port
    name, the motors, the calibration and the lookup tables; whether the port
    is open and its timeout; the script of the wire.  The transmissions made
    before are still in the log, in front of the new ones. *)
Definition frame (b b' : MotorsBus) : Prop :=
  cls b' = cls b ∧ port b' = port b ∧ motors b' = motors b
  ∧ calibration b' = calibration b
  ∧ _id_to_model_dict b' = _id_to_model_dict b
  ∧ _id_to_name_dict b' = _id_to_name_dict b
  ∧ _model_nb_to_model_dict b' = _model_nb_to_model_dict b
  ∧ is_open (transport b') = is_open (transport b)
  ∧ open_outcome (transport b') = open_outcome (transport b)
  ∧ packet_timeout (transport b') = packet_timeout (transport b)
  ∧ reply (transport b') = reply (transport b)
  ∧ rx_data (transport b') = rx_data (transport b)
  ∧ ∃ extra, sent (transport b') = sent (transport b) ++ extra.

(** A method that keeps the frame, whatever it returns or raises. *)
Definition framed {A : Type} (m : M A) : Prop := ∀ b, frame b (m b).2.

(** What a group operation on no motor at all raises: the guard compares
    no address when the control tables differ, and [next(iter(...))] finds
    no first motor when they do not. *)
Definition empty_group_error (b : MotorsBus) (data_name : string) : Exn :=
  match (_has_different_ctrl_tables b).1 with
  | Ok true => NotImplementedError_address data_name []
  | Ok false => StopIteration
  | Raise e => e
  end.




(** What [getData] returns for motor [id_] once the attempts of a read with
    retry budget [num_retry] have been made on bus [b]. *)
Definition received (b : MotorsBus) (num_retry id_ addr n_bytes : Z) : Z :=
  rx_data (transport b) (length (sent (transport b)) + attempts b num_retry) id_ addr n_bytes.

(** The wire answers transmission number [k] with communication success
    and no error of the device. *)
Definition answers_ok (b : MotorsBus) (k : nat) : Prop :=
  reply (transport b) k = (_comm_success (cls b), _no_error (cls b)).

Section register_writes.
Context {F : Type} `{PyFloat F} `{Overrides F}.

(** The packet that writing the integer [value] to [data_name] of motor
    [id_] of model [model] hands to the wire, when the control table has
    the register and the vendor hooks accept the value. *)
Definition write_packet (b : MotorsBus) (model : string) (id_ : Z) (data_name : string)
    (value : Z) : Result Packet :=
  '(addr, n_bytes) ← get_address (model_ctrl_table (cls b)) model data_name;
  encoded ← _encode_value (VInt value) data_name n_bytes;
  data ← _split_int_to_bytes encoded n_bytes;
  Ok (WritePacket id_ addr n_bytes data).
End register_writes.

Section ranges.
Context {F : Type}.

(** A value that is an [int]. *)
Definition is_int (v : Value F) : Prop := ∃ n, v = VInt n.

(** The recorded ranges bracket the positions read at the start: the three
    dictionaries have the same keys, their values are integers, and for
    every key the minimum is at most the start, which is at most the
    maximum. *)
Definition ranges_ok (start mins maxes : dict NameOrID (Value F)) : Prop :=
  Dict.keys mins = Dict.keys start
  ∧ Dict.keys maxes = Dict.keys start
  ∧ ∀ key, key ∈ Dict.keys start →
      ∃ s lo hi, Dict.get key start = Some (VInt s)
                 ∧ Dict.get key mins = Some (VInt lo)
                 ∧ Dict.get key maxes = Some (VInt hi)
                 ∧ lo ≤ s ≤ hi.

(** The invariant of the loop of [record_ranges_of_motion]: the three
    dictionaries go through the same keys in the same order, with integers
    [lo ≤ s ≤ hi]. *)
Definition bracketed (start mins maxes : dict NameOrID (Value F)) : Prop :=
  ∃ rows : list (NameOrID * (Z * Z * Z)),
    NoDup rows.*1
    ∧ start = (λ row, (row.1, VInt row.2.1.2)) <$> rows
    ∧ mins = (λ row, (row.1, VInt row.2.1.1)) <$> rows
    ∧ maxes = (λ row, (row.1, VInt row.2.2)) <$> rows
    ∧ Forall (λ row, row.2.1.1 ≤ row.2.1.2 ≤ row.2.2) rows.
End ranges.

(** No control table of the class has the register [data_name]. *)
Definition register_missing (b : MotorsBus) (data_name : string) : Prop :=
  ∀ model t, model_ctrl_table (cls b) !! model = Some t → t !! data_name = None.

(** A method that raises on bus [b] without touching the SDK objects. *)
Definition raises_silently {A : Type} (m : M A) (b : MotorsBus) : Prop :=
  ∃ e b', m b = (Raise e, b') ∧ cls b' = cls b ∧ transport b' = transport b.

(** A method that never touches the SDK objects nor the class. *)
Definition quiet {A : Type} (m : M A) : Prop :=
  ∀ b, cls (m b).2 = cls b ∧ transport (m b).2 = transport b.

(** *** Reading the calibration back *)

Global Instance MotorCalibration_eq_dec : EqDecision MotorCalibration.
Proof. solve_decision. Defined.

(** [except KeyError]: the three kinds of [KeyError] of the module. *)
Definition is_KeyError (e : Exn) : bool :=
  match e with
  | KeyError _ | KeyError_ctrl_table _ | KeyError_address _ _ => true
  | _ => false
  end.

(** [d1 == d2] on dictionaries: as many entries, and every key of [d1] has
    in [d2] the value it has in [d1]; the order of the entries does not
    count. *)
Definition dict_eqb {K V : Type} `{EqDecision K} `{EqDecision V} (d1 d2 : dict K V) : bool :=
  bool_decide (length d1 = length d2)
  && forallb (λ item, bool_decide (Dict.get item.1 d2 = Some item.2)) d1.

Section read_calibration.
Context {F : Type} `{PyFloat F} `{Overrides F}.

(** A field of [MotorCalibration] taken from a dictionary that [sync_read]
    returned without normalization.  The values of such a dictionary are the
    integers that [_decode_value] returned (see [sync_read_raw_result]
    below), so the second case never arises. *)
Definition register_value (v : Value F) : Result Z :=
  match v with
  | VInt n => Ok n
  | VFloat _ => Raise TypeError
  end.

(** The loop of [read_calibration]; the keyword arguments of
    [MotorCalibration(...)] are evaluated from left to right. *)
Fixpoint read_calibration_loop (items : list (string * Motor))
    (drive_modes offsets mins maxes : dict NameOrID (Value F))
    (calibration : dict string MotorCalibration) : Result (dict string MotorCalibration) :=
  match items with
  | [] => Ok calibration
  | (name, motor) :: rest =>
      drive_mode ← subscript (λ k, k) drive_modes (Name name) ≫= register_value;
      homing_offset ← subscript (λ k, k) offsets (Name name) ≫= register_value;
      range_min ← subscript (λ k, k) mins (Name name) ≫= register_value;
      range_max ← subscript (λ k, k) maxes (Name name) ≫= register_value;
      read_calibration_loop rest drive_modes offsets mins maxes
        (Dict.set name
           {| c_id := m_id motor; drive_mode := drive_mode; homing_offset := homing_offset;
              range_min := range_min; range_max := range_max |} calibration)
  end.

(** [try: drive_modes = self.sync_read("Drive_Mode", normalize=False)]
    [except KeyError: drive_modes = {name: 0 for name in self.names}] *)
Definition read_drive_modes : M (dict NameOrID (Value F)) := λ b,
  match sync_read "Drive_Mode" MotorsNone false 0 b with
  | (Raise e, b') =>
      if is_KeyError e then (Ok (Dict.comp Name (λ _, VInt 0) (names b')), b')
      else (Raise e, b')
  | returned => returned
  end.

Definition read_calibration : M (dict string MotorCalibration) :=
  offsets ← sync_read "Homing_Offset" MotorsNone false 0;
  mins ← sync_read "Min_Position_Limit" MotorsNone false 0;
  maxes ← sync_read "Max_Position_Limit" MotorsNone false 0;
  drive_modes ← read_drive_modes;
  items ← gets motors;
  lift (read_calibration_loop items drive_modes offsets mins maxes []).

(** What the entry [c] of the result of [read_calibration] has for the
    motor [item]: its name, its id, and the four values read for its name. *)
Definition read_entry (drive_modes offsets mins maxes : dict NameOrID (Value F))
    (item : string * Motor) (c : string * MotorCalibration) : Prop :=
  c.1 = item.1
  ∧ c_id c.2 = m_id item.2
  ∧ Dict.get (Name item.1) drive_modes = Some (VInt (drive_mode c.2))
  ∧ Dict.get (Name item.1) offsets = Some (VInt (homing_offset c.2))
  ∧ Dict.get (Name item.1) mins = Some (VInt (range_min c.2))
  ∧ Dict.get (Name item.1) maxes = Some (VInt (range_max c.2)).

(** The property [is_calibrated]: [self.calibration == self.read_calibration()]. *)
Definition is_calibrated : M bool :=
  calibration ← gets calibration;
  read ← read_calibration;
  mret (dict_eqb calibration read).
End read_calibration.

(** * Properties *)

(** ** Dictionaries *)

Section dict_facts.
Context {K V : Type} `{EqDecision K}.
Implicit Types (d : dict K V) (k : K) (v : V).

Lemma dict_get_set_eq d k v : Dict.get k (Dict.set k v d) = Some v.
Proof.
  induction d as [|[k' v'] d IH]; simpl.
  - by rewrite decide_True.
  - destruct (decide (k' = k)) as [->|Hne]; simpl.
    + by rewrite decide_True.
    + by rewrite decide_False.
Qed.

Lemma dict_get_set_ne d k k' v : k ≠ k' → Dict.get k' (Dict.set k v d) = Dict.get k' d.
Proof.
  intros Hne. induction d as [|[k0 v0] d IH]; simpl.
  - by rewrite decide_False.
  - destruct (decide (k0 = k)) as [->|Hne0]; simpl.
    + by rewrite !decide_False.
    + destruct (decide (k0 = k')); done.
Qed.

Lemma dict_get_None d k : Dict.get k d = None ↔ k ∉ Dict.keys d.
Proof.
  unfold Dict.keys. induction d as [|[k' v'] d IH]; simpl.
  - split; [intros _; apply not_elem_of_nil | done].
  - rewrite not_elem_of_cons. destruct (decide (k' = k)) as [->|Hne].
    + split; [done | intros [? _]; done].
    + rewrite IH. split; [intros ?; split; [congruence | done] | intros [_ ?]; done].
Qed.

Lemma dict_get_Some_elem d k v : Dict.get k d = Some v → (k, v) ∈ d.
Proof.
  induction d as [|[k' v'] d IH]; simpl; [done|].
  destruct (decide (k' = k)) as [->|Hne].
  - intros [= ->]. apply list_elem_of_here.
  - intros Hget. apply list_elem_of_further. auto.
Qed.

Lemma dict_get_elem d k v : Dict.wf d → (k, v) ∈ d → Dict.get k d = Some v.
Proof.
  unfold Dict.wf, Dict.keys. induction d as [|[k' v'] d IH]; simpl.
  - intros _ Hin. by apply elem_of_nil in Hin.
  - intros Hnd Hin. apply NoDup_cons in Hnd as [Hk' Hnd].
    apply elem_of_cons in Hin as [[= -> ->]|Hin].
    + by rewrite decide_True.
    + rewrite decide_False; [auto|].
      intros ->. apply Hk'. apply list_elem_of_fmap. by exists (k, v).
Qed.

(** Assigning to a key that is absent appends the item. *)
Lemma dict_set_fresh d k v : k ∉ Dict.keys d → Dict.set k v d = d ++ [(k, v)].
Proof.
  unfold Dict.keys. induction d as [|[k' v'] d IH]; simpl; [done|].
  rewrite not_elem_of_cons. intros [Hne Hk].
  rewrite decide_False by congruence. by rewrite IH.
Qed.

Lemma dict_keys_set d k v :
  Dict.keys (Dict.set k v d) = if decide (k ∈ Dict.keys d) then Dict.keys d else Dict.keys d ++ [k].
Proof.
  unfold Dict.keys. induction d as [|[k' v'] d IH].
  - cbn [Dict.set]. case_decide as Hin; [by apply elem_of_nil in Hin | done].
  - cbn [Dict.set]. destruct (decide (k' = k)) as [->|Hne].
    + rewrite !fmap_cons. cbn [fst]. rewrite decide_True; [done | apply list_elem_of_here].
    + rewrite !fmap_cons, IH. cbn [fst]. destruct (decide (k ∈ d.*1)) as [Hin|Hnin].
      * rewrite decide_True; [done | by apply list_elem_of_further].
      * rewrite decide_False; [done|]. intros [?|?]%elem_of_cons; congruence.
Qed.

Lemma dict_wf_set d k v : Dict.wf d → Dict.wf (Dict.set k v d).
Proof.
  unfold Dict.wf. rewrite dict_keys_set. intros Hnd.
  destruct (decide (k ∈ Dict.keys d)); [done|].
  apply NoDup_app. split_and!; [done | | apply NoDup_singleton].
  intros x Hx Hx'. apply list_elem_of_singleton in Hx'. by subst.
Qed.

(** A comprehension whose keys are pairwise distinct lists its items in
    the order of the iteration. *)
Lemma dict_foldl_set_fresh {A : Type} (key : A → K) (val : A → V) (xs : list A) d :
  NoDup (Dict.keys d ++ (key <$> xs)) →
  foldl (λ d x, Dict.set (key x) (val x) d) d xs = d ++ ((λ x, (key x, val x)) <$> xs).
Proof.
  revert d. induction xs as [|x xs IH]; intros d Hnd; simpl.
  - by rewrite app_nil_r.
  - simpl in Hnd. rewrite dict_set_fresh.
    + rewrite IH.
      * by rewrite <- app_assoc.
      * unfold Dict.keys in *. rewrite fmap_app. simpl. by rewrite <- app_assoc.
    + apply NoDup_app in Hnd as (_ & Hdisj & _). intros Hin.
      apply (Hdisj _ Hin). apply list_elem_of_here.
Qed.

Lemma dict_comp_NoDup {A : Type} (key : A → K) (val : A → V) (xs : list A) :
  NoDup (key <$> xs) → Dict.comp key val xs = (λ x, (key x, val x)) <$> xs.
Proof. intros Hnd. unfold Dict.comp. by rewrite dict_foldl_set_fresh. Qed.

Lemma dict_foldl_set_wf {A : Type} (key : A → K) (val : A → V) (xs : list A) d :
  Dict.wf d → Dict.wf (foldl (λ d x, Dict.set (key x) (val x) d) d xs).
Proof.
  revert d. induction xs as [|x xs IH]; intros d Hwf; simpl; [done|].
  apply IH. by apply dict_wf_set.
Qed.

Lemma dict_comp_wf {A : Type} (key : A → K) (val : A → V) (xs : list A) :
  Dict.wf (Dict.comp key val xs).
Proof. apply dict_foldl_set_wf. apply NoDup_nil_2. Qed.
End dict_facts.

(** ** Sets of identifiers *)

Lemma size_list_to_set_le (l : list Z) : (size (list_to_set l : gset Z) ≤ length l)%nat.
Proof.
  induction l as [|a l IH].
  - rewrite list_to_set_nil, size_empty. done.
  - rewrite list_to_set_cons, size_union_alt, size_singleton.
    pose proof (subseteq_size (list_to_set l ∖ {[a]}) (list_to_set l : gset Z)) as Hle.
    specialize (Hle ltac:(set_solver)). simpl. lia.
Qed.

(** [len(ids) == len(set(ids))] holds only of a list without repetition. *)
Lemma size_list_to_set_NoDup (l : list Z) :
  size (list_to_set l : gset Z) = length l → NoDup l.
Proof.
  induction l as [|a l IH]; intros Hsize.
  - apply NoDup_nil_2.
  - rewrite list_to_set_cons in Hsize. simpl in Hsize.
    destruct (decide (a ∈ l)) as [Hin|Hnin].
    + exfalso. pose proof (size_list_to_set_le l) as Hle.
      replace ({[a]} ∪ list_to_set l : gset Z) with (list_to_set l : gset Z) in Hsize
        by set_solver.
      lia.
    + apply NoDup_cons. split; [done|]. apply IH.
      rewrite size_union, size_singleton in Hsize by set_solver. lia.
Qed.

(** Unfolds the plumbing of [M]. *)
Ltac unfold_M :=
  unfold mbind, M_bind, mret, M_ret, raise, lift, gets, modify in *.

(** ** The connection state machine *)

Section state_machine.
Context {F : Type} `{PyFloat F} `{Overrides F}.

Lemma sync_read_disconnected (b : MotorsBus) data_name motors normalize num_retry :
  is_connected b = false →
  sync_read data_name motors normalize num_retry b
  = (Raise (DeviceNotConnectedError (port b)), b).
Proof. intros Hoff. unfold sync_read. unfold_M. by rewrite Hoff. Qed.

Lemma sync_write_disconnected (b : MotorsBus) data_name values normalize num_retry :
  is_connected b = false →
  sync_write data_name values normalize num_retry b
  = (Raise (DeviceNotConnectedError (port b)), b).
Proof. intros Hoff. unfold sync_write. unfold_M. by rewrite Hoff. Qed.

Lemma write_disconnected (b : MotorsBus) data_name motor value normalize num_retry :
  is_connected b = false →
  write data_name motor value normalize num_retry b
  = (Raise (DeviceNotConnectedError (port b)), b).
Proof. intros Hoff. unfold write. unfold_M. by rewrite Hoff. Qed.

(** C3. The bus has two states.  [connect] on a connected bus raises the
    already-connected error; on a disconnected bus [disconnect], [sync_read],
    [sync_write] and [write] raise the not-connected error.  In every case
    the bus is left as it was: nothing was opened, closed or transmitted. *)
Theorem C3_state_machine (b : MotorsBus) :
  (is_connected b = true →
   ∀ assert_motors_exist,
     connect assert_motors_exist b = (Raise (DeviceAlreadyConnectedError (port b)), b))
  ∧ (is_connected b = false →
     disconnect b = (Raise (DeviceNotConnectedError (port b)), b)
     ∧ (∀ data_name motors normalize num_retry,
          sync_read data_name motors normalize num_retry b
          = (Raise (DeviceNotConnectedError (port b)), b))
     ∧ (∀ data_name values normalize num_retry,
          sync_write data_name values normalize num_retry b
          = (Raise (DeviceNotConnectedError (port b)), b))
     ∧ (∀ data_name motor value normalize num_retry,
          write data_name motor value normalize num_retry b
          = (Raise (DeviceNotConnectedError (port b)), b))).
Proof.
  split.
  - intros Hon assert_motors_exist. unfold connect. by rewrite Hon.
  - intros Hoff. split_and!.
    + unfold disconnect. by rewrite Hoff.
    + intros. by apply sync_read_disconnected.
    + intros. by apply sync_write_disconnected.
    + intros. by apply write_disconnected.
Qed.
End state_machine.

(** The two premises of C3 on the two-motor bus, once open and once closed. *)
Lemma C3_state_machine_witness :
  let on := Fixture.arm (Fixture.wire true (Fixture.always (0, 0)) 0) in
  let off := Fixture.arm (Fixture.wire false (Fixture.always (0, 0)) 0) in
  (is_connected on = true ∧ is_connected off = false)
  ∧ connect true on = (Raise (DeviceAlreadyConnectedError "/dev/ttyACM0"), on)
  ∧ disconnect off = (Raise (DeviceNotConnectedError "/dev/ttyACM0"), off)
  ∧ sync_read "Present_Position" MotorsNone true 0 off
    = (Raise (DeviceNotConnectedError "/dev/ttyACM0"), off)
  ∧ sync_write "Goal_Position" (OneValue (VInt 0)) true 0 off
    = (Raise (DeviceNotConnectedError "/dev/ttyACM0"), off)
  ∧ write "Goal_Position" (Name "gripper") (VInt 0) true 0 off
    = (Raise (DeviceNotConnectedError "/dev/ttyACM0"), off).
Proof.
  intros on off.
  pose proof (C3_state_machine on) as [Hon _].
  pose proof (C3_state_machine off) as [_ Hoff].
  specialize (Hon eq_refl true).
  destruct (Hoff eq_refl) as (Hd & Hr & Hw & Hs).
  split; [split; reflexivity|].
  split; [exact Hon|].
  split; [exact Hd|].
  split; [apply Hr|].
  split; [apply Hw | apply Hs].
Defined.

(** ** Validation of the motors *)

Section validation.
Context {F : Type} `{PyFloat F} `{Overrides F}.

Lemma ids_of_motors (ms : dict string Motor) :
  m_id <$> Dict.values ms = (λ item, m_id item.2) <$> ms.
Proof. unfold Dict.values. by rewrite <- list_fmap_compose. Qed.

(** Two entries under different names with one id make [ids] repeat it. *)
Lemma duplicate_id_not_NoDup (ms : dict string Motor) name1 name2 motor1 motor2 :
  (name1, motor1) ∈ ms → (name2, motor2) ∈ ms → name1 ≠ name2 →
  m_id motor1 = m_id motor2 →
  ¬ NoDup (m_id <$> Dict.values ms).
Proof.
  intros Hin1 Hin2 Hne Hid Hnd. rewrite ids_of_motors in Hnd.
  apply list_elem_of_lookup in Hin1 as [i Hi].
  apply list_elem_of_lookup in Hin2 as [j Hj].
  assert (i = j) as ->.
  { eapply NoDup_lookup; [exact Hnd | |].
    - rewrite list_lookup_fmap, Hi. reflexivity.
    - rewrite list_lookup_fmap, Hj. simpl. by rewrite Hid. }
  rewrite Hi in Hj. congruence.
Qed.

Lemma validate_duplicate_id (b : MotorsBus) name1 name2 motor1 motor2 :
  (name1, motor1) ∈ motors b → (name2, motor2) ∈ motors b → name1 ≠ name2 →
  m_id motor1 = m_id motor2 →
  _validate_motors b = (Raise ValueError_same_id, b).
Proof.
  intros Hin1 Hin2 Hne Hid. unfold _validate_motors.
  rewrite decide_True; [done|]. intros Hlen.
  eapply duplicate_id_not_NoDup; [exact Hin1 | exact Hin2 | exact Hne | exact Hid |].
  apply size_list_to_set_NoDup. symmetry. exact Hlen.
Qed.

(** C8. A bus constructed from a [motors] mapping in which two different
    names carry the same id does not pass [_validate_motors]: it raises
    the duplicate-id [ValueError], whatever else the mapping holds. *)
Theorem C8_duplicate_ids_rejected (c : MotorsBusClass) (t : Transport) (port : string)
    (motors : dict string Motor) (calibration : option (dict string MotorCalibration))
    (name1 name2 : string) (motor1 motor2 : Motor) :
  (name1, motor1) ∈ motors → (name2, motor2) ∈ motors → name1 ≠ name2 →
  m_id motor1 = m_id motor2 →
  _validate_motors (__init__ c t port motors calibration)
  = (Raise ValueError_same_id, __init__ c t port motors calibration).
Proof.
  intros Hin1 Hin2 Hne Hid.
  exact (validate_duplicate_id (__init__ c t port motors calibration)
           name1 name2 motor1 motor2 Hin1 Hin2 Hne Hid).
Qed.
End validation.

(** The premises of C8 on the bus that names id 1 twice. *)
Lemma C8_duplicate_ids_rejected_witness :
  let t := Fixture.wire false (Fixture.always (0, 0)) 0 in
  _validate_motors (Fixture.clash t) = (Raise ValueError_same_id, Fixture.clash t).
Proof.
  intros t.
  apply (C8_duplicate_ids_rejected Fixture.klass t "/dev/ttyACM0" _ None
           "shoulder" "elbow"
           {| m_id := 1; m_model := "sts3215"; norm_mode := RANGE_M100_100 |}
           {| m_id := 1; m_model := "sts3215"; norm_mode := RANGE_M100_100 |}).
  - apply list_elem_of_here.
  - apply list_elem_of_further, list_elem_of_here.
  - discriminate.
  - reflexivity.
Defined.

(** ** Calibration procedures *)

Section calibration.
Context {F : Type} `{PyFloat F} `{Overrides F}.

(** C9. When [write_calibration calibration_dict] returns, the calibration
    of the bus is [calibration_dict] itself.  Nothing relates the dictionary
    to the motors of the bus: the statement holds of every dictionary that
    the writes accept, and the empty one is adopted by every bus. *)
Theorem C9_write_calibration_adopts (calibration_dict : dict string MotorCalibration)
    (b b' : MotorsBus) :
  (write_calibration calibration_dict b = (Ok (), b') →
   calibration b' = calibration_dict)
  ∧ write_calibration [] b = (Ok (), with_calibration [] b).
Proof.
  split; [|reflexivity].
  unfold write_calibration. unfold_M.
  destruct (write_calibration_loop calibration_dict b) as [[[]|e] b1]; [|discriminate].
  intros [= <-]. reflexivity.
Qed.

(** C10. [set_half_turn_homings] raises [TypeError] on every list, and
    leaves the bus as it was; [reset_calibration], [disable_torque],
    [enable_torque] and [record_ranges_of_motion] run on the list they are
    given. *)
Theorem C10_half_turn_homings_rejects_lists (b : MotorsBus) (l : list NameOrID) :
  set_half_turn_homings (MotorsList l) b = (Raise TypeError, b)
  ∧ reset_calibration (MotorsList l) b = reset_calibration_loop l b
  ∧ disable_torque (MotorsList l) b = _disable_torque l b
  ∧ enable_torque (MotorsList l) b = _enable_torque l b
  ∧ (∀ fuel enter_pressed display_values,
       record_ranges_of_motion fuel enter_pressed (MotorsList l) display_values b
       = (start_positions ← sync_read "Present_Position" (MotorsList l) false 0;
          record_ranges_loop fuel enter_pressed 0 l display_values
            start_positions start_positions) b).
Proof. split_and!; reflexivity. Qed.
End calibration.

(** The premise of C9 on the two-motor bus: a dictionary with one entry,
    whose id is not the id of that motor, is written and adopted. *)
Lemma C9_write_calibration_adopts_witness :
  let b := Fixture.arm (Fixture.wire true (Fixture.always (0, 0)) 0) in
  let d := [("gripper", Fixture.full_range 9)] in
  (write_calibration d b).1 = Ok ()
  ∧ Dict.keys d ≠ Dict.keys (motors b)
  ∧ calibration (write_calibration d b).2 = d.
Proof.
  intros b d.
  split; [vm_compute; reflexivity|].
  split; [vm_compute; discriminate|].
  apply (C9_write_calibration_adopts d b (write_calibration d b).2).
  vm_compute. reflexivity.
Defined.

(** ** The values of a group write *)

Section dict_comp_facts.
Context {K V A : Type} `{EqDecision K}.

(** What a comprehension with a constant value holds under each key. *)
Lemma dict_get_foldl_const (key : A → K) (v : V) (xs : list A) (d : dict K V) (k : K) :
  Dict.get k (foldl (λ d x, Dict.set (key x) v d) d xs)
  = if decide (k ∈ key <$> xs) then Some v else Dict.get k d.
Proof.
  revert d. induction xs as [|x xs IH]; intros d.
  - cbn [foldl]. case_decide as Hin; [by apply elem_of_nil in Hin | done].
  - cbn [foldl]. rewrite IH, fmap_cons.
    destruct (decide (k ∈ key <$> xs)) as [Hin|Hnin].
    + rewrite decide_True; [done | by apply list_elem_of_further].
    + destruct (decide (key x = k)) as [<-|Hne].
      * rewrite dict_get_set_eq. rewrite decide_True; [done | apply list_elem_of_here].
      * rewrite dict_get_set_ne by done.
        rewrite decide_False; [done|]. intros [?|?]%elem_of_cons; congruence.
Qed.

Lemma dict_get_comp_const (key : A → K) (v : V) (xs : list A) (k : K) :
  Dict.get k (Dict.comp key (λ _, v) xs) = if decide (k ∈ key <$> xs) then Some v else None.
Proof. unfold Dict.comp. by rewrite dict_get_foldl_const. Qed.
End dict_comp_facts.

Section group_write_values.
Context {F : Type} `{PyFloat F} `{Overrides F}.

Lemma ids_values_of_distinct (b : MotorsBus) (d : list (NameOrID * Value F))
    (resolved : list Z) (acc : dict Z (Value F)) :
  Forall2 (λ item id_, _get_motor_id item.1 b = (Ok id_, b)) d resolved →
  NoDup (Dict.keys acc ++ resolved) →
  ids_values_of d acc b = (Ok (acc ++ zip resolved d.*2), b).
Proof.
  intros Hres. revert acc.
  induction Hres as [|[motor val] id_ d resolved Hid Hres IH]; intros acc Hnd.
  - simpl. unfold_M. by rewrite app_nil_r.
  - cbn [ids_values_of]. unfold mbind, M_bind. simpl in Hid. rewrite Hid.
    rewrite dict_set_fresh.
    + rewrite IH.
      * simpl. by rewrite <- app_assoc.
      * unfold Dict.keys in *. rewrite fmap_app. simpl. by rewrite <- app_assoc.
    + apply NoDup_app in Hnd as (_ & Hdisj & _). intros Hin.
      apply (Hdisj _ Hin). apply list_elem_of_here.
Qed.

(** C6 (what the code does).  On a connected bus, [sync_write] with
    - a scalar [float] raises [TypeError] and leaves the bus as it was;
    - a scalar [int] [n] goes on with the map that gives [n] to every id of
      the bus and has no other key;
    - a mapping whose keys name or identify pairwise different motors goes
      on with the map that gives each value to the id of its key. *)
Theorem C6_sync_write_values (b : MotorsBus) (data_name : string) (normalize : bool)
    (num_retry : Z) :
  is_connected b = true →
  (∀ x : F,
     sync_write data_name (OneValue (VFloat x)) normalize num_retry b
     = (Raise TypeError, b))
  ∧ (∀ n : Z,
       let ids_values := Dict.comp (λ id_, id_) (λ _, VInt n) (ids b) in
       sync_write data_name (OneValue (VInt n)) normalize num_retry b
       = sync_write_ids_values data_name ids_values normalize num_retry b
       ∧ ∀ id_, Dict.get id_ ids_values = if decide (id_ ∈ ids b) then Some (VInt n) else None)
  ∧ (∀ (d : dict NameOrID (Value F)) (resolved : list Z),
       Forall2 (λ item id_, _get_motor_id item.1 b = (Ok id_, b)) d resolved →
       NoDup resolved →
       sync_write data_name (PerMotor d) normalize num_retry b
       = sync_write_ids_values data_name (zip resolved d.*2) normalize num_retry b).
Proof.
  intros Hon. split_and!.
  - intros x. unfold sync_write. unfold_M. by rewrite Hon.
  - intros n ids_values. split.
    + unfold sync_write. unfold_M. by rewrite Hon.
    + intros id_. unfold ids_values. rewrite dict_get_comp_const.
      by rewrite list_fmap_id.
  - intros d resolved Hres Hnd. unfold sync_write. unfold mbind at 1. unfold M_bind at 1.
    unfold gets at 1. rewrite Hon. cbn [negb].
    unfold mbind, M_bind, ids_values_for.
    by rewrite (ids_values_of_distinct b d resolved []).
Qed.
End group_write_values.

(** The premise of C6 on the two-motor bus: a scalar [50.0] is refused before
    anything is transmitted, a scalar [50] reaches both motors. *)
Lemma C6_sync_write_values_witness :
  let b := Fixture.arm (Fixture.wire true (Fixture.always (0, 0)) 0) in
  is_connected b = true
  ∧ sync_write "Goal_Position" (OneValue (VFloat (Binary64.of_int 50))) true 0 b
    = (Raise TypeError, b)
  ∧ sent (transport (sync_write "Goal_Position" (OneValue (VInt 50)) true 0 b).2)
    = [SyncWritePacket 42 2 [(1, [255; 11]); (6, [255; 7])]].
Proof.
  intros b.
  destruct (C6_sync_write_values b "Goal_Position" true 0 eq_refl) as (Hfloat & _ & _).
  split; [reflexivity|].
  split; [apply Hfloat | vm_compute; reflexivity].
Defined.

(** ** Lookups on a well-formed bus *)

Lemma init_derived_dicts_ok (c : MotorsBusClass) (t : Transport) (port : string)
    (ms : dict string Motor) (calibration : option (dict string MotorCalibration)) :
  derived_dicts_ok (__init__ c t port ms calibration).
Proof. split; reflexivity. Qed.

Lemma lookups_of_motor (b : MotorsBus) (name : string) (motor : Motor) :
  valid_bus b → (name, motor) ∈ motors b →
  Dict.get (m_id motor) (_id_to_name_dict b) = Some name
  ∧ Dict.get (m_id motor) (_id_to_model_dict b) = Some (m_model motor)
  ∧ Dict.get name (motors b) = Some motor.
Proof.
  intros (Hwf & Hnd & Hmodel & Hname) Hin.
  unfold ids in Hnd. split_and!.
  - rewrite Hname, dict_comp_NoDup by (by rewrite <- ids_of_motors).
    apply dict_get_elem.
    + unfold Dict.wf, Dict.keys. rewrite <- list_fmap_compose.
      by rewrite <- ids_of_motors.
    + apply list_elem_of_fmap. by exists (name, motor).
  - rewrite Hmodel, dict_comp_NoDup by done.
    apply dict_get_elem.
    + unfold Dict.wf, Dict.keys. by rewrite <- list_fmap_compose.
    + apply list_elem_of_fmap. exists motor. split; [done|].
      unfold Dict.values. apply list_elem_of_fmap. by exists (name, motor).
  - by apply dict_get_elem.
Qed.

(** ** Normalization: the loops *)

Section normalization_loops.
Context {F : Type} `{PyFloat F}.

(** The loops go through their input from left to right. *)
Lemma _normalize_loop_app (b : MotorsBus) (pre rest : list (Z * Z)) (acc : dict Z (Value F)) :
  _normalize_loop b (pre ++ rest) acc
  = acc' ← _normalize_loop b pre acc; _normalize_loop b rest acc'.
Proof.
  unfold mbind, Result_bind.
  revert acc. induction pre as [|[id_ val] pre IH]; intros acc; [done|].
  cbn [app _normalize_loop]. unfold mbind, Result_bind.
  destruct (subscript ID (_id_to_name_dict b) id_) as [name|e]; [|done].
  destruct (subscript Name (calibration b) name) as [cal|e]; [|done].
  destruct (subscript Name (motors b) name) as [motor|e]; [|done].
  cbn beta iota zeta.
  destruct (norm_mode motor); try done.
  - destruct (Py.truediv_int _ _) as [q|e]; [apply IH | done].
  - destruct (Py.truediv_int _ _) as [q|e]; [apply IH | done].
Qed.

Lemma _unnormalize_loop_app (b : MotorsBus) (pre rest : list (Z * Value F)) (acc : dict Z Z) :
  _unnormalize_loop b (pre ++ rest) acc
  = acc' ← _unnormalize_loop b pre acc; _unnormalize_loop b rest acc'.
Proof.
  unfold mbind, Result_bind.
  revert acc. induction pre as [|[id_ val] pre IH]; intros acc; [done|].
  cbn [app _unnormalize_loop]. unfold mbind, Result_bind.
  destruct (subscript ID (_id_to_name_dict b) id_) as [name|e]; [|done].
  destruct (subscript Name (calibration b) name) as [cal|e]; [|done].
  destruct (subscript Name (motors b) name) as [motor|e]; [|done].
  cbn beta iota zeta.
  destruct (norm_mode motor); try done.
  - destruct (Py.truediv_int _ _) as [q|e]; [|done].
    destruct (Py.int _) as [n|e]; [apply IH | done].
  - destruct (Py.truediv_int _ _) as [q|e]; [|done].
    destruct (Py.int _) as [n|e]; [apply IH | done].
Qed.

(** At an entry of a motor in an unsupported mode, the loop raises: the
    [KeyError] of a missing calibration, or else [NotImplementedError]. *)
Lemma _normalize_loop_unsupported_here (b : MotorsBus) id_ val rest acc name motor :
  Dict.get id_ (_id_to_name_dict b) = Some name →
  Dict.get name (motors b) = Some motor →
  unsupported (norm_mode motor) →
  _normalize_loop b ((id_, val) :: rest) acc
  = match Dict.get name (calibration b) with
    | Some _ => Raise NotImplementedError
    | None => Raise (KeyError (Name name))
    end.
Proof.
  intros Hname Hmotor Hmode. cbn [_normalize_loop]. unfold mbind, Result_bind, subscript.
  rewrite Hname. destruct (Dict.get name (calibration b)); [|done].
  rewrite Hmotor. by destruct Hmode as [-> | ->].
Qed.

Lemma _unnormalize_loop_unsupported_here (b : MotorsBus) id_ (val : Value F) rest acc
    name motor :
  Dict.get id_ (_id_to_name_dict b) = Some name →
  Dict.get name (motors b) = Some motor →
  unsupported (norm_mode motor) →
  _unnormalize_loop b ((id_, val) :: rest) acc
  = match Dict.get name (calibration b) with
    | Some _ => Raise NotImplementedError
    | None => Raise (KeyError (Name name))
    end.
Proof.
  intros Hname Hmotor Hmode. cbn [_unnormalize_loop]. unfold mbind, Result_bind, subscript.
  rewrite Hname. destruct (Dict.get name (calibration b)); [|done].
  rewrite Hmotor. by destruct Hmode as [-> | ->].
Qed.

(** An input that involves such a motor is never normalized. *)
Lemma _normalize_loop_unsupported (b : MotorsBus) items acc id_ name motor :
  Dict.get id_ (_id_to_name_dict b) = Some name →
  Dict.get name (motors b) = Some motor →
  unsupported (norm_mode motor) →
  id_ ∈ Dict.keys items →
  ∃ e, _normalize_loop b items acc = Raise e.
Proof.
  intros Hname Hmotor Hmode Hin.
  apply list_elem_of_fmap in Hin as ([id' val] & -> & Hin).
  apply list_elem_of_split in Hin as (pre & post & ->).
  rewrite _normalize_loop_app. unfold mbind, Result_bind.
  destruct (_normalize_loop b pre acc) as [acc'|e]; [|by exists e].
  rewrite (_normalize_loop_unsupported_here b _ _ _ _ name motor) by done.
  destruct (Dict.get name (calibration b)); eauto.
Qed.

Lemma _unnormalize_loop_unsupported (b : MotorsBus) (items : list (Z * Value F)) acc
    id_ name motor :
  Dict.get id_ (_id_to_name_dict b) = Some name →
  Dict.get name (motors b) = Some motor →
  unsupported (norm_mode motor) →
  id_ ∈ Dict.keys items →
  ∃ e, _unnormalize_loop b items acc = Raise e.
Proof.
  intros Hname Hmotor Hmode Hin.
  apply list_elem_of_fmap in Hin as ([id' val] & -> & Hin).
  apply list_elem_of_split in Hin as (pre & post & ->).
  rewrite _unnormalize_loop_app. unfold mbind, Result_bind.
  destruct (_unnormalize_loop b pre acc) as [acc'|e]; [|by exists e].
  rewrite (_unnormalize_loop_unsupported_here b _ _ _ _ name motor) by done.
  destruct (Dict.get name (calibration b)); eauto.
Qed.

(** C7 (as the code has it).  On a bus without a repeated id, take a motor
    whose norm mode is [DEGREE] or [VELOCITY].  [_normalize] and
    [_unnormalize] return no value on an input that involves it: they raise
    and leave the bus as it was.  The exception is [NotImplementedError] when
    the motor has a calibration entry and the entries before it were
    normalized; without a calibration entry it is the [KeyError] of
    [self.calibration[name]], which the loop evaluates first. *)
Theorem C7_unsupported_modes_raise (b : MotorsBus) (data_name name : string) (motor : Motor) :
  valid_bus b → (name, motor) ∈ motors b → unsupported (norm_mode motor) →
  (∀ ids_values, m_id motor ∈ Dict.keys ids_values →
     ∃ e, _normalize data_name ids_values b = (Raise e, b))
  ∧ (∀ ids_values : dict Z (Value F), m_id motor ∈ Dict.keys ids_values →
       ∃ e, _unnormalize data_name ids_values b = (Raise e, b))
  ∧ (∀ pre val post acc,
       _normalize_loop b pre [] = Ok acc →
       _normalize data_name (pre ++ (m_id motor, val) :: post) b
       = (if decide (name ∈ Dict.keys (calibration b)) then Raise NotImplementedError
          else Raise (KeyError (Name name)), b))
  ∧ (∀ pre (val : Value F) post acc,
       _unnormalize_loop b pre [] = Ok acc →
       _unnormalize data_name (pre ++ (m_id motor, val) :: post) b
       = (if decide (name ∈ Dict.keys (calibration b)) then Raise NotImplementedError
          else Raise (KeyError (Name name)), b)).
Proof.
  intros Hvalid Hin Hmode.
  destruct (lookups_of_motor b name motor Hvalid Hin) as (Hname & _ & Hmotor).
  assert (∀ A (x y : A),
            match Dict.get name (calibration b) with Some _ => x | None => y end
            = if decide (name ∈ Dict.keys (calibration b)) then x else y) as Hcal.
  { intros A x y. destruct (decide (name ∈ Dict.keys (calibration b))) as [Hk|Hk].
    - destruct (Dict.get name (calibration b)) eqn:Hget; [done|].
      by apply dict_get_None in Hget.
    - apply dict_get_None in Hk. by rewrite Hk. }
  split_and!.
  - intros ids_values Hkey. unfold _normalize.
    destruct (_normalize_loop_unsupported b ids_values [] _ name motor Hname Hmotor Hmode Hkey)
      as [e ->].
    by exists e.
  - intros ids_values Hkey. unfold _unnormalize.
    destruct (_unnormalize_loop_unsupported b ids_values [] _ name motor Hname Hmotor Hmode Hkey)
      as [e ->].
    by exists e.
  - intros pre val post acc Hpre. unfold _normalize.
    rewrite _normalize_loop_app, Hpre. unfold mbind, Result_bind.
    rewrite (_normalize_loop_unsupported_here b _ _ _ _ name motor) by done.
    by rewrite Hcal.
  - intros pre val post acc Hpre. unfold _unnormalize.
    rewrite _unnormalize_loop_app, Hpre. unfold mbind, Result_bind.
    rewrite (_unnormalize_loop_unsupported_here b _ _ _ _ name motor) by done.
    by rewrite Hcal.
Qed.
End normalization_loops.

(** Every bus of the fixture that names each id once is well formed. *)
Lemma valid_uncalibrated (mode : MotorNormMode) (t : Transport) :
  valid_bus (Fixture.uncalibrated mode t).
Proof.
  split_and!; [| |apply init_derived_dicts_ok];
    (apply NoDup_cons; split; [apply not_elem_of_nil | apply NoDup_nil_2]).
Qed.

Lemma valid_gripper (mode : MotorNormMode) (t : Transport) :
  valid_bus (Fixture.gripper mode t).
Proof.
  split_and!; [| |apply init_derived_dicts_ok];
    (apply NoDup_cons; split; [apply not_elem_of_nil | apply NoDup_nil_2]).
Qed.

(** C7 as stated fails: the gripper in [DEGREE] mode on a bus that was given
    no calibration makes [_normalize] and [_unnormalize] raise [KeyError],
    not [NotImplementedError]. *)
Lemma C7_counterexample :
  let b := Fixture.uncalibrated DEGREE (Fixture.wire true (Fixture.always (0, 0)) 0) in
  Dict.get "gripper" (motors b)
  = Some {| m_id := 6; m_model := "sts3215"; norm_mode := DEGREE |}
  ∧ (_normalize (F := float) "Present_Position" [(6, 2048)] b).1
    = Raise (KeyError (Name "gripper"))
  ∧ (_unnormalize (F := float) "Goal_Position" [(6, VInt 50)] b).1
    = Raise (KeyError (Name "gripper"))
  ∧ ¬ ((_normalize (F := float) "Present_Position" [(6, 2048)] b).1
       = Raise NotImplementedError).
Proof.
  intros b. split_and!; [reflexivity | reflexivity | reflexivity |].
  intros Heq. vm_compute in Heq. discriminate Heq.
Defined.

(** The premises of C7 on the calibrated gripper in [VELOCITY] mode. *)
Lemma C7_unsupported_modes_raise_witness :
  let b := Fixture.gripper VELOCITY (Fixture.wire true (Fixture.always (0, 0)) 0) in
  _normalize (F := float) "Present_Position" [(6, 2048)] b = (Raise NotImplementedError, b)
  ∧ _unnormalize (F := float) "Goal_Position" [(6, VInt 50)] b
    = (Raise NotImplementedError, b).
Proof.
  intros b.
  destruct (C7_unsupported_modes_raise (F := float) b "Present_Position" "gripper"
              {| m_id := 6; m_model := "sts3215"; norm_mode := VELOCITY |}
              (valid_gripper VELOCITY _))
    as (_ & _ & Hn & Hu).
  - apply list_elem_of_here.
  - right. reflexivity.
  - split.
    + exact (Hn [] 2048 [] [] eq_refl).
    + destruct (C7_unsupported_modes_raise (F := float) b "Goal_Position" "gripper"
                  {| m_id := 6; m_model := "sts3215"; norm_mode := VELOCITY |}
                  (valid_gripper VELOCITY _)) as (_ & _ & _ & Hu').
      * apply list_elem_of_here.
      * right. reflexivity.
      * exact (Hu' [] (VInt 50) [] [] eq_refl).
Defined.

(** ** Normalization: clamp, then map *)

Lemma clamp_bounds (min_ max_ val : Z) :
  min_ ≤ max_ → min_ ≤ clamp min_ max_ val ≤ max_.
Proof. unfold clamp. lia. Qed.

Lemma clamp_idempotent (min_ max_ val : Z) :
  min_ ≤ max_ → clamp min_ max_ (clamp min_ max_ val) = clamp min_ max_ val.
Proof. unfold clamp. lia. Qed.


Section normalize_spec.
Context {F : Type} `{PyFloat F}.

Lemma motor_of_id_Some (b : MotorsBus) (id_ : Z) motor cal :
  motor_of_id b id_ = Some (motor, cal) →
  ∃ name, subscript ID (_id_to_name_dict b) id_ = Ok name
          ∧ subscript Name (calibration b) name = Ok cal
          ∧ subscript Name (motors b) name = Ok motor.
Proof.
  unfold motor_of_id, subscript. intros Hm.
  destruct (Dict.get id_ (_id_to_name_dict b)) as [name|]; [|done]. simpl in Hm.
  destruct (Dict.get name (calibration b)) as [cal'|] eqn:Hcal; [|done]. simpl in Hm.
  destruct (Dict.get name (motors b)) as [motor'|] eqn:Hmotor; [|done]. simpl in Hm.
  injection Hm as <- <-. exists name. by rewrite Hcal, Hmotor.
Qed.

Lemma _normalize_loop_spec (b : MotorsBus) (items : list (Z * Z))
    (out acc : dict Z (Value F)) :
  Forall2 (normalizes_to b) items out →
  NoDup (Dict.keys acc ++ Dict.keys items) →
  _normalize_loop b items acc = Ok (acc ++ out).
Proof.
  intros Hall. revert acc.
  induction Hall as [|[id_ val] [id' v] items out Hitem Hall IH]; intros acc Hnd.
  - simpl. by rewrite app_nil_r.
  - destruct Hitem as (Hid & motor & cal & Hm & Hrange & Hspec). simpl in Hid, Hm, Hspec.
    subst id'.
    apply motor_of_id_Some in Hm as (name & Hname & Hcal & Hmotor).
    cbn [_normalize_loop]. unfold mbind, Result_bind.
    rewrite Hname, Hcal, Hmotor. cbn beta iota zeta.
    assert (id_ ∉ Dict.keys acc) as Hfresh.
    { apply NoDup_app in Hnd as (_ & Hdisj & _). intros Hin.
      apply (Hdisj _ Hin). apply list_elem_of_here. }
    assert (NoDup (Dict.keys (acc ++ [(id_, v)]) ++ Dict.keys items)) as Hnd'.
    { unfold Dict.keys in *. rewrite fmap_app. simpl. rewrite <- app_assoc. exact Hnd. }
    unfold spec_normalize in Hspec. unfold Py.truediv_int.
    rewrite decide_False by lia.
    destruct (norm_mode motor); try discriminate; injection Hspec as <-;
      unfold clamp; cbn [Py.mul_int Py.sub_int];
      rewrite dict_set_fresh by done; rewrite IH by done; by rewrite <- app_assoc.
Qed.

(** [_normalize] returns, entry by entry, what the specification says. *)
Lemma _normalize_spec (b : MotorsBus) (data_name : string) (ids_values : dict Z Z)
    (out : dict Z (Value F)) :
  Dict.wf ids_values →
  Forall2 (normalizes_to b) ids_values out →
  _normalize data_name ids_values b = (Ok out, b).
Proof.
  intros Hwf Hall. unfold _normalize.
  by rewrite (_normalize_loop_spec b ids_values out []).
Qed.

(** A value is clamped before it is mapped. *)
Lemma spec_normalize_clamp (mode : MotorNormMode) (min_ max_ val : Z) :
  min_ ≤ max_ →
  spec_normalize (F := F) mode min_ max_ (clamp min_ max_ val)
  = spec_normalize mode min_ max_ val.
Proof. intros Hle. unfold spec_normalize. by rewrite clamp_idempotent. Qed.
End normalize_spec.

(** The gripper of the fixture, calibrated over [0, 4095]: whatever
    [spec_normalize] gives for a raw value is what [_normalize] returns. *)
Lemma gripper_normalize (mode : MotorNormMode) (t : Transport) (data_name : string)
    (val : Z) (x : Value float) :
  spec_normalize mode 0 4095 val = Some x →
  _normalize data_name [(6, val)] (Fixture.gripper mode t)
  = (Ok [(6, x)], Fixture.gripper mode t).
Proof.
  intros Hspec. apply _normalize_spec.
  - apply NoDup_cons. split; [apply not_elem_of_nil | apply NoDup_nil_2].
  - constructor; [|constructor]. split; [reflexivity|].
    exists {| m_id := 6; m_model := "sts3215"; norm_mode := mode |}, (Fixture.full_range 6).
    split_and!; [reflexivity | simpl; lia | exact Hspec].
Qed.

(** C4.  For motors calibrated with [range_min < range_max] in one of the two
    range modes, [_normalize] returns for each entry the value of
    [spec_normalize]: the raw value clamped into [[range_min, range_max]],
    then mapped by [((clamped - min) / (max - min)) * 200 - 100] or
    [((clamped - min) / (max - min)) * 100].  This holds for any float
    arithmetic.  In binary64, with the range [0, 4095] and the mode
    [RANGE_M100_100]: 0 gives -100, 4095 gives 100, 2048 gives a value
    between 0 and 1/40 whose integer part is 0, and a raw value below 0 or
    above 4095 gives what 0 or 4095 gives. *)
Theorem C4_normalize_clamps_then_maps :
  (∀ (F : Type) (HF : PyFloat F) (b : MotorsBus) (data_name : string)
     (ids_values : dict Z Z) (out : dict Z (Value F)),
     Dict.wf ids_values →
     Forall2 (normalizes_to b) ids_values out →
     _normalize data_name ids_values b = (Ok out, b))
  ∧ (∀ (F : Type) (HF : PyFloat F) (mode : MotorNormMode) (min_ max_ val : Z),
       min_ < max_ →
       min_ ≤ clamp min_ max_ val ≤ max_
       ∧ spec_normalize (F := F) mode min_ max_ val
         = spec_normalize mode min_ max_ (clamp min_ max_ val))
  ∧ (∀ (t : Transport),
       let b := Fixture.gripper RANGE_M100_100 t in
       _normalize "Present_Position" [(6, 0)] b = (Ok [(6, VFloat (Binary64.of_int (-100)))], b)
       ∧ _normalize "Present_Position" [(6, 4095)] b
         = (Ok [(6, VFloat (Binary64.of_int 100))], b)
       ∧ (∃ x : float,
            _normalize "Present_Position" [(6, 2048)] b = (Ok [(6, VFloat x)], b)
            ∧ PrimFloat.ltb (Binary64.of_int 0) x = true
            ∧ PrimFloat.ltb x (Binary64.true_div 1 40) = true
            ∧ Binary64.to_int x = Ok 0)
       ∧ (∀ val, val < 0 →
            _normalize (F := float) "Present_Position" [(6, val)] b
            = _normalize "Present_Position" [(6, 0)] b)
       ∧ (∀ val, 4095 < val →
            _normalize (F := float) "Present_Position" [(6, val)] b
            = _normalize "Present_Position" [(6, 4095)] b)).
Proof.
  split_and!.
  - intros F HF b data_name ids_values out. apply _normalize_spec.
  - intros F HF mode min_ max_ val Hlt. split.
    + apply clamp_bounds. lia.
    + symmetry. apply spec_normalize_clamp. lia.
  - intros t b. subst b. split_and!.
    + apply gripper_normalize. vm_compute. reflexivity.
    + apply gripper_normalize. vm_compute. reflexivity.
    + eexists. split_and!.
      * apply gripper_normalize. vm_compute. reflexivity.
      * vm_compute. reflexivity.
      * vm_compute. reflexivity.
      * vm_compute. reflexivity.
    + intros val Hval.
      rewrite (gripper_normalize _ t _ 0 (VFloat (Binary64.of_int (-100))))
        by (vm_compute; reflexivity).
      apply gripper_normalize. unfold spec_normalize.
      replace (clamp 0 4095 val) with 0 by (unfold clamp; lia).
      vm_compute. reflexivity.
    + intros val Hval.
      rewrite (gripper_normalize _ t _ 4095 (VFloat (Binary64.of_int 100)))
        by (vm_compute; reflexivity).
      apply gripper_normalize. unfold spec_normalize.
      replace (clamp 0 4095 val) with 4095 by (unfold clamp; lia).
      vm_compute. reflexivity.
Qed.

(** The premises of the first part of C4 on the two-motor bus: both motors
    are calibrated over [0, 4095], one in each range mode, and the raw values
    5000 and 1024 come back as 100 and about 25. *)
Lemma C4_normalize_clamps_then_maps_witness :
  let b := Fixture.arm (Fixture.wire true (Fixture.always (0, 0)) 0) in
  ∃ x : float,
    _normalize "Present_Position" [(1, 5000); (6, 1024)] b
    = (Ok [(1, VFloat (Binary64.of_int 100)); (6, VFloat x)], b)
    ∧ PrimFloat.ltb (Binary64.of_int 25) x = true
    ∧ PrimFloat.ltb x (Binary64.of_int 26) = true.
Proof.
  intros b.
  destruct C4_normalize_clamps_then_maps as (Hgeneral & _ & _).
  eexists. split_and!.
  - apply (Hgeneral float Binary64.binary64 b "Present_Position").
    + apply NoDup_cons. split.
      * intros Hin. apply list_elem_of_singleton in Hin. discriminate Hin.
      * apply NoDup_cons. split; [apply not_elem_of_nil | apply NoDup_nil_2].
    + constructor; [|constructor; [|constructor]].
      * split; [reflexivity|].
        exists {| m_id := 1; m_model := "sts3215"; norm_mode := RANGE_M100_100 |},
               (Fixture.full_range 1).
        split_and!; [reflexivity | simpl; lia | vm_compute; reflexivity].
      * split; [reflexivity|].
        exists {| m_id := 6; m_model := "sts3215"; norm_mode := RANGE_0_100 |},
               (Fixture.full_range 6).
        split_and!; [reflexivity | simpl; lia | vm_compute; reflexivity].
  - vm_compute. reflexivity.
  - vm_compute. reflexivity.
Defined.

(** ** Unnormalization: clamp, map back, truncate *)

Section unnormalize_spec.
Context {F : Type} `{PyFloat F}.


End unnormalize_spec.

(** ** The round trip in exact arithmetic *)






(** ** The round trip in binary64 *)







(** ** Retries *)

Lemma after_sending_nil (b : MotorsBus) : after_sending [] b = b.
Proof. destruct b as [? ? ? ? ? ? ? ? []]. unfold after_sending. simpl. by rewrite app_nil_r. Qed.

Lemma after_sending_app (l1 l2 : list Packet) (b : MotorsBus) :
  after_sending l2 (after_sending l1 b) = after_sending (l1 ++ l2) b.
Proof. unfold after_sending. simpl. by rewrite app_assoc. Qed.

Lemma attempts_made_all_fail (ok : nat → bool) (n k0 : nat) :
  (∀ i, (i < n)%nat → ok (k0 + i)%nat = false) → attempts_made ok n k0 = n.
Proof.
  revert k0. induction n as [|n IH]; intros k0 Hfail; [done|].
  simpl. rewrite <- (Nat.add_0_r k0) at 1. rewrite Hfail by lia.
  f_equal. apply IH. intros i Hi.
  replace (S k0 + i)%nat with (k0 + S i)%nat by lia. apply Hfail. lia.
Qed.

Lemma attempts_made_first_success (ok : nat → bool) (n k0 j : nat) :
  (j < n)%nat → (∀ i, (i < j)%nat → ok (k0 + i)%nat = false) → ok (k0 + j)%nat = true →
  attempts_made ok n k0 = S j.
Proof.
  revert k0 j. induction n as [|n IH]; intros k0 j Hj Hfail Hok; [lia|].
  simpl. destruct j as [|j].
  - rewrite Nat.add_0_r in Hok. by rewrite Hok.
  - rewrite <- (Nat.add_0_r k0) at 1. rewrite Hfail by lia.
    f_equal. apply IH; [lia | |].
    + intros i Hi. replace (S k0 + i)%nat with (k0 + S i)%nat by lia. apply Hfail. lia.
    + by replace (S k0 + j)%nat with (k0 + S j)%nat by lia.
Qed.

Section retries.
Context {F : Type} `{PyFloat F} `{Overrides F}.

Lemma retry_loop_run {R : Type} (attempt : M R) (comm_of : R → Z) (res : Z * Z → R)
    (p : Packet) (b0 : MotorsBus) :
  (∀ extra, attempt (after_sending extra b0)
            = (Ok (res (reply (transport b0) (length (sent (transport b0) ++ extra)))),
               after_sending (extra ++ [p]) b0)) →
  (∀ a, comm_of (res a) = a.1) →
  ∀ n extra last,
    retry_loop n attempt comm_of last (after_sending extra b0)
    = (Ok (match attempts_made (comm_ok b0) n (length (sent (transport b0) ++ extra)) with
           | O => last
           | S m => Some (res (reply (transport b0)
                                 (length (sent (transport b0) ++ extra) + m)))
           end),
       after_sending
         (extra ++ replicate (attempts_made (comm_ok b0) n
                                (length (sent (transport b0) ++ extra))) p) b0).
Proof.
  intros Hatt Hcomm n. induction n as [|n IH]; intros extra last.
  - simpl. unfold_M. by rewrite app_nil_r.
  - cbn [retry_loop attempts_made]. unfold mbind, M_bind. rewrite Hatt.
    unfold _is_comm_success, gets. rewrite Hcomm.
    change (bool_decide _) with (comm_ok b0 (length (sent (transport b0) ++ extra))).
    destruct (comm_ok b0 (length (sent (transport b0) ++ extra))) eqn:Hok.
    + unfold mret, M_ret. simpl. by rewrite Nat.add_0_r.
    + rewrite IH. rewrite !length_app. simpl.
      replace (length (sent (transport b0)) + (length extra + 1))%nat
        with (S (length (sent (transport b0)) + length extra)) by lia.
      rewrite <- app_assoc. simpl. f_equal.
      destruct (attempts_made _ n _) as [|m]; [by rewrite Nat.add_0_r|].
      by rewrite Nat.add_succ_r.
Qed.

Lemma retry_loop_from {R : Type} (attempt : M R) (comm_of : R → Z) (res : Z * Z → R)
    (p : Packet) (b : MotorsBus) (n : nat) (last : option R) :
  (∀ extra, attempt (after_sending extra b)
            = (Ok (res (reply (transport b) (length (sent (transport b) ++ extra)))),
               after_sending (extra ++ [p]) b)) →
  (∀ a, comm_of (res a) = a.1) →
  retry_loop n attempt comm_of last b
  = (Ok (match attempts_made (comm_ok b) n (length (sent (transport b))) with
         | O => last
         | S m => Some (res (reply (transport b) (length (sent (transport b)) + m)))
         end),
     after_sending (replicate (attempts_made (comm_ok b) n (length (sent (transport b)))) p) b).
Proof.
  intros Hatt Hcomm.
  pose proof (retry_loop_run attempt comm_of res p b Hatt Hcomm n [] last) as Hrun.
  rewrite after_sending_nil, app_nil_r in Hrun. exact Hrun.
Qed.

Lemma bind_Ok {A B : Type} (m : M A) (f : A → M B) (b b' : MotorsBus) (a : A) :
  m b = (Ok a, b') → (m ≫= f) b = f a b'.
Proof. intros Hm. unfold mbind, M_bind. by rewrite Hm. Qed.

Lemma bind_Raise {A B : Type} (m : M A) (f : A → M B) (b b' : MotorsBus) (e : Exn) :
  m b = (Raise e, b') → (m ≫= f) b = (Raise e, b').
Proof. intros Hm. unfold mbind, M_bind. by rewrite Hm. Qed.

Lemma writeTxRx_after (b : MotorsBus) (motor_id addr n_bytes : Z) (data : list Z)
    (extra : list Packet) :
  writeTxRx motor_id addr n_bytes data (after_sending extra b)
  = (Ok (reply (transport b) (length (sent (transport b) ++ extra))),
     after_sending (extra ++ [WritePacket motor_id addr n_bytes data]) b).
Proof. unfold writeTxRx, transmit, after_sending. simpl. by rewrite app_assoc. Qed.

Lemma tries_pos (num_retry : Z) : 0 ≤ num_retry → tries num_retry = S (Z.to_nat num_retry).
Proof. intros Hr. unfold tries. rewrite Z2Nat.inj_add by lia. reflexivity. Qed.

(** With a budget of at least one attempt, at least one is made. *)
Lemma attempts_pos (b : MotorsBus) (num_retry : Z) :
  0 ≤ num_retry → ∃ m, attempts b num_retry = S m ∧ (m ≤ Z.to_nat num_retry)%nat.
Proof.
  intros Hr. unfold attempts. rewrite tries_pos by done.
  generalize (length (sent (transport b))). generalize (Z.to_nat num_retry).
  induction n as [|n IH]; intros k0; simpl.
  - destruct (comm_ok b k0); exists 0%nat; split; (done || lia).
  - destruct (comm_ok b k0); [exists 0%nat; split; (done || lia)|].
    destruct (IH (S k0)) as (m & Hm & Hle). simpl in Hm. rewrite Hm.
    exists (S m). split; [done | lia].
Qed.

Lemma _write_run (b : MotorsBus) (data_name : string) (motor_id : Z) (value : Value F)
    (num_retry : Z) (model : string) (addr n_bytes encoded : Z) (data : list Z) :
  0 ≤ num_retry →
  Dict.get motor_id (_id_to_model_dict b) = Some model →
  get_address (model_ctrl_table (cls b)) model data_name = Ok (addr, n_bytes) →
  _encode_value value data_name n_bytes = Ok encoded →
  _split_int_to_bytes encoded n_bytes = Ok data →
  _write data_name motor_id value num_retry b
  = (Ok (reply (transport b)
           (length (sent (transport b)) + pred (attempts b num_retry))),
     after_sending (replicate (attempts b num_retry)
                      (WritePacket motor_id addr n_bytes data)) b).
Proof.
  intros Hr Hmodel Haddr Henc Hsplit. unfold _write.
  erewrite bind_Ok; [|unfold _id_to_model, subscript; by rewrite Hmodel]. cbv beta.
  erewrite bind_Ok; [|reflexivity]. cbv beta.
  erewrite bind_Ok; [|unfold lift; by rewrite Haddr]. cbv beta iota.
  erewrite bind_Ok; [|unfold lift; by rewrite Henc]. cbv beta.
  erewrite bind_Ok; [|unfold lift; by rewrite Hsplit]. cbv beta.
  erewrite bind_Ok;
    [|apply (retry_loop_from _ fst (λ a, a) (WritePacket motor_id addr n_bytes data));
      [apply writeTxRx_after | done]].
  cbv beta. fold (attempts b num_retry).
  destruct (attempts_pos b num_retry Hr) as (m & -> & _). simpl.
  by destruct (reply (transport b) (length (sent (transport b)) + m)).
Qed.

Lemma write_run (b : MotorsBus) (data_name : string) (motor : NameOrID) (value raw : Value F)
    (normalize : bool) (num_retry : Z) (id_ : Z) (model : string)
    (addr n_bytes encoded : Z) (data : list Z) :
  is_connected b = true →
  0 ≤ num_retry →
  _get_motor_id motor b = (Ok id_, b) →
  unnormalized_as b data_name normalize [(id_, value)] [(id_, raw)] →
  Dict.get id_ (_id_to_model_dict b) = Some model →
  get_address (model_ctrl_table (cls b)) model data_name = Ok (addr, n_bytes) →
  _encode_value raw data_name n_bytes = Ok encoded →
  _split_int_to_bytes encoded n_bytes = Ok data →
  write data_name motor value normalize num_retry b
  = (write_outcome b data_name num_retry
       (reply (transport b) (length (sent (transport b)) + pred (attempts b num_retry))),
     after_sending (replicate (attempts b num_retry) (WritePacket id_ addr n_bytes data)) b).
Proof.
  intros Hon Hr Hid Hraw Hmodel Haddr Henc Hsplit. unfold write.
  erewrite bind_Ok; [|reflexivity]. cbv beta. rewrite Hon. cbn [negb].
  erewrite bind_Ok; [|exact Hid]. cbv beta.
  erewrite bind_Ok; [|reflexivity]. cbv beta.
  unfold unnormalized_as in Hraw.
  erewrite (bind_Ok _ _ b b raw).
  - erewrite bind_Ok; [|by eapply _write_run]. cbv beta iota.
    set (answer := reply (transport b) _). destruct answer as [comm error] eqn:Hanswer.
    unfold write_outcome. cbn [fst snd].
    erewrite bind_Ok; [|reflexivity]. cbv beta. cbn [cls after_sending with_transport].
    destruct (bool_decide (comm = _comm_success (cls b))); cbn [negb].
    + erewrite bind_Ok; [|reflexivity]. cbv beta. cbn [cls after_sending with_transport].
      destruct (bool_decide (error ≠ _no_error (cls b))); [|done].
      erewrite bind_Ok; [|reflexivity]. done.
    + erewrite bind_Ok; [|reflexivity]. done.
  - destruct (normalize && bool_decide (data_name ∈ normalization_required (cls b))).
    + destruct Hraw as (ticks & Hun & Hticks).
      erewrite bind_Ok; [|exact Hun]. cbv beta.
      destruct ticks as [|[id' tick] [|]]; try discriminate.
      cbn in Hticks. injection Hticks as -> ->.
      erewrite bind_Ok; [|unfold lift, subscript; cbn [Dict.get]; by rewrite decide_True].
      done.
    + by injection Hraw as ->.
Qed.

Lemma with_cache_same (b : MotorsBus) : with_cache (_has_different_ctrl_tables_cache b) b = b.
Proof. by destruct b. Qed.

Lemma _has_different_ctrl_tables_run (b : MotorsBus) (different : bool) :
  (_has_different_ctrl_tables b).1 = Ok different →
  ∃ c, _has_different_ctrl_tables b = (Ok different, with_cache c b).
Proof.
  unfold _has_different_ctrl_tables.
  destruct (_has_different_ctrl_tables_cache b) as [v|] eqn:Hcache.
  - simpl. intros [= ->]. exists (Some different). by rewrite <- Hcache, with_cache_same.
  - destruct (_has_different_ctrl_tables_body b) as [v|e]; simpl; [|done].
    intros [= ->]. by exists (Some different).
Qed.

Lemma models_of_run (b : MotorsBus) (motor_ids : list Z) (models : list string) :
  Forall2 (λ id_ model, Dict.get id_ (_id_to_model_dict b) = Some model) motor_ids models →
  models_of motor_ids b = (Ok models, b).
Proof.
  induction 1 as [|id_ model motor_ids models Hmodel _ IH]; [done|].
  cbn [models_of].
  erewrite bind_Ok; [|unfold _id_to_model, subscript; by rewrite Hmodel]. cbv beta.
  erewrite bind_Ok; [|exact IH]. done.
Qed.

Lemma same_address_models (b : MotorsBus) (data_name : string) (motor_ids : list Z)
    (addr n_bytes : Z) :
  (∀ id_, id_ ∈ motor_ids →
     ∃ model, Dict.get id_ (_id_to_model_dict b) = Some model
              ∧ get_address (model_ctrl_table (cls b)) model data_name = Ok (addr, n_bytes)) →
  ∃ models,
    Forall2 (λ id_ model, Dict.get id_ (_id_to_model_dict b) = Some model) motor_ids models
    ∧ Forall (λ model, get_address (model_ctrl_table (cls b)) model data_name
                       = Ok (addr, n_bytes)) models.
Proof.
  induction motor_ids as [|id_ motor_ids IH]; intros Hall.
  - exists []. split; constructor.
  - destruct (Hall id_) as (model & Hmodel & Haddr); [apply list_elem_of_here|].
    destruct IH as (models & Hmodels & Haddrs).
    { intros id' Hin. apply Hall. by apply list_elem_of_further. }
    exists (model :: models). split; by constructor.
Qed.

Lemma all_addresses_same (tbl : gmap string (gmap string (Z * Z))) (models : list string)
    (data_name : string) (addr n_bytes : Z) :
  Forall (λ model, get_address tbl model data_name = Ok (addr, n_bytes)) models →
  all_addresses tbl models data_name = Ok (replicate (length models) (addr, n_bytes)).
Proof.
  induction 1 as [|model models Haddr _ IH]; [done|].
  cbn [all_addresses]. unfold mbind, Result_bind. by rewrite Haddr, IH.
Qed.

Lemma size_list_to_set_replicate (n : nat) (x : Z) :
  size (list_to_set (replicate (S n) x) : gset Z) = 1%nat.
Proof.
  induction n as [|n IH].
  - change (replicate 1 x) with [x].
    rewrite list_to_set_cons, list_to_set_nil, union_empty_r_L. apply size_singleton.
  - change (replicate (S (S n)) x) with (x :: replicate (S n) x).
    rewrite list_to_set_cons.
    replace ({[x]} ∪ list_to_set (replicate (S n) x) : gset Z)
      with (list_to_set (replicate (S n) x) : gset Z); [done|].
    change (replicate (S n) x) with (x :: replicate n x). rewrite list_to_set_cons.
    by rewrite (assoc_L (∪)), union_idemp_L.
Qed.

Lemma assert_same_address_ok (tbl : gmap string (gmap string (Z * Z)))
    (models : list string) (data_name : string) (addr n_bytes : Z) :
  models ≠ [] →
  Forall (λ model, get_address tbl model data_name = Ok (addr, n_bytes)) models →
  assert_same_address tbl models data_name = Ok ().
Proof.
  intros Hne Hall. unfold assert_same_address.
  rewrite (all_addresses_same _ _ _ addr n_bytes Hall). unfold mbind, Result_bind.
  destruct models as [|model models]; [done|]. cbn [length].
  rewrite !fmap_replicate. cbn [fst snd].
  rewrite !size_list_to_set_replicate.
  rewrite decide_False by (intros Hneq; by apply Hneq).
  by rewrite decide_False by (intros Hneq; by apply Hneq).
Qed.

(** The cross-model guard lets a group operation pass when every
    participant keeps the parameter at one address. *)
Lemma guard_passes (b : MotorsBus) (data_name : string) (motor_ids : list Z)
    (addr n_bytes : Z) (different : bool) :
  same_address b data_name motor_ids addr n_bytes →
  (if different then
     models ← models_of motor_ids;
     tbl ← gets (λ b, model_ctrl_table (cls b));
     lift (assert_same_address tbl models data_name)
   else mret ()) b = (Ok (), b).
Proof.
  intros [Hne Hall]. destruct different; [|done].
  destruct (same_address_models b data_name motor_ids addr n_bytes Hall)
    as (models & Hmodels & Haddrs).
  erewrite bind_Ok; [|by apply models_of_run]. cbv beta.
  erewrite bind_Ok; [|reflexivity]. cbv beta. unfold lift.
  rewrite (assert_same_address_ok _ _ _ addr n_bytes); [done | | done].
  intros ->. apply Forall2_nil_inv_r in Hmodels. done.
Qed.

Lemma sync_reader_txRxPacket_after (b : MotorsBus) (extra : list Packet) :
  sync_reader_txRxPacket (after_sending extra b)
  = (Ok (reply (transport b) (length (sent (transport b) ++ extra))).1,
     after_sending
       (extra ++ [SyncReadPacket (start_address (sync_reader (transport b)))
                    (data_length (sync_reader (transport b)))
                    (param (sync_reader (transport b)))]) b).
Proof. unfold sync_reader_txRxPacket, transmit, after_sending. simpl. by rewrite app_assoc. Qed.

Lemma sync_writer_txPacket_after (b : MotorsBus) (extra : list Packet) :
  sync_writer_txPacket (after_sending extra b)
  = (Ok (reply (transport b) (length (sent (transport b) ++ extra))).1,
     after_sending
       (extra ++ [SyncWritePacket (start_address (sync_writer (transport b)))
                    (data_length (sync_writer (transport b)))
                    (param (sync_writer (transport b)))]) b).
Proof. unfold sync_writer_txPacket, transmit, after_sending. simpl. by rewrite app_assoc. Qed.

Lemma read_values_run (b : MotorsBus) (data_name : string) (motor_ids : list Z)
    (addr n_bytes : Z) (acc : dict Z Z) :
  decodes data_name n_bytes →
  ∃ values, read_values data_name motor_ids addr n_bytes acc b = (Ok values, b).
Proof.
  intros Hdec. revert acc. induction motor_ids as [|id_ motor_ids IH]; intros acc.
  - by exists acc.
  - cbn [read_values].
    erewrite bind_Ok; [|reflexivity]. cbv beta.
    destruct (Hdec (rx_data (transport b) (length (sent (transport b))) id_ addr n_bytes))
      as [decoded Hdecoded].
    erewrite bind_Ok; [|unfold lift; by rewrite Hdecoded]. cbv beta.
    apply IH.
Qed.

Lemma add_params_run (b : MotorsBus) (addr n_bytes : Z) (encoded : list (Z * Z))
    (before params : list (Z * list Z)) :
  Forall2 (λ e p, p.1 = e.1 ∧ _split_int_to_bytes e.2 n_bytes = Ok p.2) encoded params →
  add_params n_bytes encoded (configured_writer addr n_bytes before b)
  = (Ok (), configured_writer addr n_bytes (before ++ params) b).
Proof.
  intros Hall. revert before.
  induction Hall as [|[id_ value] [id' data] encoded params [Hid Hsplit] _ IH]; intros before.
  - by rewrite app_nil_r.
  - simpl in Hid, Hsplit. subst id'. cbn [add_params].
    erewrite bind_Ok; [|unfold lift; by rewrite Hsplit]. cbv beta.
    erewrite bind_Ok; [|reflexivity]. cbv beta.
    change (with_transport _ _) with (configured_writer addr n_bytes (before ++ [(id_, data)]) b).
    rewrite IH. by rewrite <- app_assoc.
Qed.

Lemma _sync_read_run (b : MotorsBus) (data_name : string) (motor_ids : list Z)
    (num_retry addr n_bytes : Z) :
  0 ≤ num_retry →
  tables_compared b →
  same_address b data_name motor_ids addr n_bytes →
  decodes data_name n_bytes →
  ∃ c values,
    _sync_read data_name motor_ids None num_retry b
    = (Ok ((reply (transport b)
              (length (sent (transport b)) + pred (attempts b num_retry))).1, values),
       after_sending (replicate (attempts b num_retry) (SyncReadPacket addr n_bytes motor_ids))
         (configured_reader addr n_bytes motor_ids (with_cache c b))).
Proof.
  intros Hr [different Hdiff] Hsame Hdec.
  destruct (_has_different_ctrl_tables_run b different Hdiff) as [c Hrun].
  exists c. unfold _sync_read.
  erewrite bind_Ok; [|exact Hrun]. cbv beta.
  erewrite bind_Ok; [|by apply (guard_passes (with_cache c b) data_name motor_ids addr n_bytes)].
  cbv beta.
  destruct Hsame as [Hne Hall].
  destruct motor_ids as [|id0 rest]; [done|].
  destruct (Hall id0) as (model & Hmodel & Haddr); [apply list_elem_of_here|].
  erewrite bind_Ok; [|unfold _id_to_model, subscript; cbn [_id_to_model_dict with_cache];
                      by rewrite Hmodel].
  cbv beta.
  erewrite bind_Ok; [|reflexivity]. cbv beta.
  erewrite bind_Ok; [|unfold lift; cbn [cls with_cache]; by rewrite Haddr]. cbv beta iota.
  erewrite bind_Ok; [|reflexivity]. cbv beta.
  erewrite bind_Ok;
    [|apply (retry_loop_from _ (λ comm, comm) fst
               (SyncReadPacket addr n_bytes (id0 :: rest))
               (configured_reader addr n_bytes (id0 :: rest) (with_cache c b)));
      [intros extra; apply sync_reader_txRxPacket_after | done]].
  cbv beta.
  change (attempts_made _ _ _) with (attempts b num_retry).
  destruct (read_values_run
              (after_sending (replicate (attempts b num_retry)
                                (SyncReadPacket addr n_bytes (id0 :: rest)))
                 (configured_reader addr n_bytes (id0 :: rest) (with_cache c b)))
              data_name (id0 :: rest) addr n_bytes [] Hdec) as [values Hvalues].
  exists values.
  erewrite bind_Ok; [|exact Hvalues]. cbv beta.
  destruct (attempts_pos b num_retry Hr) as (m & -> & _). reflexivity.
Qed.

Lemma _get_motor_id_state (motor : NameOrID) (b : MotorsBus) :
  (_get_motor_id motor b).2 = b.
Proof. by destruct motor. Qed.

Lemma id_key_map_of_state (motors : list NameOrID) (acc : dict Z NameOrID) (b : MotorsBus) :
  (id_key_map_of motors acc b).2 = b.
Proof.
  revert acc. induction motors as [|m motors IH]; intros acc; [done|].
  cbn [id_key_map_of]. unfold mbind, M_bind.
  pose proof (_get_motor_id_state m b) as Hstate.
  destruct (_get_motor_id m b) as [[id_|e] b']; simpl in Hstate; subst b'; [apply IH | done].
Qed.

Lemma id_key_map_for_run (motors : MotorsArg) (b : MotorsBus) (id_key_map : dict Z NameOrID) :
  (id_key_map_for motors b).1 = Ok id_key_map →
  id_key_map_for motors b = (Ok id_key_map, b).
Proof.
  intros Hres.
  assert ((id_key_map_for motors b).2 = b) as Hstate.
  { destruct motors as [|motor|l|]; try done.
    - unfold id_key_map_for, mbind, M_bind.
      pose proof (_get_motor_id_state motor b) as Hstate.
      by destruct (_get_motor_id motor b) as [[id_|e] b']; simpl in Hstate; subst b'.
    - apply id_key_map_of_state. }
  destruct (id_key_map_for motors b) as [r b']. simpl in *. by subst.
Qed.

Lemma ids_values_of_state (items : list (NameOrID * Value F)) (acc : dict Z (Value F))
    (b : MotorsBus) :
  (ids_values_of items acc b).2 = b.
Proof.
  revert acc. induction items as [|[m v] items IH]; intros acc; [done|].
  cbn [ids_values_of]. unfold mbind, M_bind.
  pose proof (_get_motor_id_state m b) as Hstate.
  destruct (_get_motor_id m b) as [[id_|e] b']; simpl in Hstate; subst b'; [apply IH | done].
Qed.

Lemma ids_values_for_run (values : ValuesArg F) (b : MotorsBus)
    (ids_values : dict Z (Value F)) :
  (ids_values_for values b).1 = Ok ids_values →
  ids_values_for values b = (Ok ids_values, b).
Proof.
  intros Hres.
  assert ((ids_values_for values b).2 = b) as Hstate.
  { destruct values as [[n|x]|d]; try done. apply ids_values_of_state. }
  destruct (ids_values_for values b) as [r b']. simpl in *. by subst.
Qed.

Lemma sync_read_run (b : MotorsBus) (data_name : string) (motors : MotorsArg)
    (normalize : bool) (num_retry : Z) (id_key_map : dict Z NameOrID) (addr n_bytes : Z) :
  is_connected b = true →
  0 ≤ num_retry →
  (id_key_map_for motors b).1 = Ok id_key_map →
  tables_compared b →
  same_address b data_name (Dict.keys id_key_map) addr n_bytes →
  decodes data_name n_bytes →
  ∃ outcome b',
    sync_read data_name motors normalize num_retry b = (outcome, b')
    ∧ sent (transport b')
      = sent (transport b)
        ++ replicate (attempts b num_retry)
             (SyncReadPacket addr n_bytes (Dict.keys id_key_map))
    ∧ (comm_ok b (length (sent (transport b)) + pred (attempts b num_retry)) = false →
       outcome
       = Raise (ConnectionError OpSyncRead data_name (num_retry + 1)
                  (getTxRxResult (transport b)
                     (reply (transport b)
                        (length (sent (transport b)) + pred (attempts b num_retry))).1))).
Proof.
  intros Hon Hr Hmap Hcmp Hsame Hdec.
  destruct (_sync_read_run b data_name (Dict.keys id_key_map) num_retry addr n_bytes
              Hr Hcmp Hsame Hdec) as (c & values & Hrun).
  unfold sync_read.
  erewrite bind_Ok; [|reflexivity]. cbv beta. rewrite Hon. cbn [negb].
  erewrite bind_Ok; [|by apply id_key_map_for_run]. cbv beta zeta.
  erewrite bind_Ok; [|exact Hrun]. cbv beta iota.
  erewrite bind_Ok; [|reflexivity]. cbv beta.
  change (bool_decide (_ = _comm_success _))
    with (comm_ok b (length (sent (transport b)) + pred (attempts b num_retry))).
  destruct (comm_ok b _) eqn:Hok; cbn [negb].
  - erewrite bind_Ok; [|reflexivity]. cbv beta.
    match goal with
    | |- ∃ outcome b', (?m ≫= ?f) ?s = _ ∧ _ =>
        assert (∃ r, m s = (r, s)) as [r Hm]
    end.
    { destruct (normalize && _); [unfold _normalize | unfold mret, M_ret]; eauto. }
    destruct r as [ids_values|e].
    + erewrite bind_Ok; [|exact Hm]. unfold lift. eexists _, _. split; [reflexivity|].
      split; [reflexivity | discriminate].
    + erewrite bind_Raise; [|exact Hm]. eexists _, _. split; [reflexivity|].
      split; [reflexivity | discriminate].
  - erewrite bind_Ok; [|reflexivity]. cbv beta. unfold raise.
    eexists _, _. split; [reflexivity|]. split; reflexivity.
Qed.

Lemma _sync_write_run (b : MotorsBus) (data_name : string) (ids_values : dict Z (Value F))
    (num_retry addr n_bytes : Z) (params : list (Z * list Z)) :
  0 ≤ num_retry →
  tables_compared b →
  same_address b data_name (Dict.keys ids_values) addr n_bytes →
  encodes data_name n_bytes ids_values params →
  ∃ c,
    _sync_write data_name ids_values num_retry b
    = (Ok (reply (transport b)
             (length (sent (transport b)) + pred (attempts b num_retry))).1,
       after_sending (replicate (attempts b num_retry) (SyncWritePacket addr n_bytes params))
         (configured_writer addr n_bytes params (with_cache c b))).
Proof.
  intros Hr [different Hdiff] Hsame (encoded & Henc & Hsplit).
  destruct (_has_different_ctrl_tables_run b different Hdiff) as [c Hrun].
  exists c. unfold _sync_write.
  erewrite bind_Ok; [|exact Hrun]. cbv beta.
  erewrite bind_Ok;
    [|by apply (guard_passes (with_cache c b) data_name (Dict.keys ids_values) addr n_bytes)].
  cbv beta.
  destruct Hsame as [Hne Hall].
  destruct (Dict.keys ids_values) as [|id0 rest] eqn:Hkeys; [done|].
  destruct (Hall id0) as (model & Hmodel & Haddr); [apply list_elem_of_here|].
  erewrite bind_Ok; [|unfold _id_to_model, subscript; cbn [_id_to_model_dict with_cache];
                      by rewrite Hmodel].
  cbv beta.
  erewrite bind_Ok; [|reflexivity]. cbv beta.
  erewrite bind_Ok; [|unfold lift; cbn [cls with_cache]; by rewrite Haddr]. cbv beta iota.
  erewrite bind_Ok; [|unfold lift; by rewrite Henc]. cbv beta.
  erewrite bind_Ok.
  2:{ unfold _setup_sync_writer. erewrite bind_Ok; [|reflexivity]. cbv beta.
      apply (add_params_run (with_cache c b) addr n_bytes encoded [] params Hsplit). }
  cbv beta. rewrite app_nil_l.
  erewrite bind_Ok;
    [|apply (retry_loop_from _ (λ comm, comm) fst (SyncWritePacket addr n_bytes params)
               (configured_writer addr n_bytes params (with_cache c b)));
      [intros extra; apply sync_writer_txPacket_after | done]].
  cbv beta.
  change (attempts_made _ _ _) with (attempts b num_retry).
  destruct (attempts_pos b num_retry Hr) as (m & -> & _). reflexivity.
Qed.

Lemma sync_write_run (b : MotorsBus) (data_name : string) (values : ValuesArg F)
    (normalize : bool) (num_retry : Z) (ids_values raw : dict Z (Value F))
    (addr n_bytes : Z) (params : list (Z * list Z)) :
  is_connected b = true →
  0 ≤ num_retry →
  (ids_values_for values b).1 = Ok ids_values →
  unnormalized_as b data_name normalize ids_values raw →
  tables_compared b →
  same_address b data_name (Dict.keys raw) addr n_bytes →
  encodes data_name n_bytes raw params →
  ∃ b',
    sync_write data_name values normalize num_retry b
    = (if comm_ok b (length (sent (transport b)) + pred (attempts b num_retry)) then Ok ()
       else Raise (ConnectionError OpSyncWrite data_name (num_retry + 1)
                     (getTxRxResult (transport b)
                        (reply (transport b)
                           (length (sent (transport b)) + pred (attempts b num_retry))).1)),
       b')
    ∧ sent (transport b')
      = sent (transport b)
        ++ replicate (attempts b num_retry) (SyncWritePacket addr n_bytes params).
Proof.
  intros Hon Hr Hvalues Hraw Hcmp Hsame Henc.
  destruct (_sync_write_run b data_name raw num_retry addr n_bytes params
              Hr Hcmp Hsame Henc) as (c & Hrun).
  unfold sync_write.
  erewrite bind_Ok; [|reflexivity]. cbv beta. rewrite Hon. cbn [negb].
  erewrite bind_Ok; [|by apply ids_values_for_run]. cbv beta.
  unfold sync_write_ids_values.
  erewrite bind_Ok; [|reflexivity]. cbv beta.
  unfold unnormalized_as in Hraw.
  erewrite (bind_Ok _ _ b b raw).
  - erewrite bind_Ok; [|exact Hrun]. cbv beta.
    erewrite bind_Ok; [|reflexivity]. cbv beta.
    change (bool_decide (_ = _comm_success _))
      with (comm_ok b (length (sent (transport b)) + pred (attempts b num_retry))).
    destruct (comm_ok b _); cbn [negb].
    + eexists. split; reflexivity.
    + erewrite bind_Ok; [|reflexivity]. cbv beta. unfold raise.
      eexists. split; reflexivity.
  - destruct (normalize && bool_decide (data_name ∈ normalization_required (cls b))).
    + destruct Hraw as (ticks & Hun & ->).
      erewrite bind_Ok; [|exact Hun]. done.
    + by subst raw.
Qed.
Lemma attempts_all_fail (b : MotorsBus) (num_retry : Z) :
  0 ≤ num_retry → all_fail b →
  attempts b num_retry = Z.to_nat (1 + num_retry)
  ∧ pred (attempts b num_retry) = Z.to_nat num_retry.
Proof.
  intros Hr Hfail. unfold attempts.
  rewrite attempts_made_all_fail.
  - split; [done|]. by rewrite tries_pos.
  - intros i _. apply Hfail. lia.
Qed.

Lemma attempts_first_success (b : MotorsBus) (num_retry : Z) (j : nat) :
  0 ≤ num_retry → (j ≤ Z.to_nat num_retry)%nat → first_success b j →
  attempts b num_retry = S j.
Proof.
  intros Hr Hj [Hfail Hok]. unfold attempts.
  apply attempts_made_first_success; [rewrite tries_pos by done; lia | done | done].
Qed.

(** C1.  Take a connected bus and a retry budget [num_retry >= 0], and an
    operation whose target motors, address and values resolve.
    - If the wire reports a communication failure for every transmission,
      [sync_read], [sync_write] and [write] transmit the same packet exactly
      [1 + num_retry] times and then raise the connectivity error that
      carries the number of tries [num_retry + 1] and the diagnostic text of
      the last status.
    - If the first success is the answer to attempt number [j] (counted from
      0, within the budget), they transmit exactly [j + 1] times: no attempt
      follows a success. *)
Theorem C1_retry_exhaustion (b : MotorsBus) (data_name : string) (num_retry : Z) :
  is_connected b = true → 0 ≤ num_retry →
  (all_fail b →
   attempts b num_retry = Z.to_nat (1 + num_retry)
   ∧ (∀ motors normalize id_key_map addr n_bytes,
        (id_key_map_for motors b).1 = Ok id_key_map →
        tables_compared b →
        same_address b data_name (Dict.keys id_key_map) addr n_bytes →
        decodes data_name n_bytes →
        ∃ b',
          sync_read data_name motors normalize num_retry b
          = (Raise (ConnectionError OpSyncRead data_name (num_retry + 1)
                      (getTxRxResult (transport b) (last_comm b num_retry))), b')
          ∧ sent (transport b')
            = sent (transport b)
              ++ replicate (Z.to_nat (1 + num_retry))
                   (SyncReadPacket addr n_bytes (Dict.keys id_key_map)))
   ∧ (∀ values normalize ids_values raw addr n_bytes params,
        (ids_values_for values b).1 = Ok ids_values →
        unnormalized_as b data_name normalize ids_values raw →
        tables_compared b →
        same_address b data_name (Dict.keys raw) addr n_bytes →
        encodes data_name n_bytes raw params →
        ∃ b',
          sync_write data_name values normalize num_retry b
          = (Raise (ConnectionError OpSyncWrite data_name (num_retry + 1)
                      (getTxRxResult (transport b) (last_comm b num_retry))), b')
          ∧ sent (transport b')
            = sent (transport b)
              ++ replicate (Z.to_nat (1 + num_retry)) (SyncWritePacket addr n_bytes params))
   ∧ (∀ motor (value raw : Value F) normalize id_ model addr n_bytes encoded data,
        _get_motor_id motor b = (Ok id_, b) →
        unnormalized_as b data_name normalize [(id_, value)] [(id_, raw)] →
        Dict.get id_ (_id_to_model_dict b) = Some model →
        get_address (model_ctrl_table (cls b)) model data_name = Ok (addr, n_bytes) →
        _encode_value raw data_name n_bytes = Ok encoded →
        _split_int_to_bytes encoded n_bytes = Ok data →
        write data_name motor value normalize num_retry b
        = (Raise (ConnectionError OpWrite data_name (num_retry + 1)
                    (getTxRxResult (transport b) (last_comm b num_retry))),
           after_sending (replicate (Z.to_nat (1 + num_retry))
                            (WritePacket id_ addr n_bytes data)) b)))
  ∧ (∀ j, (j ≤ Z.to_nat num_retry)%nat → first_success b j →
     attempts b num_retry = S j
     ∧ (∀ motors normalize id_key_map addr n_bytes,
          (id_key_map_for motors b).1 = Ok id_key_map →
          tables_compared b →
          same_address b data_name (Dict.keys id_key_map) addr n_bytes →
          decodes data_name n_bytes →
          ∃ outcome b',
            sync_read data_name motors normalize num_retry b = (outcome, b')
            ∧ sent (transport b')
              = sent (transport b)
                ++ replicate (S j) (SyncReadPacket addr n_bytes (Dict.keys id_key_map)))
     ∧ (∀ values normalize ids_values raw addr n_bytes params,
          (ids_values_for values b).1 = Ok ids_values →
          unnormalized_as b data_name normalize ids_values raw →
          tables_compared b →
          same_address b data_name (Dict.keys raw) addr n_bytes →
          encodes data_name n_bytes raw params →
          ∃ b',
            sync_write data_name values normalize num_retry b = (Ok (), b')
            ∧ sent (transport b')
              = sent (transport b) ++ replicate (S j) (SyncWritePacket addr n_bytes params))
     ∧ (∀ motor (value raw : Value F) normalize id_ model addr n_bytes encoded data,
          _get_motor_id motor b = (Ok id_, b) →
          unnormalized_as b data_name normalize [(id_, value)] [(id_, raw)] →
          Dict.get id_ (_id_to_model_dict b) = Some model →
          get_address (model_ctrl_table (cls b)) model data_name = Ok (addr, n_bytes) →
          _encode_value raw data_name n_bytes = Ok encoded →
          _split_int_to_bytes encoded n_bytes = Ok data →
          write data_name motor value normalize num_retry b
          = (write_outcome b data_name num_retry
               (reply (transport b) (length (sent (transport b)) + j)),
             after_sending (replicate (S j) (WritePacket id_ addr n_bytes data)) b))).
Proof.
  intros Hon Hr. split.
  - intros Hfail.
    destruct (attempts_all_fail b num_retry Hr Hfail) as [Hn Hlast].
    assert (comm_ok b (length (sent (transport b)) + pred (attempts b num_retry)) = false)
      as Hko by (apply Hfail; lia).
    split_and!; [exact Hn | | |].
    + intros motors normalize id_key_map addr n_bytes Hmap Hcmp Hsame Hdec.
      destruct (sync_read_run b data_name motors normalize num_retry id_key_map addr n_bytes
                  Hon Hr Hmap Hcmp Hsame Hdec) as (outcome & b' & Hrun & Hsent & Hout).
      exists b'. rewrite Hrun, (Hout Hko), Hsent. unfold last_comm. by rewrite Hlast, Hn.
    + intros values normalize ids_values raw addr n_bytes params Hvalues Hraw Hcmp Hsame Henc.
      destruct (sync_write_run b data_name values normalize num_retry ids_values raw
                  addr n_bytes params Hon Hr Hvalues Hraw Hcmp Hsame Henc)
        as (b' & Hrun & Hsent).
      exists b'. rewrite Hrun, Hko, Hsent. unfold last_comm. by rewrite Hlast, Hn.
    + intros motor value raw normalize id_ model addr n_bytes encoded data
        Hid Hraw Hmodel Haddr Henc Hsplit.
      rewrite (write_run b data_name motor value raw normalize num_retry id_ model
                 addr n_bytes encoded data) by done.
      unfold write_outcome. unfold comm_ok in Hko. rewrite Hko.
      unfold last_comm. by rewrite Hlast, Hn.
  - intros j Hj Hfirst.
    pose proof (attempts_first_success b num_retry j Hr Hj Hfirst) as Hn.
    assert (comm_ok b (length (sent (transport b)) + pred (attempts b num_retry)) = true)
      as Hok by (rewrite Hn; apply Hfirst).
    split_and!; [exact Hn | | |].
    + intros motors normalize id_key_map addr n_bytes Hmap Hcmp Hsame Hdec.
      destruct (sync_read_run b data_name motors normalize num_retry id_key_map addr n_bytes
                  Hon Hr Hmap Hcmp Hsame Hdec) as (outcome & b' & Hrun & Hsent & _).
      exists outcome, b'. by rewrite Hrun, Hsent, Hn.
    + intros values normalize ids_values raw addr n_bytes params Hvalues Hraw Hcmp Hsame Henc.
      destruct (sync_write_run b data_name values normalize num_retry ids_values raw
                  addr n_bytes params Hon Hr Hvalues Hraw Hcmp Hsame Henc)
        as (b' & Hrun & Hsent).
      exists b'. by rewrite Hrun, Hok, Hsent, Hn.
    + intros motor value raw normalize id_ model addr n_bytes encoded data
        Hid Hraw Hmodel Haddr Henc Hsplit.
      rewrite (write_run b data_name motor value raw normalize num_retry id_ model
                 addr n_bytes encoded data) by done.
      by rewrite Hn.
Qed.
End retries.

(** The premises of C1 on the two-motor bus, with a wire that answers every
    transmission with a failure status and a budget of two retries: each of
    the three operations transmits three times and raises the connectivity
    error with the count 3. *)
Lemma C1_retry_exhaustion_witness :
  let b := Fixture.arm (Fixture.wire true (Fixture.always (-3001, 0)) 2048) in
  (∃ b', sync_read "Present_Position" MotorsNone true 2 b
         = (Raise (ConnectionError OpSyncRead "Present_Position" 3
                     "[TxRxResult] There is no status packet!"), b')
         ∧ sent (transport b') = replicate 3 (SyncReadPacket 56 2 [1; 6]))
  ∧ (∃ b', sync_write "Goal_Position" (OneValue (VInt 50)) true 2 b
           = (Raise (ConnectionError OpSyncWrite "Goal_Position" 3
                       "[TxRxResult] There is no status packet!"), b')
           ∧ sent (transport b')
             = replicate 3 (SyncWritePacket 42 2 [(1, [255; 11]); (6, [255; 7])]))
  ∧ write "Goal_Position" (Name "gripper") (VInt 50) true 2 b
    = (Raise (ConnectionError OpWrite "Goal_Position" 3
                "[TxRxResult] There is no status packet!"),
       after_sending (replicate 3 (WritePacket 6 42 2 [255; 7])) b).
Proof.
  intros b.
  assert (all_fail b) as Hfail by (intros k _; reflexivity).
  assert (tables_compared b) as Hcmp by (exists false; reflexivity).
  assert (∀ name addr,
            get_address (model_ctrl_table (cls b)) "sts3215" name = Ok (addr, 2) →
            same_address b name [1; 6] addr 2) as Hsame.
  { intros name addr Hname. split; [done|]. intros id_ Hin. exists "sts3215".
    apply elem_of_cons in Hin as [-> | Hin]; [|apply list_elem_of_singleton in Hin as ->];
      (split; [reflexivity | exact Hname]). }
  destruct (C1_retry_exhaustion b "Present_Position" 2 eq_refl ltac:(lia)) as [Hread _].
  destruct (Hread Hfail) as (_ & Hread' & _ & _).
  destruct (C1_retry_exhaustion b "Goal_Position" 2 eq_refl ltac:(lia)) as [Hwrite _].
  destruct (Hwrite Hfail) as (_ & _ & Hsync & Hsingle).
  split_and!.
  - apply (Hread' MotorsNone true [(1, Name "shoulder"); (6, Name "gripper")] 56 2).
    + reflexivity.
    + exact Hcmp.
    + apply (Hsame "Present_Position" 56). vm_compute. reflexivity.
    + intros val. by exists val.
  - apply (Hsync (OneValue (VInt 50)) true [(1, VInt 50); (6, VInt 50)]
             [(1, VInt 3071); (6, VInt 2047)] 42 2).
    + reflexivity.
    + simpl. eexists. split; reflexivity.
    + exact Hcmp.
    + apply (Hsame "Goal_Position" 42). vm_compute. reflexivity.
    + exists [(1, 3071); (6, 2047)]. split; [reflexivity|].
      repeat constructor.
  - apply (Hsingle (Name "gripper") (VInt 50) (VInt 2047) true 6 "sts3215" 42 2 2047).
    + reflexivity.
    + simpl. eexists. split; reflexivity.
    + reflexivity.
    + reflexivity.
    + reflexivity.
    + reflexivity.
Defined.

(** ** The cross-model guard of the group operations *)

Lemma all_addresses_elem (tbl : gmap string (gmap string (Z * Z))) (ms : list string)
    (data_name : string) (addresses : list (Z * Z)) (x : Z * Z) :
  all_addresses tbl ms data_name = Ok addresses → x ∈ addresses →
  ∃ model, model ∈ ms ∧ get_address tbl model data_name = Ok x.
Proof.
  revert addresses. induction ms as [|m ms IH]; intros addresses Hall Hin.
  - injection Hall as <-. by apply elem_of_nil in Hin.
  - cbn [all_addresses] in Hall. unfold mbind, Result_bind in Hall.
    destruct (get_address tbl m data_name) as [ab|e] eqn:Hab; [|discriminate].
    destruct (all_addresses tbl ms data_name) as [abs|e]; [|discriminate].
    injection Hall as <-. apply elem_of_cons in Hin as [-> | Hin].
    + exists m. split; [apply list_elem_of_here | done].
    + destruct (IH abs eq_refl Hin) as (model & Hmodel & Haddr).
      exists model. split; [by apply list_elem_of_further | done].
Qed.

Lemma get_address_Ok (tbl : gmap string (gmap string (Z * Z))) (model data_name : string)
    (x : Z * Z) :
  get_address tbl model data_name = Ok x →
  ∃ t, tbl !! model = Some t ∧ t !! data_name = Some x.
Proof.
  unfold get_address, get_ctrl_table, mbind, Result_bind.
  destruct (tbl !! model) as [t|]; [|done].
  destruct (t !! data_name) as [ab|] eqn:Hab; [|done].
  intros [= ->]. by exists t.
Qed.

Lemma assert_same_address_conflict (tbl : gmap string (gmap string (Z * Z)))
    (ms : list string) (data_name : string) (addresses : list (Z * Z)) (x y : Z * Z) :
  all_addresses tbl ms data_name = Ok addresses →
  x ∈ addresses → y ∈ addresses → x ≠ y →
  ∃ e, assert_same_address tbl ms data_name = Raise e ∧ cross_model_error data_name e.
Proof.
  intros Hall Hx Hy Hne. unfold assert_same_address. rewrite Hall.
  unfold mbind, Result_bind. cbv zeta.
  destruct (decide (size (list_to_set addresses.*1 : gset Z) ≠ 1%nat)) as [|Haddr];
    [by eexists|].
  destruct (decide (size (list_to_set addresses.*2 : gset Z) ≠ 1%nat)) as [|Hbytes];
    [by eexists|].
  exfalso. apply Hne.
  apply dec_stable in Haddr. apply dec_stable in Hbytes.
  destruct x as [xa xb], y as [ya yb]. f_equal.
  - apply (size_singleton_inv _ _ _ Haddr); apply elem_of_list_to_set, list_elem_of_fmap.
    + by exists (xa, xb).
    + by exists (ya, yb).
  - apply (size_singleton_inv _ _ _ Hbytes); apply elem_of_list_to_set, list_elem_of_fmap.
    + by exists (xa, xb).
    + by exists (ya, yb).
Qed.

Lemma ctrl_tables_available_elem (tbl : gmap string (gmap string (Z * Z)))
    (ms : list string) (m : string) :
  ctrl_tables_available tbl ms = Ok () → m ∈ ms → is_Some (tbl !! m).
Proof.
  induction ms as [|h ms IH]; intros Hav Hin; [by apply elem_of_nil in Hin|].
  cbn [ctrl_tables_available] in Hav. unfold mbind, Result_bind, get_ctrl_table in Hav.
  destruct (tbl !! h) as [t|] eqn:Hh; [|discriminate].
  apply elem_of_cons in Hin as [-> | Hin]; [by exists t | by apply IH].
Qed.

Lemma any_table_differs_true (tbl : gmap string (gmap string (Z * Z)))
    (first_table : gmap string (Z * Z)) (rest : list string) (m : string)
    (t : gmap string (Z * Z)) :
  ctrl_tables_available tbl rest = Ok () →
  m ∈ rest → tbl !! m = Some t → t ≠ first_table →
  any_table_differs tbl first_table rest = Ok true.
Proof.
  induction rest as [|h rest IH]; intros Hav Hin Hm Hne; [by apply elem_of_nil in Hin|].
  cbn [ctrl_tables_available] in Hav. cbn [any_table_differs].
  unfold mbind, Result_bind, get_ctrl_table in *.
  destruct (tbl !! h) as [th|] eqn:Hh; [|discriminate].
  destruct (decide (first_table ≠ th)) as [|Heq]; [done|].
  apply dec_stable in Heq. subst th.
  apply elem_of_cons in Hin as [-> | Hin]; [congruence | by apply IH].
Qed.

Lemma body_true (b : MotorsBus) (m1 m2 : string) (t1 t2 : gmap string (Z * Z)) :
  ctrl_tables_available (model_ctrl_table (cls b)) (models b) = Ok () →
  m1 ∈ models b → m2 ∈ models b →
  model_ctrl_table (cls b) !! m1 = Some t1 →
  model_ctrl_table (cls b) !! m2 = Some t2 →
  t1 ≠ t2 →
  _has_different_ctrl_tables_body b = Ok true.
Proof.
  intros Hav H1 H2 Ht1 Ht2 Hne. unfold _has_different_ctrl_tables_body.
  destruct (models b) as [|m0 [|m' rest]] eqn:Hmodels.
  - by apply elem_of_nil in H1.
  - apply list_elem_of_singleton in H1, H2. congruence.
  - destruct (ctrl_tables_available_elem _ _ m0 Hav) as [first Hfirst];
      [apply list_elem_of_here|].
    rewrite Hfirst.
    assert (ctrl_tables_available (model_ctrl_table (cls b)) (m' :: rest) = Ok ()) as Hav'.
    { cbn [ctrl_tables_available] in Hav. unfold mbind, Result_bind, get_ctrl_table in Hav.
      by rewrite Hfirst in Hav. }
    destruct (decide (t1 = first)) as [->|Hne1].
    + apply (any_table_differs_true _ _ _ m2 t2); [done | | done | congruence].
      apply elem_of_cons in H2 as [-> | H2]; [congruence | done].
    + apply (any_table_differs_true _ _ _ m1 t1); [done | | done | done].
      apply elem_of_cons in H1 as [-> | H1]; [congruence | done].
Qed.

Section comp_elem.
Context {K V A : Type} `{EqDecision K}.

Lemma dict_get_foldl_elem (key : A → K) (val : A → V) (xs : list A) (d : dict K V)
    (k : K) (v : V) :
  Dict.get k (foldl (λ d x, Dict.set (key x) (val x) d) d xs) = Some v →
  (∃ x, x ∈ xs ∧ key x = k ∧ val x = v) ∨ Dict.get k d = Some v.
Proof.
  revert d. induction xs as [|x xs IH]; intros d Hget; [by right|].
  cbn [foldl] in Hget. destruct (IH _ Hget) as [(x' & Hin & Hk & Hv) | Hd].
  - left. exists x'. split; [by apply list_elem_of_further | done].
  - destruct (decide (key x = k)) as [Hk|Hk].
    + left. exists x. rewrite <- Hk, dict_get_set_eq in Hd. injection Hd as Hv.
      split; [apply list_elem_of_here | done].
    + right. by rewrite dict_get_set_ne in Hd.
Qed.

Lemma dict_get_comp_elem (key : A → K) (val : A → V) (xs : list A) (k : K) (v : V) :
  Dict.get k (Dict.comp key val xs) = Some v → ∃ x, x ∈ xs ∧ key x = k ∧ val x = v.
Proof.
  intros Hget. by destruct (dict_get_foldl_elem key val xs [] k v Hget) as [? | ?].
Qed.
End comp_elem.

Lemma model_of_id_configured (b : MotorsBus) (id_ : Z) (model : string) :
  derived_dicts_ok b → Dict.get id_ (_id_to_model_dict b) = Some model → model ∈ models b.
Proof.
  intros [Hmodel _] Hget. rewrite Hmodel in Hget.
  apply dict_get_comp_elem in Hget as (motor & Hin & _ & <-).
  unfold models. apply list_elem_of_fmap. by exists motor.
Qed.

(** Two participants whose models disagree on [data_name] make the tables of
    the bus differ. *)
Lemma conflicting_body_true (b : MotorsBus) (data_name : string) (motor_ids : list Z) :
  derived_dicts_ok b →
  ctrl_tables_available (model_ctrl_table (cls b)) (models b) = Ok () →
  conflicting b data_name motor_ids →
  _has_different_ctrl_tables_body b = Ok true.
Proof.
  intros Hderived Hav (ms & addresses & Hms & Hall & x & y & Hx & Hy & Hne).
  destruct (all_addresses_elem _ _ _ _ x Hall Hx) as (m1 & Hm1 & Ha1).
  destruct (all_addresses_elem _ _ _ _ y Hall Hy) as (m2 & Hm2 & Ha2).
  apply get_address_Ok in Ha1 as (t1 & Ht1 & Hx1).
  apply get_address_Ok in Ha2 as (t2 & Ht2 & Hy2).
  assert (∀ m, m ∈ ms → m ∈ models b) as Hsub.
  { intros m Hm. apply list_elem_of_lookup in Hm as [i Hi].
    destruct (Forall2_lookup_r _ _ _ _ _ Hms Hi) as (id_ & _ & Hid).
    by apply (model_of_id_configured b id_). }
  apply (body_true b m1 m2 t1 t2); auto. congruence.
Qed.

Lemma _has_different_ctrl_tables_true (b : MotorsBus) :
  cache_ok b → _has_different_ctrl_tables_body b = Ok true →
  _has_different_ctrl_tables b = (Ok true, with_cache (Some true) b).
Proof.
  intros Hcache Hbody. unfold _has_different_ctrl_tables.
  destruct (_has_different_ctrl_tables_cache b) as [v|] eqn:Hc.
  - pose proof (Hcache v Hc) as Hv. rewrite Hbody in Hv. injection Hv as <-.
    by rewrite <- Hc, with_cache_same.
  - by rewrite Hbody.
Qed.

(** Once the property has returned, its slot is filled and it returns the
    same value without looking at the tables again. *)
Lemma _has_different_ctrl_tables_once (b b' : MotorsBus) (different : bool) :
  _has_different_ctrl_tables b = (Ok different, b') →
  _has_different_ctrl_tables_cache b' = Some different
  ∧ _has_different_ctrl_tables b' = (Ok different, b').
Proof.
  unfold _has_different_ctrl_tables.
  destruct (_has_different_ctrl_tables_cache b) as [v|] eqn:Hc.
  - intros [= <- <-]. by rewrite Hc.
  - destruct (_has_different_ctrl_tables_body b) as [v|e]; [|discriminate].
    intros [= <- <-]. done.
Qed.

Section guard.
Context {F : Type} `{PyFloat F} `{Overrides F}.

Lemma guard_fails (b : MotorsBus) (data_name : string) (motor_ids : list Z) :
  conflicting b data_name motor_ids →
  ∃ e,
    (models ← models_of motor_ids;
     tbl ← gets (λ b, model_ctrl_table (cls b));
     lift (assert_same_address tbl models data_name)) b = (Raise e, b)
    ∧ cross_model_error data_name e.
Proof.
  intros (ms & addresses & Hms & Hall & x & y & Hx & Hy & Hne).
  destruct (assert_same_address_conflict _ _ _ _ x y Hall Hx Hy Hne) as (e & He & Hcross).
  exists e. split; [|done].
  erewrite bind_Ok; [|by apply models_of_run]. cbv beta.
  erewrite bind_Ok; [|reflexivity]. cbv beta. unfold lift. by rewrite He.
Qed.

Lemma _sync_read_conflict (b : MotorsBus) (data_name : string) (motor_ids : list Z)
    (model : option string) (num_retry : Z) :
  derived_dicts_ok b → cache_ok b →
  ctrl_tables_available (model_ctrl_table (cls b)) (models b) = Ok () →
  conflicting b data_name motor_ids →
  ∃ e, _sync_read data_name motor_ids model num_retry b
       = (Raise e, with_cache (Some true) b)
       ∧ cross_model_error data_name e.
Proof.
  intros Hderived Hcache Hav Hconf.
  destruct (guard_fails (with_cache (Some true) b) data_name motor_ids Hconf)
    as (e & He & Hcross).
  exists e. split; [|done]. unfold _sync_read.
  erewrite bind_Ok;
    [|apply _has_different_ctrl_tables_true;
      [done | by apply (conflicting_body_true b data_name motor_ids)]].
  cbv beta iota.
  erewrite bind_Raise; [done | exact He].
Qed.

Lemma _sync_write_conflict (b : MotorsBus) (data_name : string)
    (ids_values : dict Z (Value F)) (num_retry : Z) :
  derived_dicts_ok b → cache_ok b →
  ctrl_tables_available (model_ctrl_table (cls b)) (models b) = Ok () →
  conflicting b data_name (Dict.keys ids_values) →
  ∃ e, _sync_write data_name ids_values num_retry b
       = (Raise e, with_cache (Some true) b)
       ∧ cross_model_error data_name e.
Proof.
  intros Hderived Hcache Hav Hconf.
  destruct (guard_fails (with_cache (Some true) b) data_name (Dict.keys ids_values) Hconf)
    as (e & He & Hcross).
  exists e. split; [|done]. unfold _sync_write.
  erewrite bind_Ok;
    [|apply _has_different_ctrl_tables_true;
      [done | by apply (conflicting_body_true b data_name (Dict.keys ids_values))]].
  cbv beta iota.
  erewrite bind_Raise; [done | exact He].
Qed.

(** C2.  On a bus whose lookup tables are the ones [__init__] derives, whose
    models all have a control table (as [_validate_motors] checks) and whose
    slot for [_has_different_ctrl_tables] is empty or correct: when the
    motors taking part in a group operation are configured and their models
    resolve [data_name] to more than one (address, width), then [_sync_read]
    and [_sync_write], and [sync_read] and [sync_write] on a connected bus,
    raise one of the two errors of [assert_same_address].  The bus they
    leave differs from the one they were given in the filled slot only, so
    nothing was transmitted.  The property runs its comparison at most once:
    once it has returned, it returns the value of its slot. *)
Theorem C2_cross_model_guard (b : MotorsBus) (data_name : string) :
  derived_dicts_ok b → cache_ok b →
  ctrl_tables_available (model_ctrl_table (cls b)) (models b) = Ok () →
  (∀ motor_ids model num_retry,
     conflicting b data_name motor_ids →
     ∃ e, _sync_read data_name motor_ids model num_retry b
          = (Raise e, with_cache (Some true) b)
          ∧ cross_model_error data_name e)
  ∧ (∀ (ids_values : dict Z (Value F)) num_retry,
       conflicting b data_name (Dict.keys ids_values) →
       ∃ e, _sync_write data_name ids_values num_retry b
            = (Raise e, with_cache (Some true) b)
            ∧ cross_model_error data_name e)
  ∧ (is_connected b = true →
     ∀ motors normalize num_retry id_key_map,
       (id_key_map_for motors b).1 = Ok id_key_map →
       conflicting b data_name (Dict.keys id_key_map) →
       ∃ e, sync_read data_name motors normalize num_retry b
            = (Raise e, with_cache (Some true) b)
            ∧ cross_model_error data_name e)
  ∧ (is_connected b = true →
     ∀ values normalize num_retry (ids_values raw : dict Z (Value F)),
       (ids_values_for values b).1 = Ok ids_values →
       unnormalized_as b data_name normalize ids_values raw →
       conflicting b data_name (Dict.keys raw) →
       ∃ e, sync_write data_name values normalize num_retry b
            = (Raise e, with_cache (Some true) b)
            ∧ cross_model_error data_name e)
  ∧ sent (transport (with_cache (Some true) b)) = sent (transport b)
  ∧ (∀ b0 b1 different,
       _has_different_ctrl_tables b0 = (Ok different, b1) →
       _has_different_ctrl_tables_cache b1 = Some different
       ∧ _has_different_ctrl_tables b1 = (Ok different, b1)).
Proof.
  intros Hderived Hcache Hav. split_and!.
  - intros motor_ids model num_retry Hconf. by apply _sync_read_conflict.
  - intros ids_values num_retry Hconf. by apply _sync_write_conflict.
  - intros Hon motors normalize num_retry id_key_map Hmap Hconf.
    destruct (_sync_read_conflict b data_name (Dict.keys id_key_map) None num_retry
                Hderived Hcache Hav Hconf) as (e & He & Hcross).
    exists e. split; [|done]. unfold sync_read.
    erewrite bind_Ok; [|reflexivity]. cbv beta. rewrite Hon. cbn [negb].
    erewrite bind_Ok; [|by apply id_key_map_for_run]. cbv beta zeta.
    erewrite bind_Raise; [done | exact He].
  - intros Hon values normalize num_retry ids_values raw Hvalues Hraw Hconf.
    destruct (_sync_write_conflict b data_name raw num_retry Hderived Hcache Hav Hconf)
      as (e & He & Hcross).
    exists e. split; [|done]. unfold sync_write.
    erewrite bind_Ok; [|reflexivity]. cbv beta. rewrite Hon. cbn [negb].
    erewrite bind_Ok; [|by apply ids_values_for_run]. cbv beta.
    unfold sync_write_ids_values.
    erewrite bind_Ok; [|reflexivity]. cbv beta.
    unfold unnormalized_as in Hraw.
    erewrite (bind_Ok _ _ b b raw).
    + erewrite bind_Raise; [done | exact He].
    + destruct (normalize && bool_decide (data_name ∈ normalization_required (cls b))).
      * destruct Hraw as (ticks & Hun & ->). erewrite bind_Ok; [|exact Hun]. done.
      * by subst raw.
  - reflexivity.
  - intros b0 b1 different. apply _has_different_ctrl_tables_once.
Qed.
End guard.

(** The premises of C2 on the bus of the fixture that mixes two models:
    reading the present position of all motors, and writing a goal position
    to both, raise the address error and transmit nothing. *)
Lemma C2_cross_model_guard_witness :
  let b := Fixture.mixed (Fixture.wire true (Fixture.always (0, 0)) 0) in
  sync_read "Present_Position" MotorsNone false 0 b
  = (Raise (NotImplementedError_address "Present_Position"
              [("sts3215", 56); ("xl430", 132)]), with_cache (Some true) b)
  ∧ sent (transport (with_cache (Some true) b)) = []
  ∧ ∃ e, sync_write "Goal_Position" (OneValue (VInt 2048)) false 0 b
         = (Raise e, with_cache (Some true) b)
         ∧ cross_model_error "Goal_Position" e.
Proof.
  intros b.
  assert (derived_dicts_ok b) as Hderived by apply init_derived_dicts_ok.
  assert (cache_ok b) as Hcache by (intros different Hc; discriminate Hc).
  assert (ctrl_tables_available (model_ctrl_table (cls b)) (models b) = Ok ()) as Hav
    by (vm_compute; reflexivity).
  assert (∀ name x y,
            get_address (model_ctrl_table (cls b)) "sts3215" name = Ok x →
            get_address (model_ctrl_table (cls b)) "xl430" name = Ok y →
            x ≠ y → conflicting b name [1; 2]) as Hconf.
  { intros name x y Hx Hy Hne. exists ["sts3215"; "xl430"], [x; y]. split_and!.
    - repeat constructor.
    - cbn [all_addresses]. unfold mbind, Result_bind. by rewrite Hx, Hy.
    - exists x, y. split_and!; [apply list_elem_of_here | | done].
      apply list_elem_of_further, list_elem_of_here. }
  destruct (C2_cross_model_guard (F := float) b "Present_Position" Hderived Hcache Hav)
    as (_ & _ & Hread & _ & Hsent & _).
  destruct (C2_cross_model_guard (F := float) b "Goal_Position" Hderived Hcache Hav)
    as (_ & _ & _ & Hwrite & _ & _).
  split_and!.
  - destruct (Hread eq_refl MotorsNone false 0 [(1, Name "shoulder"); (2, Name "wrist")])
      as (e & He & _).
    + reflexivity.
    + apply (Hconf "Present_Position" (56, 2) (132, 4)); [reflexivity.. | discriminate].
    + rewrite He. f_equal.
      assert ((sync_read (F := float) "Present_Position" MotorsNone false 0 b).1
              = Raise (NotImplementedError_address "Present_Position"
                         [("sts3215", 56); ("xl430", 132)])) as Hrun
        by (vm_compute; reflexivity).
      rewrite He in Hrun. exact Hrun.
  - exact Hsent.
  - apply (Hwrite eq_refl (OneValue (VInt 2048)) false 0
             [(1, VInt 2048); (2, VInt 2048)] [(1, VInt 2048); (2, VInt 2048)]).
    + reflexivity.
    + reflexivity.
    + apply (Hconf "Goal_Position" (42, 2) (116, 4)); [reflexivity.. | discriminate].
Defined.

(** * Further properties *)
(** ** Control tables: agreement of addresses *)

Lemma all_addresses_Forall2 (tbl : gmap string (gmap string (Z * Z))) (ms : list string)
    (data_name : string) (addresses : list (Z * Z)) :
  all_addresses tbl ms data_name = Ok addresses ↔
  Forall2 (λ model ab, get_address tbl model data_name = Ok ab) ms addresses.
Proof.
  revert addresses. induction ms as [|m ms IH]; intros addresses; cbn [all_addresses].
  - split.
    + intros [= <-]. constructor.
    + intros Hall. by inversion Hall.
  - unfold mbind at 1, Result_bind at 1.
    destruct (get_address tbl m data_name) as [ab|e] eqn:Hm.
    + unfold mbind, Result_bind.
      destruct (all_addresses tbl ms data_name) as [abs|e] eqn:Hms.
      * split.
        -- intros [= <-]. constructor; [done | by apply IH].
        -- intros Hall. inversion Hall as [|? ab' ? abs' Hab Hrest]; subst.
           apply IH in Hrest. congruence.
      * split; [done|]. intros Hall.
        inversion Hall as [|? ab' ? abs' Hab Hrest]; subst.
        apply IH in Hrest. discriminate.
    + split; [done|]. intros Hall. inversion Hall; subst. congruence.
Qed.

Lemma size_list_to_set_one (l : list Z) :
  size (list_to_set l : gset Z) = 1%nat → l ≠ [] ∧ ∃ x, ∀ y, y ∈ l → y = x.
Proof.
  intros Hsize. split.
  - intros ->. rewrite list_to_set_nil, size_empty in Hsize. discriminate.
  - apply size_1_elem_of in Hsize as [x Hx]. exists x. intros y Hy.
    assert (y ∈ (list_to_set l : gset Z)) as Hin by by apply elem_of_list_to_set.
    rewrite Hx in Hin. by apply elem_of_singleton in Hin.
Qed.

Lemma assert_same_address_Ok (tbl : gmap string (gmap string (Z * Z))) (ms : list string)
    (data_name : string) :
  assert_same_address tbl ms data_name = Ok () →
  ms ≠ [] ∧ ∃ addr n_bytes,
    Forall (λ model, get_address tbl model data_name = Ok (addr, n_bytes)) ms.
Proof.
  unfold assert_same_address. unfold mbind, Result_bind.
  destruct (all_addresses tbl ms data_name) as [abs|e] eqn:Hall; [|done].
  cbv zeta. repeat case_decide; try done. intros _.
  assert (size (list_to_set abs.*1 : gset Z) = 1%nat) as Haddr by lia.
  assert (size (list_to_set abs.*2 : gset Z) = 1%nat) as Hbytes by lia.
  apply size_list_to_set_one in Haddr as [Hne [addr Haddr]].
  apply size_list_to_set_one in Hbytes as [_ [n_bytes Hbytes]].
  apply all_addresses_Forall2 in Hall. split.
  - intros ->. inversion Hall; subst. by apply Hne.
  - exists addr, n_bytes. apply Forall_forall. intros model Hmodel.
    apply list_elem_of_lookup in Hmodel as [i Hi].
    destruct (Forall2_lookup_l _ _ _ _ _ Hall Hi) as ([a n] & Hab & Hget).
    rewrite Hget. f_equal.
    assert ((a, n) ∈ abs) as Hin by by eapply list_elem_of_lookup_2.
    f_equal.
    + apply Haddr. apply list_elem_of_fmap. by exists (a, n).
    + apply Hbytes. apply list_elem_of_fmap. by exists (a, n).
Qed.

(** X1.  [assert_same_address] returns exactly when the list of models is
    not empty and every model keeps [data_name] at one and the same address,
    on one and the same number of bytes.  On an empty list of models it
    raises the address error: [len(set([]))] is 0, not 1. *)
Theorem X1_assert_same_address_iff (tbl : gmap string (gmap string (Z * Z)))
    (motor_models : list string) (data_name : string) :
  (assert_same_address tbl motor_models data_name = Ok () ↔
     motor_models ≠ []
     ∧ ∃ addr n_bytes,
         Forall (λ model, get_address tbl model data_name = Ok (addr, n_bytes)) motor_models)
  ∧ assert_same_address tbl [] data_name = Raise (NotImplementedError_address data_name []).
Proof.
  split; [split|].
  - apply assert_same_address_Ok.
  - intros (Hne & addr & n_bytes & Hall). by eapply assert_same_address_ok.
  - reflexivity.
Qed.

(** The equivalence of X1 on the two tables of the fixture: one model alone
    agrees with itself, the two models together do not. *)
Lemma X1_assert_same_address_iff_witness :
  assert_same_address (model_ctrl_table Fixture.klass) ["sts3215"; "sts3215"] "Goal_Position"
  = Ok ()
  ∧ ¬ (["sts3215"; "xl430"] ≠ []
       ∧ ∃ addr n_bytes,
           Forall (λ model, get_address (model_ctrl_table Fixture.klass) model "Goal_Position"
                            = Ok (addr, n_bytes)) ["sts3215"; "xl430"]).
Proof.
  split.
  - apply (X1_assert_same_address_iff (model_ctrl_table Fixture.klass)
             ["sts3215"; "sts3215"] "Goal_Position").
    split; [done|]. exists 42, 2. repeat constructor.
  - intros Hsame.
    apply (X1_assert_same_address_iff (model_ctrl_table Fixture.klass)
             ["sts3215"; "xl430"] "Goal_Position") in Hsame.
    vm_compute in Hsame. discriminate.
Defined.

(** ** Control tables: the comparison behind the guard *)

Lemma ctrl_tables_available_iff (tbl : gmap string (gmap string (Z * Z))) (ms : list string) :
  ctrl_tables_available tbl ms = Ok () ↔ ∀ model, model ∈ ms → is_Some (tbl !! model).
Proof.
  induction ms as [|m ms IH]; cbn [ctrl_tables_available].
  - split; [|done]. intros _ model Hm. by apply elem_of_nil in Hm.
  - unfold get_ctrl_table, mbind, Result_bind.
    destruct (tbl !! m) as [t|] eqn:Hm.
    + rewrite IH. split.
      * intros Hall model [->|Hin]%elem_of_cons; [by rewrite Hm | by apply Hall].
      * intros Hall model Hin. apply Hall. by apply list_elem_of_further.
    + split; [done|]. intros Hall.
      destruct (Hall m) as [t Ht]; [apply list_elem_of_here | congruence].
Qed.

Lemma any_table_differs_spec (tbl : gmap string (gmap string (Z * Z)))
    (first_table : gmap string (Z * Z)) (rest : list string) :
  ctrl_tables_available tbl rest = Ok () →
  ∃ different,
    any_table_differs tbl first_table rest = Ok different
    ∧ (different = true ↔ ∃ m, m ∈ rest ∧ tbl !! m ≠ Some first_table).
Proof.
  induction rest as [|m rest IH]; cbn [ctrl_tables_available any_table_differs].
  - intros _. exists false. split; [done|]. split; [done|].
    intros (m & Hm & _). by apply elem_of_nil in Hm.
  - unfold get_ctrl_table, mbind, Result_bind.
    destruct (tbl !! m) as [t|] eqn:Hm; [|done]. intros Hrest.
    case_decide as Hdiff.
    + exists true. split; [done|]. split; [|done]. intros _.
      exists m. split; [apply list_elem_of_here|]. rewrite Hm. congruence.
    + destruct (IH Hrest) as (different & Hrun & Hiff).
      exists different. split; [done|]. rewrite Hiff. split.
      * intros (m' & Hm' & Hne). exists m'. split; [by apply list_elem_of_further | done].
      * intros (m' & Hm' & Hne). apply elem_of_cons in Hm' as [->|Hm'].
        -- exfalso. apply Hne. rewrite Hm. f_equal.
           destruct (decide (first_table = t)); [done|]. by destruct Hdiff.
        -- by exists m'.
Qed.

Lemma _has_different_ctrl_tables_body_spec (b : MotorsBus) :
  ctrl_tables_available (model_ctrl_table (cls b)) (models b) = Ok () →
  ∃ different,
    _has_different_ctrl_tables_body b = Ok different
    ∧ (different = true ↔
       ∃ m1 m2, m1 ∈ models b ∧ m2 ∈ models b
                ∧ model_ctrl_table (cls b) !! m1 ≠ model_ctrl_table (cls b) !! m2).
Proof.
  unfold _has_different_ctrl_tables_body.
  destruct (models b) as [|model0 [|model1 rest]] eqn:Hmodels.
  - intros _. exists false. split; [done|]. split; [done|].
    intros (m1 & _ & Hm1 & _). by apply elem_of_nil in Hm1.
  - intros _. exists false. split; [done|]. split; [done|].
    intros (m1 & m2 & Hm1 & Hm2 & Hne).
    apply list_elem_of_singleton in Hm1, Hm2. by subst.
  - intros Hall.
    assert (is_Some (model_ctrl_table (cls b) !! model0)) as [first_table Hfirst]
      by (eapply ctrl_tables_available_iff; [exact Hall | apply list_elem_of_here]).
    assert (ctrl_tables_available (model_ctrl_table (cls b)) (model1 :: rest) = Ok ())
      as Hrest.
    { apply ctrl_tables_available_iff. intros m Hm.
      eapply ctrl_tables_available_iff; [exact Hall | by apply list_elem_of_further]. }
    rewrite Hfirst.
    destruct (any_table_differs_spec _ first_table _ Hrest) as (different & Hrun & Hiff).
    exists different. split; [done|]. rewrite Hiff. split.
    + intros (m & Hm & Hne). exists m, model0. split_and!.
      * by apply list_elem_of_further.
      * apply list_elem_of_here.
      * by rewrite Hfirst.
    + intros (m1 & m2 & Hm1 & Hm2 & Hne).
      destruct (decide (model_ctrl_table (cls b) !! m1 = Some first_table)) as [H1|H1].
      * exists m2. split.
        -- apply elem_of_cons in Hm2 as [->|Hm2]; [|done].
           exfalso. apply Hne. by rewrite H1, Hfirst.
        -- intros H2. apply Hne. by rewrite H1, H2.
      * exists m1. split; [|done].
        apply elem_of_cons in Hm1 as [->|Hm1]; [|done]. by destruct H1.
Qed.

(** X2.  The comparison behind [_has_different_ctrl_tables]: on a bus with
    fewer than two motors it answers [False] without looking at any table;
    when every model has a control table, it answers [True] exactly when two
    motors of the bus have models with different control tables. *)
Theorem X2_has_different_ctrl_tables_iff (b : MotorsBus) :
  ((length (motors b) < 2)%nat → _has_different_ctrl_tables_body b = Ok false)
  ∧ (ctrl_tables_available (model_ctrl_table (cls b)) (models b) = Ok () →
     ∃ different,
       _has_different_ctrl_tables_body b = Ok different
       ∧ (different = true ↔
          ∃ m1 m2, m1 ∈ models b ∧ m2 ∈ models b
                   ∧ model_ctrl_table (cls b) !! m1 ≠ model_ctrl_table (cls b) !! m2)).
Proof.
  split; [|apply _has_different_ctrl_tables_body_spec].
  unfold _has_different_ctrl_tables_body, models, Dict.values.
  destruct (motors b) as [|item0 [|item1 rest]]; cbn; [done | done | lia].
Qed.

(** X2 on the buses of the fixture: one motor, two motors of one model, and
    two motors of two models. *)
Lemma X2_has_different_ctrl_tables_iff_witness :
  let t := Fixture.wire false (Fixture.always (0, 0)) 0 in
  _has_different_ctrl_tables_body (Fixture.gripper RANGE_0_100 t) = Ok false
  ∧ (∃ different,
       _has_different_ctrl_tables_body (Fixture.mixed t) = Ok different
       ∧ (different = true ↔
          ∃ m1 m2, m1 ∈ models (Fixture.mixed t) ∧ m2 ∈ models (Fixture.mixed t)
                   ∧ model_ctrl_table Fixture.klass !! m1 ≠ model_ctrl_table Fixture.klass !! m2)).
Proof.
  intros t. split.
  - apply (X2_has_different_ctrl_tables_iff (Fixture.gripper RANGE_0_100 t)).
    cbn. lia.
  - apply (X2_has_different_ctrl_tables_iff (Fixture.mixed t)).
    vm_compute. reflexivity.
Defined.

(** ** Validation of the motors *)

Lemma ctrl_tables_available_missing (tbl : gmap string (gmap string (Z * Z)))
    (pre post : list string) (model : string) :
  (∀ m, m ∈ pre → is_Some (tbl !! m)) → tbl !! model = None →
  ctrl_tables_available tbl (pre ++ model :: post) = Raise (KeyError_ctrl_table model).
Proof.
  intros Hpre Hmodel. induction pre as [|m pre IH]; cbn [app ctrl_tables_available].
  - unfold get_ctrl_table. by rewrite Hmodel.
  - unfold get_ctrl_table at 1.
    destruct (Hpre m) as [t Ht]; [apply list_elem_of_here|]. rewrite Ht.
    unfold mbind, Result_bind. apply IH. intros m' Hm'. apply Hpre.
    by apply list_elem_of_further.
Qed.

Lemma distinct_ids_iff (l : list Z) :
  length l ≠ size (list_to_set l : gset Z) ↔ ¬ NoDup l.
Proof.
  split.
  - intros Hne Hnd. apply Hne. symmetry. by apply size_list_to_set.
  - intros Hdup Heq. apply Hdup. by apply size_list_to_set_NoDup.
Qed.

(** X3.  [_validate_motors] never changes the bus, and it returns exactly
    when the ids of the motors are pairwise distinct and every model has a
    control table.  With distinct ids, the error is the [KeyError] of
    [get_ctrl_table] for the first model, in the order of [motors], that has
    no control table. *)
Theorem X3_validate_motors_iff (b : MotorsBus) :
  (_validate_motors b).2 = b
  ∧ ((_validate_motors b).1 = Ok () ↔
       NoDup (ids b)
       ∧ ∀ model, model ∈ models b → is_Some (model_ctrl_table (cls b) !! model))
  ∧ (NoDup (ids b) →
     ∀ pre model post,
       models b = pre ++ model :: post →
       (∀ m, m ∈ pre → is_Some (model_ctrl_table (cls b) !! m)) →
       model_ctrl_table (cls b) !! model = None →
       _validate_motors b = (Raise (KeyError_ctrl_table model), b)).
Proof.
  unfold _validate_motors. split_and!.
  - by case_decide.
  - case_decide as Hlen; cbn [fst].
    + apply distinct_ids_iff in Hlen. split; [done|]. by intros [Hnd _].
    + rewrite ctrl_tables_available_iff. split.
      * intros Hall. split; [|done].
        destruct (decide (NoDup (ids b))) as [|Hdup]; [done|].
        by apply distinct_ids_iff in Hdup.
      * by intros [_ Hall].
  - intros Hnd pre model post Hmodels Hpre Hmodel.
    case_decide as Hlen; [by apply distinct_ids_iff in Hlen|].
    rewrite Hmodels. by rewrite ctrl_tables_available_missing.
Qed.

(** X3 on a bus of the fixture whose second motor is of a model that the
    class has no control table for. *)
Lemma X3_validate_motors_iff_witness :
  let t := Fixture.wire false (Fixture.always (0, 0)) 0 in
  let b := __init__ Fixture.klass t "/dev/ttyACM0"
             [("shoulder", {| m_id := 1; m_model := "sts3215"; norm_mode := RANGE_M100_100 |});
              ("wrist", {| m_id := 2; m_model := "scs0009"; norm_mode := RANGE_M100_100 |})]
             None in
  (_validate_motors (Fixture.arm t)).1 = Ok ()
  ∧ _validate_motors b = (Raise (KeyError_ctrl_table "scs0009"), b).
Proof.
  intros t b. split.
  - apply (X3_validate_motors_iff (Fixture.arm t)). split.
    + apply (bool_decide_unpack _). vm_compute. exact I.
    + intros model Hmodel. cbn in Hmodel.
      apply elem_of_cons in Hmodel as [->|Hmodel]; [by eexists|].
      apply list_elem_of_singleton in Hmodel as ->. by eexists.
  - apply (X3_validate_motors_iff b) with (pre := ["sts3215"]) (post := []).
    + apply (bool_decide_unpack _). vm_compute. exact I.
    + reflexivity.
    + intros m Hm. apply list_elem_of_singleton in Hm as ->. by eexists.
    + reflexivity.
Defined.

(** ** The lookup tables of [__init__] *)

Section comp_last.
Context {K V A : Type} `{EqDecision K}.

Lemma dict_get_foldl_other (key : A → K) (val : A → V) (xs : list A) (d : dict K V) (k : K) :
  (∀ x, x ∈ xs → key x ≠ k) →
  Dict.get k (foldl (λ d x, Dict.set (key x) (val x) d) d xs) = Dict.get k d.
Proof.
  revert d. induction xs as [|x xs IH]; intros d Hxs; cbn [foldl]; [done|].
  rewrite IH by (intros y Hy; apply Hxs; by apply list_elem_of_further).
  apply dict_get_set_ne. apply Hxs, list_elem_of_here.
Qed.

(** A comprehension keeps, for every key, the value of the last element
    with that key. *)
Lemma dict_get_comp_last (key : A → K) (val : A → V) (pre post : list A) (x : A) :
  (∀ y, y ∈ post → key y ≠ key x) →
  Dict.get (key x) (Dict.comp key val (pre ++ x :: post)) = Some (val x).
Proof.
  intros Hpost. unfold Dict.comp. rewrite foldl_app. cbn [foldl].
  rewrite dict_get_foldl_other by done. apply dict_get_set_eq.
Qed.

Lemma dict_get_comp_None (key : A → K) (val : A → V) (xs : list A) (k : K) :
  k ∉ key <$> xs → Dict.get k (Dict.comp key val xs) = None.
Proof.
  intros Hk. unfold Dict.comp. rewrite dict_get_foldl_other; [done|].
  intros x Hx Heq. apply Hk. apply list_elem_of_fmap. by exists x.
Qed.
End comp_last.

Lemma subscript_Some {K V : Type} `{EqDecision K} (inj : K → NameOrID) (d : dict K V)
    (k : K) (v : V) :
  Dict.get k d = Some v → subscript inj d k = Ok v.
Proof. unfold subscript. by intros ->. Qed.

Lemma subscript_None {K V : Type} `{EqDecision K} (inj : K → NameOrID) (d : dict K V)
    (k : K) :
  Dict.get k d = None → subscript inj d k = Raise (KeyError (inj k)).
Proof. unfold subscript. by intros ->. Qed.

(** X4.  On a bus whose motors have pairwise distinct ids, the lookups by
    name and by id are inverse to each other: the name of a motor resolves to
    its id and the id back to the name, and both resolve to the model of the
    motor.  An id that no motor has is refused with [KeyError] by the lookups
    by id, while [_get_motor_id] returns an integer as it is given. *)
Theorem X4_lookup_round_trip (b : MotorsBus) :
  valid_bus b →
  (∀ name motor, (name, motor) ∈ motors b →
     _get_motor_id (Name name) b = (Ok (m_id motor), b)
     ∧ _id_to_name (m_id motor) b = (Ok name, b)
     ∧ _id_to_model (m_id motor) b = (Ok (m_model motor), b)
     ∧ _get_motor_model (Name name) b = (Ok (m_model motor), b)
     ∧ _get_motor_model (ID (m_id motor)) b = (Ok (m_model motor), b))
  ∧ (∀ id_, id_ ∉ ids b →
       _get_motor_id (ID id_) b = (Ok id_, b)
       ∧ _id_to_name id_ b = (Raise (KeyError (ID id_)), b)
       ∧ _id_to_model id_ b = (Raise (KeyError (ID id_)), b)
       ∧ _get_motor_model (ID id_) b = (Raise (KeyError (ID id_)), b))
  ∧ (∀ name, name ∉ names b →
       _get_motor_id (Name name) b = (Raise (KeyError (Name name)), b)
       ∧ _get_motor_model (Name name) b = (Raise (KeyError (Name name)), b)).
Proof.
  intros Hvalid. split_and!.
  - intros name motor Hin.
    destruct (lookups_of_motor b name motor Hvalid Hin) as (Hname & Hmodel & Hmotor).
    unfold _get_motor_id, _id_to_name, _id_to_model, _get_motor_model.
    rewrite (subscript_Some Name _ _ _ Hmotor), (subscript_Some ID _ _ _ Hname),
      (subscript_Some ID _ _ _ Hmodel).
    done.
  - intros id_ Hid. destruct Hvalid as (_ & _ & Hmodel & Hname).
    unfold _get_motor_id, _id_to_name, _id_to_model, _get_motor_model.
    rewrite !subscript_None; [done | |].
    + rewrite Hmodel. by apply dict_get_comp_None.
    + rewrite Hname. apply dict_get_comp_None. by rewrite <- ids_of_motors.
  - intros name Hname. unfold _get_motor_id, _get_motor_model.
    rewrite subscript_None; [done|]. by apply dict_get_None.
Qed.

(** X5.  The tables that [__init__] derives keep, for an id, the last motor
    that has it: when no motor after [name] in [motors] has the id of
    [name], the id resolves to [name] and to its model, whatever comes
    before it. *)
Theorem X5_init_keeps_last_motor (c : MotorsBusClass) (t : Transport) (port : string)
    (calibration : option (dict string MotorCalibration))
    (pre post : dict string Motor) (name : string) (motor : Motor) :
  (∀ item, item ∈ post → m_id item.2 ≠ m_id motor) →
  let b := __init__ c t port (pre ++ (name, motor) :: post) calibration in
  _id_to_name (m_id motor) b = (Ok name, b)
  ∧ _id_to_model (m_id motor) b = (Ok (m_model motor), b)
  ∧ _get_motor_model (ID (m_id motor)) b = (Ok (m_model motor), b).
Proof.
  intros Hpost b.
  assert (Dict.get (m_id motor) (_id_to_name_dict b) = Some name) as Hname.
  { subst b. cbn [_id_to_name_dict __init__].
    by apply (dict_get_comp_last (λ item : string * Motor, m_id item.2) fst pre post
                (name, motor)). }
  assert (Dict.get (m_id motor) (_id_to_model_dict b) = Some (m_model motor)) as Hmodel.
  { subst b. cbn [_id_to_model_dict __init__]. unfold Dict.values.
    rewrite fmap_app, fmap_cons. cbn [snd].
    apply (dict_get_comp_last m_id m_model). intros m Hm.
    apply list_elem_of_fmap in Hm as (item & -> & Hitem). by apply Hpost. }
  unfold _id_to_name, _id_to_model, _get_motor_model.
  by rewrite (subscript_Some ID _ _ _ Hname), (subscript_Some ID _ _ _ Hmodel).
Qed.

(** X6.  [_model_nb_to_model] inverts [model_number_table]: a model number
    resolves to the last model of the table that has it, so to the model
    itself when the numbers of the table are pairwise distinct; a number
    that is not in the table is refused with [KeyError]. *)
Theorem X6_model_nb_to_model (c : MotorsBusClass) (t : Transport) (port : string)
    (ms : dict string Motor) (calibration : option (dict string MotorCalibration)) :
  let b := __init__ c t port ms calibration in
  (∀ pre post model nb,
     model_number_table c = pre ++ (model, nb) :: post →
     (∀ item, item ∈ post → item.2 ≠ nb) →
     _model_nb_to_model nb b = (Ok model, b))
  ∧ (NoDup (Dict.values (model_number_table c)) →
     ∀ model nb, (model, nb) ∈ model_number_table c →
       _model_nb_to_model nb b = (Ok model, b))
  ∧ (∀ nb, nb ∉ Dict.values (model_number_table c) →
       _model_nb_to_model nb b = (Raise (KeyError (ID nb)), b)).
Proof.
  intros b.
  assert (∀ pre post model nb,
            model_number_table c = pre ++ (model, nb) :: post →
            (∀ item : string * Z, item ∈ post → item.2 ≠ nb) →
            _model_nb_to_model nb b = (Ok model, b)) as Hlast.
  { intros pre post model nb Htable Hpost. unfold _model_nb_to_model.
    rewrite (subscript_Some ID _ _ model); [done|].
    subst b. cbn [_model_nb_to_model_dict __init__]. rewrite Htable.
    by apply (dict_get_comp_last (snd : string * Z → Z) fst pre post (model, nb)). }
  split_and!; [exact Hlast | |].
  - intros Hnd model nb Hin.
    apply list_elem_of_split in Hin as (pre & post & Htable).
    apply (Hlast pre post); [done|]. intros item Hitem Heq.
    unfold Dict.values in Hnd. rewrite Htable, fmap_app, fmap_cons in Hnd.
    apply NoDup_app in Hnd as (_ & _ & Hnd). apply NoDup_cons in Hnd as [Hnb _].
    apply Hnb. cbn [snd]. rewrite <- Heq. apply list_elem_of_fmap. by exists item.
  - intros nb Hnb. unfold _model_nb_to_model. rewrite subscript_None; [done|].
    subst b. cbn [_model_nb_to_model_dict __init__]. by apply dict_get_comp_None.
Qed.

(** X4 on the two-motor bus of the fixture. *)
Lemma X4_lookup_round_trip_witness :
  let b := Fixture.arm (Fixture.wire false (Fixture.always (0, 0)) 0) in
  _get_motor_id (Name "gripper") b = (Ok 6, b)
  ∧ _id_to_name 6 b = (Ok "gripper", b)
  ∧ _id_to_model 7 b = (Raise (KeyError (ID 7)), b)
  ∧ _get_motor_id (Name "elbow") b = (Raise (KeyError (Name "elbow")), b).
Proof.
  intros b.
  assert (valid_bus b) as Hvalid.
  { split_and!; [| |apply init_derived_dicts_ok];
      apply (bool_decide_unpack _); vm_compute; exact I. }
  destruct (X4_lookup_round_trip b Hvalid) as (Hknown & Hid & Hname).
  destruct (Hknown "gripper" {| m_id := 6; m_model := "sts3215"; norm_mode := RANGE_0_100 |})
    as (Hget & Hback & _).
  { apply list_elem_of_further, list_elem_of_here. }
  destruct (Hid 7) as (_ & _ & Hmodel & _).
  { apply (bool_decide_unpack _). vm_compute. exact I. }
  destruct (Hname "elbow") as (Hunknown & _).
  { apply (bool_decide_unpack _). vm_compute. exact I. }
  split_and!; [exact Hget | exact Hback | exact Hmodel | exact Hunknown].
Defined.

(** X5 on the bus of the fixture that gives one id to two names: the id
    resolves to the second name. *)
Lemma X5_init_keeps_last_motor_witness :
  let b := Fixture.clash (Fixture.wire false (Fixture.always (0, 0)) 0) in
  _id_to_name 1 b = (Ok "elbow", b).
Proof.
  intros b.
  apply (X5_init_keeps_last_motor Fixture.klass
           (Fixture.wire false (Fixture.always (0, 0)) 0) "/dev/ttyACM0" None
           [("shoulder", {| m_id := 1; m_model := "sts3215"; norm_mode := RANGE_M100_100 |})]
           [] "elbow" {| m_id := 1; m_model := "sts3215"; norm_mode := RANGE_M100_100 |}).
  intros item Hitem. by apply elem_of_nil in Hitem.
Defined.

(** X6 on the class of the fixture. *)
Lemma X6_model_nb_to_model_witness :
  let b := Fixture.arm (Fixture.wire false (Fixture.always (0, 0)) 0) in
  _model_nb_to_model 1060 b = (Ok "xl430", b)
  ∧ _model_nb_to_model 12 b = (Raise (KeyError (ID 12)), b).
Proof.
  intros b.
  destruct (X6_model_nb_to_model Fixture.klass
              (Fixture.wire false (Fixture.always (0, 0)) 0) "/dev/ttyACM0"
              (motors b) (Some (calibration b))) as (_ & Hknown & Hunknown).
  split.
  - apply (Hknown ltac:(apply (bool_decide_unpack _); vm_compute; exact I) "xl430" 1060).
    apply list_elem_of_further, list_elem_of_here.
  - apply (Hunknown 12). apply (bool_decide_unpack _). vm_compute. exact I.
Defined.

(** ** The handshake of [connect] *)

Section handshake.
Context {F : Type} `{PyFloat F} `{Overrides F}.

Lemma expected_models_of_state (ms : list Motor) (acc : dict Z Z) (b : MotorsBus) :
  (expected_models_of ms acc b).2 = b.
Proof.
  revert acc. induction ms as [|m ms IH]; intros acc; cbn [expected_models_of]; [done|].
  unfold mbind at 1, M_bind at 1.
  destruct (subscript Name (model_number_table (cls b)) (m_model m)); [apply IH | done].
Qed.

Lemma expected_models_of_Ok (ms : list Motor) (acc expected : dict Z Z) (b : MotorsBus) :
  (expected_models_of ms acc b).1 = Ok expected →
  ∃ nbs, Forall2 (λ m nb, Dict.get (m_model m) (model_number_table (cls b)) = Some nb) ms nbs.
Proof.
  revert acc. induction ms as [|m ms IH]; intros acc; cbn [expected_models_of].
  - intros _. exists []. constructor.
  - unfold mbind at 1, M_bind at 1, subscript.
    destruct (Dict.get (m_model m) (model_number_table (cls b))) as [nb|] eqn:Hnb; [|done].
    intros Hrest. destruct (IH _ Hrest) as [nbs Hnbs]. exists (nb :: nbs). by constructor.
Qed.

Lemma expected_models_of_distinct (ms : list Motor) (nbs : list Z) (acc : dict Z Z)
    (b : MotorsBus) :
  Forall2 (λ m nb, Dict.get (m_model m) (model_number_table (cls b)) = Some nb) ms nbs →
  NoDup (Dict.keys acc ++ (m_id <$> ms)) →
  expected_models_of ms acc b = (Ok (acc ++ zip (m_id <$> ms) nbs), b).
Proof.
  intros Hnbs. revert acc.
  induction Hnbs as [|m nb ms nbs Hnb Hrest IH]; intros acc Hnd; cbn [expected_models_of].
  - cbn. by rewrite app_nil_r.
  - unfold mbind at 1, M_bind at 1. rewrite (subscript_Some Name _ _ _ Hnb).
    rewrite fmap_cons in Hnd.
    assert (m_id m ∉ Dict.keys acc) as Hfresh.
    { intros Hin. apply NoDup_app in Hnd as (_ & Hnd & _).
      apply (Hnd (m_id m)); [done | apply list_elem_of_here]. }
    rewrite dict_set_fresh by done.
    rewrite IH.
    + rewrite fmap_cons. cbn [zip zip_with]. by rewrite <- app_assoc.
    + unfold Dict.keys. rewrite fmap_app. cbn [fmap list_fmap fst].
      rewrite <- app_assoc. exact Hnd.
Qed.

Lemma check_found_models_state (found : dict Z Z) (expected : list (Z * Z)) (b : MotorsBus) :
  (check_found_models found expected b).2 = b.
Proof.
  induction expected as [|[id_ model] rest IH]; cbn [check_found_models]; [done|].
  unfold mbind, M_bind, lift, raise.
  destruct (subscript ID found id_); [|done]. by case_decide.
Qed.

Lemma check_found_models_Ok (found : dict Z Z) (expected : list (Z * Z)) (b : MotorsBus) :
  (check_found_models found expected b).1 = Ok () ↔
  ∀ id_ model, (id_, model) ∈ expected → Dict.get id_ found = Some model.
Proof.
  induction expected as [|[id_ model] rest IH]; cbn [check_found_models].
  - split; [|done]. intros _ id_ model Hin. by apply elem_of_nil in Hin.
  - unfold mbind, M_bind, lift, raise, subscript.
    destruct (Dict.get id_ found) as [nb|] eqn:Hnb.
    + case_decide as Hne.
      * split; [done|]. intros Hall.
        specialize (Hall id_ model (list_elem_of_here _ _)). congruence.
      * assert (nb = model) as -> by (destruct (decide (nb = model)); [done | by destruct Hne]).
        rewrite IH. split.
        -- intros Hall id' model' [[= -> ->]|Hin]%elem_of_cons; [done | by apply Hall].
        -- intros Hall id' model' Hin. apply Hall. by apply list_elem_of_further.
    + split; [done|]. intros Hall.
      specialize (Hall id_ model (list_elem_of_here _ _)). congruence.
Qed.

(** [_assert_motors_exist] once [broadcast_ping] has answered and the
    expected model numbers are known. *)
Lemma _assert_motors_exist_after (b b' : MotorsBus) (found : option (dict Z Z))
    (expected : dict Z Z) :
  broadcast_ping 0 false b = (Ok found, b') →
  expected_models_of (Dict.values (motors b')) [] b' = (Ok expected, b') →
  _assert_motors_exist b
  = match found with
    | Some ((_ :: _) as f) =>
        if decide ((list_to_set (Dict.keys f) : gset Z) ≠ list_to_set (ids b')) then
          (Raise (RuntimeError_motors expected found), b')
        else check_found_models f expected b'
    | _ => (Raise (RuntimeError_motors expected found), b')
    end.
Proof.
  intros Hping Hexpected. unfold _assert_motors_exist.
  erewrite bind_Ok; [|exact Hping]. cbv beta.
  erewrite bind_Ok; [|reflexivity]. cbv beta.
  erewrite bind_Ok; [|exact Hexpected]. cbv beta.
  erewrite bind_Ok; [|reflexivity]. cbv beta.
  destruct found as [[|item f]|]; [done | | done].
  by case_decide.
Qed.

Lemma Forall_exists_Forall2 {A B : Type} (P : A → B → Prop) (l : list A) :
  (∀ x, x ∈ l → ∃ y, P x y) → ∃ k, Forall2 P l k.
Proof.
  induction l as [|x l IH]; intros Hall.
  - exists []. constructor.
  - destruct (Hall x (list_elem_of_here _ _)) as [y Hy].
    destruct IH as [k Hk]; [intros z Hz; apply Hall; by apply list_elem_of_further|].
    exists (y :: k). by constructor.
Qed.

(** X7.  [_assert_motors_exist], on a bus with pairwise distinct ids and
    once [broadcast_ping] has answered: it returns exactly when the answer
    is a non-empty dictionary whose ids are those of the bus, and which
    gives, for every motor, the model number that [model_number_table] has
    for the model of the motor.  It leaves the bus as [broadcast_ping] left
    it. *)
Theorem X7_assert_motors_exist_iff (b b' : MotorsBus) (found : option (dict Z Z)) :
  broadcast_ping 0 false b = (Ok found, b') →
  NoDup (ids b') →
  (_assert_motors_exist b).2 = b'
  ∧ ((_assert_motors_exist b).1 = Ok () ↔
       ∃ f, found = Some f ∧ f ≠ []
            ∧ (∀ id_, id_ ∈ Dict.keys f ↔ id_ ∈ ids b')
            ∧ ∀ m, m ∈ Dict.values (motors b') →
                ∃ nb, Dict.get (m_model m) (model_number_table (cls b')) = Some nb
                      ∧ Dict.get (m_id m) f = Some nb).
Proof.
  intros Hping Hnd.
  pose proof (expected_models_of_state (Dict.values (motors b')) [] b') as Hstate.
  destruct (expected_models_of (Dict.values (motors b')) [] b') as [[expected|e] b2]
    eqn:Hexpected; cbn [snd] in Hstate; subst b2.
  - destruct (expected_models_of_Ok (Dict.values (motors b')) [] expected b') as [nbs Hnbs];
      [by rewrite Hexpected|].
    rewrite (expected_models_of_distinct _ nbs [] b' Hnbs Hnd) in Hexpected.
    injection Hexpected as <-. cbn [app].
    rewrite (_assert_motors_exist_after b b' found _ Hping
               (expected_models_of_distinct _ nbs [] b' Hnbs Hnd)).
    cbn [app].
    assert (∀ f : dict Z Z,
              (∀ id_ model, (id_, model) ∈ zip (m_id <$> Dict.values (motors b')) nbs →
                            Dict.get id_ f = Some model) ↔
              (∀ m, m ∈ Dict.values (motors b') →
                 ∃ nb, Dict.get (m_model m) (model_number_table (cls b')) = Some nb
                       ∧ Dict.get (m_id m) f = Some nb)) as Hcheck.
    { intros f. split.
      - intros Hall m Hm. apply list_elem_of_lookup in Hm as [i Hi].
        destruct (Forall2_lookup_l _ _ _ _ _ Hnbs Hi) as (nb & Hnb & Hget).
        exists nb. split; [done|]. apply Hall.
        apply list_elem_of_lookup. exists i.
        apply lookup_zip_with_Some. exists (m_id m), nb. split_and!; [done| |done].
        by rewrite list_lookup_fmap, Hi.
      - intros Hall id_ model Hin. apply list_elem_of_lookup in Hin as [i Hi].
        apply lookup_zip_with_Some in Hi as (id' & nb' & [= <- <-] & Hid & Hnb).
        rewrite list_lookup_fmap in Hid.
        destruct (Dict.values (motors b') !! i) as [m|] eqn:Hm; [|done].
        injection Hid as <-.
        destruct (Hall m) as (nb & Hget & Hfound); [by eapply list_elem_of_lookup_2|].
        destruct (Forall2_lookup_l _ _ _ _ _ Hnbs Hm) as (nb2 & Hnb2 & Hget2).
        congruence. }
    destruct found as [[|item f]|].
    + split; [done|]. split; [done|]. by intros (f & [= <-] & Hne & _).
    + case_decide as Hset.
      * split; [done|]. split; [done|].
        intros (f' & [= <-] & _ & Hkeys & _). exfalso. apply Hset.
        apply set_eq. intros id_. rewrite !elem_of_list_to_set. apply Hkeys.
      * split; [apply check_found_models_state|].
        rewrite check_found_models_Ok, Hcheck. split.
        -- intros Hall. exists (item :: f). split_and!; [done | done | | done].
           intros id_.
           assert ((list_to_set (Dict.keys (item :: f)) : gset Z) = list_to_set (ids b'))
             as Heq by (destruct (decide ((list_to_set (Dict.keys (item :: f)) : gset Z)
                                          = list_to_set (ids b'))); [done | by destruct Hset]).
           rewrite <- (elem_of_list_to_set (C := gset Z) id_ (Dict.keys (item :: f))), Heq.
           apply elem_of_list_to_set.
        -- by intros (f' & [= <-] & _ & _ & Hall).
    + split; [done|]. split; [done|]. by intros (f & [=] & _).
  - unfold _assert_motors_exist.
    erewrite bind_Ok; [|exact Hping]. cbv beta.
    erewrite bind_Ok; [|reflexivity]. cbv beta.
    erewrite bind_Raise; [|exact Hexpected].
    split; [done|]. split; [done|].
    intros (f & _ & _ & _ & Hall).
    destruct (Forall_exists_Forall2
                (λ m nb, Dict.get (m_model m) (model_number_table (cls b')) = Some nb)
                (Dict.values (motors b'))) as [nbs Hnbs].
    { intros m Hm. destruct (Hall m Hm) as (nb & Hnb & _). by exists nb. }
    rewrite (expected_models_of_distinct _ nbs [] b' Hnbs Hnd) in Hexpected. discriminate.
Qed.
End handshake.

(** X7 on the two-motor bus of the fixture, with a [broadcast_ping] that
    finds both motors with the model number of their model. *)
Lemma X7_assert_motors_exist_iff_witness :
  let b := Fixture.arm (Fixture.wire true (Fixture.always (0, 0)) 0) in
  @_assert_motors_exist float Responding.overrides b = (Ok (), b).
Proof.
  intros b.
  destruct (@X7_assert_motors_exist_iff float Responding.overrides b b
              (Some [(1, 777); (6, 777)])) as [Hstate [_ Hreturns]].
  - reflexivity.
  - apply (bool_decide_unpack _). vm_compute. exact I.
  - apply injective_projections; [|exact Hstate].
    apply Hreturns. exists [(1, 777); (6, 777)]. split_and!; [done | done | |].
    + intros id_. reflexivity.
    + intros m Hm. exists 777. cbn in Hm.
      apply elem_of_cons in Hm as [->|Hm]; [done|].
      apply list_elem_of_singleton in Hm as ->. done.
Defined.

(** ** Connecting and disconnecting *)

Section connection.
Context {F : Type} `{PyFloat F} `{Overrides F}.

Lemma openPort_opens (b : MotorsBus) :
  open_outcome (transport b) = OpenTrue → openPort b = (Ok true, opened_port b).
Proof. unfold openPort. by intros ->. Qed.

(** X8.  On a bus that is not connected and whose port opens, [connect]
    without the handshake returns with the port open and the timeout of the
    class; [disconnect] then closes the port and changes nothing else, so
    that the bus can be connected again. *)
Theorem X8_connect_then_disconnect (b : MotorsBus) :
  is_connected b = false → open_outcome (transport b) = OpenTrue →
  let connected := timeout_set (default_timeout (cls b)) (opened_port b) in
  connect false b = (Ok (), connected)
  ∧ is_connected connected = true
  ∧ disconnect connected = (Ok (), timeout_set (default_timeout (cls b)) b)
  ∧ connect false (timeout_set (default_timeout (cls b)) b) = (Ok (), connected).
Proof.
  intros Hoff Hopen connected.
  assert (∀ b0, is_connected b0 = false → open_outcome (transport b0) = OpenTrue →
                connect false b0
                = (Ok (), timeout_set (default_timeout (cls b0)) (opened_port b0))) as Hconnect.
  { intros b0 Hoff0 Hopen0. unfold connect. rewrite Hoff0. cbv zeta.
    erewrite bind_Ok; [|by apply openPort_opens]. reflexivity. }
  split_and!.
  - by apply Hconnect.
  - reflexivity.
  - subst connected. clear Hconnect. unfold is_connected in Hoff.
    destruct b as [? ? ? ? ? ? ? ? [? ? ? ? ? ? ? ? ? ?]].
    cbn in Hoff, Hopen. subst. reflexivity.
  - rewrite Hconnect; [|done|done]. f_equal.
Qed.

(** X9.  On a bus that is not connected and whose port does not open,
    because [openPort] answers [False] or raises, [connect] raises the
    [ConnectionError] that names the port and leaves the bus as it was: the
    port is closed, the timeout is not set and [broadcast_ping] is not
    called. *)
Theorem X9_connect_port_failure (b : MotorsBus) (assert_motors_exist : bool) :
  is_connected b = false → open_outcome (transport b) ≠ OpenTrue →
  connect assert_motors_exist b = (Raise (ConnectionError_port (port b)), b).
Proof.
  intros Hoff Hopen. unfold connect. rewrite Hoff. cbv zeta.
  unfold mbind, M_bind, openPort, raise.
  by destruct (open_outcome (transport b)).
Qed.

(** X10.  When the port opens but [broadcast_ping] does not find the motors
    of the bus, [connect] raises the [RuntimeError] of [_assert_motors_exist]
    as it is, not a [ConnectionError], and the port stays open with the
    timeout not set: a second [connect] is refused as already connected. *)
Theorem X10_failed_handshake_leaves_port_open (b : MotorsBus) (found : option (dict Z Z))
    (expected : dict Z Z) :
  is_connected b = false → open_outcome (transport b) = OpenTrue →
  broadcast_ping 0 false (opened_port b) = (Ok found, opened_port b) →
  expected_models_of (Dict.values (motors b)) [] (opened_port b) = (Ok expected, opened_port b) →
  motors_missing b found →
  connect true b = (Raise (RuntimeError_motors expected found), opened_port b)
  ∧ is_connected (opened_port b) = true
  ∧ packet_timeout (transport (opened_port b)) = packet_timeout (transport b)
  ∧ ∀ assert_motors_exist,
      connect assert_motors_exist (opened_port b)
      = (Raise (DeviceAlreadyConnectedError (port b)), opened_port b).
Proof.
  intros Hoff Hopen Hping Hexpected Hmissing. split_and!; [| done | done | done].
  unfold connect. rewrite Hoff. cbv zeta.
  erewrite bind_Ok; [|by apply openPort_opens]. cbv beta. cbn [negb].
  rewrite (_assert_motors_exist_after (opened_port b) (opened_port b) found expected
             Hping Hexpected).
  destruct found as [[|item f]|]; [done | | done].
  unfold motors_missing in Hmissing. by case_decide.
Qed.
End connection.

(** X8 on the two-motor bus of the fixture. *)
Lemma X8_connect_then_disconnect_witness :
  let b := Fixture.arm (Fixture.wire false (Fixture.always (0, 0)) 0) in
  (connect false b).1 = Ok ()
  ∧ is_connected (connect false b).2 = true
  ∧ packet_timeout (transport (connect false b).2) = 1000
  ∧ is_connected (disconnect (connect false b).2).2 = false.
Proof.
  intros b.
  destruct (@X8_connect_then_disconnect float Fixture.overrides b eq_refl eq_refl)
    as (Hconnect & Hon & Hdisconnect & _).
  rewrite Hconnect. cbn [fst snd]. rewrite Hdisconnect. done.
Defined.

(** X9 on a bus whose port refuses to open. *)
Lemma X9_connect_port_failure_witness :
  let t := with_is_open false (Fixture.wire false (Fixture.always (0, 0)) 0) in
  let refusing :=
    {| is_open := false; open_outcome := OpenFalse; packet_timeout := packet_timeout t;
       sent := sent t; reply := reply t; rx_data := rx_data t;
       getTxRxResult := getTxRxResult t; getRxPacketError := getRxPacketError t;
       sync_reader := sync_reader t; sync_writer := sync_writer t |} in
  connect true (Fixture.arm refusing)
  = (Raise (ConnectionError_port "/dev/ttyACM0"), Fixture.arm refusing).
Proof.
  intros t refusing.
  apply (@X9_connect_port_failure float Fixture.overrides (Fixture.arm refusing) true);
    [reflexivity | discriminate].
Defined.

(** X10 on the two-motor bus of the fixture, whose [broadcast_ping] finds
    nothing. *)
Lemma X10_failed_handshake_leaves_port_open_witness :
  let b := Fixture.arm (Fixture.wire false (Fixture.always (0, 0)) 0) in
  connect true b = (Raise (RuntimeError_motors [(1, 777); (6, 777)] None), opened_port b)
  ∧ is_connected (opened_port b) = true
  ∧ connect true (opened_port b)
    = (Raise (DeviceAlreadyConnectedError "/dev/ttyACM0"), opened_port b).
Proof.
  intros b.
  destruct (@X10_failed_handshake_leaves_port_open float Fixture.overrides b None [(1, 777); (6, 777)]
              eq_refl eq_refl eq_refl eq_refl I) as (Hraise & Hon & _ & Hagain).
  split_and!; [exact Hraise | exact Hon | apply Hagain].
Defined.

(** ** What reading and writing leave alone *)

Lemma frame_refl (b : MotorsBus) : frame b b.
Proof. unfold frame. split_and!; try done. exists []. by rewrite app_nil_r. Qed.

Lemma frame_trans (b1 b2 b3 : MotorsBus) : frame b1 b2 → frame b2 b3 → frame b1 b3.
Proof.
  unfold frame.
  intros (? & ? & ? & ? & ? & ? & ? & ? & ? & ? & ? & ? & extra1 & Hs1)
         (? & ? & ? & ? & ? & ? & ? & ? & ? & ? & ? & ? & extra2 & Hs2).
  split_and!; try congruence.
  exists (extra1 ++ extra2). by rewrite Hs2, Hs1, app_assoc.
Qed.

Lemma framed_ret {A : Type} (a : A) : framed (mret a).
Proof. intros b. apply frame_refl. Qed.

Lemma framed_raise {A : Type} (e : Exn) : framed (raise e : M A).
Proof. intros b. apply frame_refl. Qed.

Lemma framed_lift {A : Type} (r : Result A) : framed (lift r).
Proof. intros b. apply frame_refl. Qed.

Lemma framed_gets {A : Type} (f : MotorsBus → A) : framed (gets f).
Proof. intros b. apply frame_refl. Qed.

Lemma framed_pure {A : Type} (f : MotorsBus → Result A) : framed (λ b, (f b, b)).
Proof. intros b. apply frame_refl. Qed.

Lemma framed_bind {A B : Type} (m : M A) (f : A → M B) :
  framed m → (∀ a, framed (f a)) → framed (m ≫= f).
Proof.
  intros Hm Hf b. unfold mbind, M_bind. specialize (Hm b).
  destruct (m b) as [[a|e] b1]; cbn [snd] in *; [|done].
  eapply frame_trans; [exact Hm | apply Hf].
Qed.

Lemma framed_transmit (p : Packet) (b : MotorsBus) :
  frame b (with_transport (transmit p (transport b)).2 b).
Proof. unfold frame, transmit. cbn. split_and!; try done. by eexists. Qed.

Section framed_operations.
Context {F : Type} `{PyFloat F} `{Overrides F}.

Lemma framed__has_different_ctrl_tables : framed _has_different_ctrl_tables.
Proof.
  intros b. unfold _has_different_ctrl_tables.
  destruct (_has_different_ctrl_tables_cache b); [apply frame_refl|].
  destruct (_has_different_ctrl_tables_body b); [|apply frame_refl].
  unfold frame. cbn. split_and!; try done. exists []. by rewrite app_nil_r.
Qed.

Lemma framed__get_motor_id (motor : NameOrID) : framed (_get_motor_id motor).
Proof. intros b. rewrite _get_motor_id_state. apply frame_refl. Qed.

Lemma framed__get_motor_model (motor : NameOrID) : framed (_get_motor_model motor).
Proof. intros b. unfold _get_motor_model. destruct motor; apply frame_refl. Qed.

Lemma framed_models_of (motor_ids : list Z) : framed (models_of motor_ids).
Proof.
  induction motor_ids as [|id_ rest IH]; cbn [models_of]; [apply framed_ret|].
  apply framed_bind; [apply framed_pure|]. intros model.
  apply framed_bind; [exact IH|]. intros ms. apply framed_ret.
Qed.

Lemma framed_retry_loop {R : Type} (n : nat) (attempt : M R) (comm_of : R → Z)
    (last : option R) :
  framed attempt → framed (retry_loop n attempt comm_of last).
Proof.
  intros Hattempt. revert last.
  induction n as [|n IH]; intros last; cbn [retry_loop]; [apply framed_ret|].
  apply framed_bind; [exact Hattempt|]. intros r.
  apply framed_bind; [apply framed_gets|]. intros [|]; [apply framed_ret | apply IH].
Qed.

Lemma framed_sync_reader_txRxPacket : framed sync_reader_txRxPacket.
Proof. intros b. apply framed_transmit. Qed.

Lemma framed_sync_writer_txPacket : framed sync_writer_txPacket.
Proof. intros b. apply framed_transmit. Qed.

Lemma framed_writeTxRx (motor_id addr n_bytes : Z) (data : list Z) :
  framed (writeTxRx motor_id addr n_bytes data).
Proof. intros b. apply framed_transmit. Qed.

Lemma framed__setup_sync_reader (motor_ids : list Z) (addr n_bytes : Z) :
  framed (_setup_sync_reader motor_ids addr n_bytes).
Proof.
  intros b. unfold frame. cbn. split_and!; try done. exists []. by rewrite app_nil_r.
Qed.

Lemma framed_read_values (data_name : string) (motor_ids : list Z) (addr n_bytes : Z)
    (values : dict Z Z) :
  framed (read_values data_name motor_ids addr n_bytes values).
Proof.
  revert values. induction motor_ids as [|id_ rest IH]; intros values; cbn [read_values];
    [apply framed_ret|].
  apply framed_bind; [apply framed_gets|]. intros val.
  apply framed_bind; [apply framed_lift|]. intros decoded. apply IH.
Qed.

Lemma framed_guard (data_name : string) (motor_ids : list Z) (different : bool) :
  framed (if different then
            models ← models_of motor_ids;
            tbl ← gets (λ b, model_ctrl_table (cls b));
            lift (assert_same_address tbl models data_name)
          else mret ()).
Proof.
  destruct different; [|apply framed_ret].
  apply framed_bind; [apply framed_models_of|]. intros models.
  apply framed_bind; [apply framed_gets|]. intros tbl. apply framed_lift.
Qed.

Lemma framed__sync_read (data_name : string) (motor_ids : list Z) (model : option string)
    (num_retry : Z) :
  framed (_sync_read data_name motor_ids model num_retry).
Proof.
  unfold _sync_read.
  apply framed_bind; [apply framed__has_different_ctrl_tables|]. intros different.
  apply framed_bind; [apply framed_guard|]. intros _.
  apply framed_bind.
  { destruct model; [apply framed_ret|].
    destruct motor_ids; [apply framed_raise | apply framed_pure]. }
  intros model'.
  apply framed_bind; [apply framed_gets|]. intros tbl.
  apply framed_bind; [apply framed_lift|]. intros [addr n_bytes].
  apply framed_bind; [apply framed__setup_sync_reader|]. intros _.
  apply framed_bind; [apply framed_retry_loop, framed_sync_reader_txRxPacket|]. intros comm.
  apply framed_bind; [apply framed_read_values|]. intros values.
  destruct comm; [apply framed_ret | apply framed_raise].
Qed.

Lemma id_key_map_for_state (motors_ : MotorsArg) (b : MotorsBus) :
  (id_key_map_for motors_ b).2 = b.
Proof.
  destruct motors_ as [|motor|l|]; cbn [id_key_map_for];
    [done | | apply id_key_map_of_state | done].
  unfold mbind, M_bind. pose proof (_get_motor_id_state motor b) as Hstate.
  destruct (_get_motor_id motor b) as [[id_|e] b1]; cbn [snd] in *; by subst.
Qed.

Lemma framed_id_key_map_for (motors_ : MotorsArg) : framed (id_key_map_for motors_).
Proof. intros b. rewrite id_key_map_for_state. apply frame_refl. Qed.

Lemma framed_sync_read (data_name : string) (motors_ : MotorsArg) (normalize : bool)
    (num_retry : Z) :
  framed (sync_read data_name motors_ normalize num_retry).
Proof.
  unfold sync_read.
  apply framed_bind; [apply framed_gets|]. intros connected.
  destruct (negb connected).
  { apply framed_bind; [apply framed_gets|]. intros port. apply framed_raise. }
  apply framed_bind; [apply framed_id_key_map_for|]. intros id_key_map. cbv zeta.
  apply framed_bind; [apply framed__sync_read|]. intros [comm ids_values].
  apply framed_bind; [apply framed_gets|]. intros ok.
  destruct (negb ok).
  { apply framed_bind; [apply framed_gets|]. intros diag. apply framed_raise. }
  apply framed_bind; [apply framed_gets|]. intros required.
  apply framed_bind.
  { destruct (normalize && bool_decide (data_name ∈ required));
      [apply framed_pure | apply framed_ret]. }
  intros values. apply framed_lift.
Qed.

Lemma framed_add_params (n_bytes : Z) (items : list (Z * Z)) :
  framed (add_params n_bytes items).
Proof.
  induction items as [|[id_ value] rest IH]; cbn [add_params]; [apply framed_ret|].
  apply framed_bind; [apply framed_lift|]. intros data.
  apply framed_bind; [|intros _; exact IH].
  intros b. unfold frame. cbn. split_and!; try done. exists []. by rewrite app_nil_r.
Qed.

Lemma framed__setup_sync_writer (ids_values : dict Z Z) (addr n_bytes : Z) :
  framed (_setup_sync_writer ids_values addr n_bytes).
Proof.
  unfold _setup_sync_writer.
  apply framed_bind; [|intros _; apply framed_add_params].
  intros b. unfold frame. cbn. split_and!; try done. exists []. by rewrite app_nil_r.
Qed.

Lemma framed__sync_write (data_name : string) (ids_values : dict Z (Value F))
    (num_retry : Z) :
  framed (_sync_write data_name ids_values num_retry).
Proof.
  unfold _sync_write.
  apply framed_bind; [apply framed__has_different_ctrl_tables|]. intros different.
  apply framed_bind; [apply framed_guard|]. intros _.
  apply framed_bind.
  { destruct (Dict.keys ids_values); [apply framed_raise | apply framed_pure]. }
  intros model.
  apply framed_bind; [apply framed_gets|]. intros tbl.
  apply framed_bind; [apply framed_lift|]. intros [addr n_bytes].
  apply framed_bind; [apply framed_lift|]. intros encoded.
  apply framed_bind; [apply framed__setup_sync_writer|]. intros _.
  apply framed_bind; [apply framed_retry_loop, framed_sync_writer_txPacket|]. intros comm.
  destruct comm; [apply framed_ret | apply framed_raise].
Qed.

Lemma framed_ids_values_for (values : ValuesArg F) : framed (ids_values_for values).
Proof.
  intros b. destruct values as [[n|x]|d]; cbn [ids_values_for]; try apply frame_refl.
  rewrite ids_values_of_state. apply frame_refl.
Qed.

Lemma framed_sync_write (data_name : string) (values : ValuesArg F) (normalize : bool)
    (num_retry : Z) :
  framed (sync_write data_name values normalize num_retry).
Proof.
  unfold sync_write.
  apply framed_bind; [apply framed_gets|]. intros connected.
  destruct (negb connected).
  { apply framed_bind; [apply framed_gets|]. intros port. apply framed_raise. }
  apply framed_bind; [apply framed_ids_values_for|]. intros ids_values.
  unfold sync_write_ids_values.
  apply framed_bind; [apply framed_gets|]. intros required.
  apply framed_bind.
  { destruct (normalize && bool_decide (data_name ∈ required)); [|apply framed_ret].
    apply framed_bind; [apply framed_pure|]. intros raw. apply framed_ret. }
  intros raw.
  apply framed_bind; [apply framed__sync_write|]. intros comm.
  apply framed_bind; [apply framed_gets|]. intros ok.
  destruct (negb ok); [|apply framed_ret].
  apply framed_bind; [apply framed_gets|]. intros diag. apply framed_raise.
Qed.

Lemma framed__write (data_name : string) (motor_id : Z) (value : Value F) (num_retry : Z) :
  framed (_write data_name motor_id value num_retry).
Proof.
  unfold _write.
  apply framed_bind; [apply framed_pure|]. intros model.
  apply framed_bind; [apply framed_gets|]. intros tbl.
  apply framed_bind; [apply framed_lift|]. intros [addr n_bytes].
  apply framed_bind; [apply framed_lift|]. intros encoded.
  apply framed_bind; [apply framed_lift|]. intros data.
  apply framed_bind; [apply framed_retry_loop, framed_writeTxRx|]. intros [[comm error]|];
    [apply framed_ret | apply framed_raise].
Qed.

Lemma framed_write (data_name : string) (motor : NameOrID) (value : Value F)
    (normalize : bool) (num_retry : Z) :
  framed (write data_name motor value normalize num_retry).
Proof.
  unfold write.
  apply framed_bind; [apply framed_gets|]. intros connected.
  destruct (negb connected).
  { apply framed_bind; [apply framed_gets|]. intros port. apply framed_raise. }
  apply framed_bind; [apply framed__get_motor_id|]. intros id_.
  apply framed_bind; [apply framed_gets|]. intros required.
  apply framed_bind.
  { destruct (normalize && bool_decide (data_name ∈ required)); [|apply framed_ret].
    apply framed_bind; [apply framed_pure|]. intros id_value.
    apply framed_bind; [apply framed_lift|]. intros raw. apply framed_ret. }
  intros raw.
  apply framed_bind; [apply framed__write|]. intros [comm error].
  apply framed_bind; [apply framed_gets|]. intros ok.
  destruct (negb ok).
  { apply framed_bind; [apply framed_gets|]. intros diag. apply framed_raise. }
  apply framed_bind; [apply framed_gets|]. intros [|]; [|apply framed_ret].
  apply framed_bind; [apply framed_gets|]. intros diag. apply framed_raise.
Qed.

Lemma framed_reset_calibration_loop (motors : list NameOrID) :
  framed (reset_calibration_loop motors).
Proof.
  induction motors as [|motor rest IH]; cbn [reset_calibration_loop]; [apply framed_ret|].
  apply framed_bind; [apply framed__get_motor_model|]. intros model.
  apply framed_bind; [apply framed_pure|]. intros res. cbv zeta.
  apply framed_bind; [apply framed_write|]. intros _.
  apply framed_bind; [apply framed_write|]. intros _.
  apply framed_bind; [apply framed_write|]. intros _. exact IH.
Qed.

Lemma framed_motors_arg (motors : MotorsArg) :
  framed (match motors with
          | MotorsNone => gets (λ b, Name <$> names b)
          | MotorsOne motor => mret [motor]
          | MotorsList l => mret l
          | MotorsOther => raise TypeError
          end).
Proof.
  destruct motors; [apply framed_gets | apply framed_ret | apply framed_ret | apply framed_raise].
Qed.

Lemma framed_reset_calibration (motors : MotorsArg) : framed (reset_calibration motors).
Proof.
  unfold reset_calibration.
  apply framed_bind; [apply framed_motors_arg|]. intros l.
  apply framed_reset_calibration_loop.
Qed.

Lemma framed_write_calibration_loop (items : list (string * MotorCalibration)) :
  framed (write_calibration_loop items).
Proof.
  induction items as [|[motor calibration] rest IH]; cbn [write_calibration_loop];
    [apply framed_ret|].
  apply framed_bind; [apply framed_write|]. intros _.
  apply framed_bind; [apply framed_write|]. intros _.
  apply framed_bind; [apply framed_write|]. intros _. exact IH.
Qed.

Lemma framed_record_ranges_loop (fuel : nat) (enter_pressed : nat → bool) (k : nat)
    (motors : list NameOrID) (display_values : bool) (mins maxes : dict NameOrID (Value F)) :
  framed (record_ranges_loop fuel enter_pressed k motors display_values mins maxes).
Proof.
  revert k mins maxes.
  induction fuel as [|fuel IH]; intros k mins maxes; cbn [record_ranges_loop];
    [apply framed_ret|].
  apply framed_bind; [apply framed_sync_read|]. intros positions.
  apply framed_bind; [apply framed_lift|]. intros mins'.
  apply framed_bind; [apply framed_lift|]. intros maxes'.
  apply framed_bind; [apply framed_lift|]. intros _.
  destruct (enter_pressed k); [apply framed_ret | apply IH].
Qed.

(** X11.  [sync_read], [sync_write], [write], [reset_calibration] and
    [record_ranges_of_motion] keep the frame on every bus and for every
    argument, whether they return or raise: they change neither the motors,
    the calibration and the lookup tables of the bus, nor whether the port is
    open, nor its timeout, and they only add to the transmissions made. *)
Theorem X11_operations_keep_the_frame (b : MotorsBus) :
  (∀ data_name motors normalize num_retry,
     frame b (sync_read data_name motors normalize num_retry b).2)
  ∧ (∀ data_name (values : ValuesArg F) normalize num_retry,
       frame b (sync_write data_name values normalize num_retry b).2)
  ∧ (∀ data_name motor (value : Value F) normalize num_retry,
       frame b (write data_name motor value normalize num_retry b).2)
  ∧ (∀ motors, frame b (reset_calibration motors b).2)
  ∧ (∀ fuel enter_pressed motors display_values,
       frame b (record_ranges_of_motion fuel enter_pressed motors display_values b).2).
Proof.
  split_and!.
  - intros. apply framed_sync_read.
  - intros. apply framed_sync_write.
  - intros. apply framed_write.
  - intros. apply framed_reset_calibration.
  - intros fuel enter_pressed motors display_values. revert b.
    change (framed (record_ranges_of_motion fuel enter_pressed motors display_values)).
    unfold record_ranges_of_motion.
    apply framed_bind; [apply framed_motors_arg|]. intros l.
    apply framed_bind; [apply framed_sync_read|]. intros start_positions.
    apply framed_record_ranges_loop.
Qed.

(** X12.  [write_calibration] adopts the dictionary only when every write
    succeeded: when it raises, the calibration of the bus is the one it had
    before, although registers of the motors may have been written. *)
Theorem X12_write_calibration_failure (calibration_dict : dict string MotorCalibration)
    (b b' : MotorsBus) (e : Exn) :
  write_calibration calibration_dict b = (Raise e, b') →
  calibration b' = calibration b ∧ frame b b'.
Proof.
  unfold write_calibration. unfold mbind at 1, M_bind at 1. intros Hrun.
  pose proof (framed_write_calibration_loop calibration_dict b) as Hframe.
  destruct (write_calibration_loop calibration_dict b) as [[[]|e'] b1]; [done|].
  injection Hrun as _ <-. cbn [snd] in Hframe. split; [apply Hframe | exact Hframe].
Qed.
End framed_operations.

(** X12 on the two-motor bus of the fixture, with a wire that fails every
    transmission: the first write raises and the calibration stays. *)
Lemma X12_write_calibration_failure_witness :
  let b := Fixture.arm (Fixture.wire true (Fixture.always (-3001, 0)) 0) in
  let d := [("gripper", Fixture.full_range 9)] in
  (∃ e, (write_calibration d b).1 = Raise e)
  ∧ calibration (write_calibration d b).2 = calibration b
  ∧ sent (transport (write_calibration d b).2) = [WritePacket 6 31 2 [0; 0]].
Proof.
  intros b d.
  destruct (write_calibration d b) as [[[]|e] b'] eqn:Hrun.
  - vm_compute in Hrun. discriminate.
  - destruct (@X12_write_calibration_failure float Binary64.binary64 Fixture.overrides
                d b b' e Hrun) as [Hcal _].
    split_and!; [by exists e | exact Hcal |].
    assert (sent (transport (write_calibration d b).2) = [WritePacket 6 31 2 [0; 0]]) as Hsent
      by (vm_compute; reflexivity).
    rewrite Hrun in Hsent. exact Hsent.
Defined.

(** ** Group operations on no motor *)

Section empty_group.
Context {F : Type} `{PyFloat F} `{Overrides F}.

Lemma _has_different_ctrl_tables_sent (b : MotorsBus) :
  transport (_has_different_ctrl_tables b).2 = transport b.
Proof.
  unfold _has_different_ctrl_tables.
  destruct (_has_different_ctrl_tables_cache b); [done|].
  by destruct (_has_different_ctrl_tables_body b).
Qed.

Lemma _sync_read_empty (b : MotorsBus) (data_name : string) (num_retry : Z) :
  _sync_read data_name [] None num_retry b
  = (Raise (empty_group_error b data_name), (_has_different_ctrl_tables b).2).
Proof.
  unfold _sync_read, empty_group_error. unfold mbind at 1, M_bind at 1.
  destruct (_has_different_ctrl_tables b) as [[[|]|e] b1]; reflexivity.
Qed.

Lemma _sync_write_empty (b : MotorsBus) (data_name : string) (num_retry : Z) :
  _sync_write data_name ([] : dict Z (Value F)) num_retry b
  = (Raise (empty_group_error b data_name), (_has_different_ctrl_tables b).2).
Proof.
  unfold _sync_write, empty_group_error. unfold mbind at 1, M_bind at 1.
  destruct (_has_different_ctrl_tables b) as [[[|]|e] b1]; reflexivity.
Qed.

(** X13.  A group operation on no motor never returns and transmits
    nothing: on a connected bus, [sync_read] of an empty list and
    [sync_write] of an empty dictionary raise, with or without
    normalization, [StopIteration] when the control tables of the bus do not
    differ and the address error of [assert_same_address] when they do.
    The same holds of [sync_read] of all motors and of [sync_write] of one
    value on a bus without motors. *)
Theorem X13_empty_group_operation (b : MotorsBus) (data_name : string) (normalize : bool)
    (num_retry : Z) :
  is_connected b = true →
  let e := empty_group_error b data_name in
  let b' := (_has_different_ctrl_tables b).2 in
  sync_read data_name (MotorsList []) normalize num_retry b = (Raise e, b')
  ∧ sync_write data_name (PerMotor []) normalize num_retry b = (Raise e, b')
  ∧ (motors b = [] →
     sync_read data_name MotorsNone normalize num_retry b = (Raise e, b')
     ∧ ∀ n, sync_write data_name (OneValue (VInt n)) normalize num_retry b = (Raise e, b'))
  ∧ sent (transport b') = sent (transport b).
Proof.
  intros Hon e b'.
  assert (∀ motors_, id_key_map_for motors_ b = (Ok [], b) →
            sync_read data_name motors_ normalize num_retry b = (Raise e, b')) as Hread.
  { intros motors_ Hmap. unfold sync_read.
    erewrite bind_Ok; [|reflexivity]. cbv beta. rewrite Hon. cbn [negb].
    erewrite bind_Ok; [|exact Hmap]. cbv beta zeta.
    erewrite bind_Raise; [done|]. apply _sync_read_empty. }
  assert (∀ values, ids_values_for values b = (Ok [], b) →
            sync_write data_name values normalize num_retry b = (Raise e, b')) as Hwrite.
  { intros values Hvalues. unfold sync_write.
    erewrite bind_Ok; [|reflexivity]. cbv beta. rewrite Hon. cbn [negb].
    erewrite bind_Ok; [|exact Hvalues]. cbv beta. unfold sync_write_ids_values.
    erewrite bind_Ok; [|reflexivity]. cbv beta.
    erewrite (bind_Ok _ _ b b ([] : dict Z (Value F))).
    - erewrite bind_Raise; [done|]. apply _sync_write_empty.
    - by destruct (normalize && bool_decide (data_name ∈ normalization_required (cls b))). }
  split_and!.
  - by apply Hread.
  - by apply Hwrite.
  - intros Hnone. split.
    + apply Hread. cbn [id_key_map_for]. unfold gets. by rewrite Hnone.
    + intros n. apply Hwrite. cbn [ids_values_for]. unfold gets, ids, Dict.values.
      by rewrite Hnone.
  - subst b'. by rewrite _has_different_ctrl_tables_sent.
Qed.
End empty_group.

(** X13 on the two buses of the fixture with two motors, of one model and
    of two models. *)
Lemma X13_empty_group_operation_witness :
  let t := Fixture.wire true (Fixture.always (0, 0)) 0 in
  sync_read "Present_Position" (MotorsList []) true 0 (Fixture.arm t)
  = (Raise StopIteration, with_cache (Some false) (Fixture.arm t))
  ∧ sync_write "Goal_Position" (PerMotor []) true 0 (Fixture.mixed t)
    = (Raise (NotImplementedError_address "Goal_Position" []),
       with_cache (Some true) (Fixture.mixed t)).
Proof.
  intros t. split.
  - apply (@X13_empty_group_operation float Binary64.binary64 Fixture.overrides
             (Fixture.arm t) "Present_Position" true 0 eq_refl).
  - apply (@X13_empty_group_operation float Binary64.binary64 Fixture.overrides
             (Fixture.mixed t) "Goal_Position" true 0 eq_refl).
Defined.

(** ** Motors that are not on the bus *)

Section unknown_motor.
Context {F : Type} `{PyFloat F} `{Overrides F}.

Lemma _get_motor_id_unknown (b : MotorsBus) (name : string) :
  name ∉ names b → _get_motor_id (Name name) b = (Raise (KeyError (Name name)), b).
Proof.
  intros Hname. unfold _get_motor_id. rewrite subscript_None; [done|]. by apply dict_get_None.
Qed.

Lemma _get_motor_id_cases (b : MotorsBus) (motor : NameOrID) :
  (∃ id_, _get_motor_id motor b = (Ok id_, b))
  ∨ (∃ name, motor = Name name ∧ (name ∉ names b)
             ∧ _get_motor_id motor b = (Raise (KeyError (Name name)), b)).
Proof.
  destruct motor as [name|id_]; [|left; by exists id_].
  unfold _get_motor_id, subscript.
  destruct (Dict.get name (motors b)) as [motor|] eqn:Hget.
  - left. by exists (m_id motor).
  - right. exists name. split_and!; [done | by apply dict_get_None | done].
Qed.

Lemma id_key_map_of_unknown (b : MotorsBus) (l : list NameOrID) (acc : dict Z NameOrID)
    (name : string) :
  Name name ∈ l → name ∉ names b →
  ∃ name', Name name' ∈ l ∧ (name' ∉ names b)
           ∧ id_key_map_of l acc b = (Raise (KeyError (Name name')), b).
Proof.
  intros Hin Hname. revert acc.
  induction l as [|motor l IH]; intros acc; [by apply elem_of_nil in Hin|].
  cbn [id_key_map_of].
  destruct (_get_motor_id_cases b motor) as [[id_ Hid]|(name' & -> & Hname' & Hraise)].
  - erewrite bind_Ok; [|exact Hid].
    apply elem_of_cons in Hin as [<-|Hin].
    + rewrite _get_motor_id_unknown in Hid by done. discriminate.
    + destruct (IH Hin (Dict.set id_ motor acc)) as (name' & Hin' & Hname' & Hrun).
      exists name'. split_and!; [by apply list_elem_of_further | done | done].
  - exists name'. split_and!; [apply list_elem_of_here | done |].
    erewrite bind_Raise; [done | exact Hraise].
Qed.

Lemma ids_values_of_unknown (b : MotorsBus) (d : dict NameOrID (Value F))
    (acc : dict Z (Value F)) (name : string) :
  Name name ∈ Dict.keys d → name ∉ names b →
  ∃ name', Name name' ∈ Dict.keys d ∧ (name' ∉ names b)
           ∧ ids_values_of d acc b = (Raise (KeyError (Name name')), b).
Proof.
  intros Hin Hname. revert acc.
  induction d as [|[motor val] d IH]; intros acc; [by apply elem_of_nil in Hin|].
  cbn [ids_values_of]. unfold Dict.keys in *. rewrite fmap_cons in *. cbn [fst] in *.
  destruct (_get_motor_id_cases b motor) as [[id_ Hid]|(name' & -> & Hname' & Hraise)].
  - erewrite bind_Ok; [|exact Hid].
    apply elem_of_cons in Hin as [<-|Hin].
    + rewrite _get_motor_id_unknown in Hid by done. discriminate.
    + destruct (IH Hin (Dict.set id_ val acc)) as (name' & Hin' & Hname' & Hrun).
      exists name'. split_and!; [by apply list_elem_of_further | done | done].
  - exists name'. split_and!; [apply list_elem_of_here | done |].
    erewrite bind_Raise; [done | exact Hraise].
Qed.

(** X14.  [write] to a motor that is not on the bus raises [KeyError] for
    the name or the id it was given, and leaves the bus as it is: nothing is
    transmitted.  For an id the error comes from [_id_to_name] when the
    value is unnormalized and from [_id_to_model] otherwise. *)
Theorem X14_write_unknown_motor (b : MotorsBus) (data_name : string) (value : Value F)
    (normalize : bool) (num_retry : Z) :
  is_connected b = true →
  (∀ name, name ∉ names b →
     write data_name (Name name) value normalize num_retry b
     = (Raise (KeyError (Name name)), b))
  ∧ (derived_dicts_ok b →
     ∀ id_, id_ ∉ ids b →
       write data_name (ID id_) value normalize num_retry b
       = (Raise (KeyError (ID id_)), b)).
Proof.
  intros Hon. split.
  - intros name Hname. unfold write.
    erewrite bind_Ok; [|reflexivity]. cbv beta. rewrite Hon. cbn [negb].
    erewrite bind_Raise; [done|]. by apply _get_motor_id_unknown.
  - intros [Hmodel Hname] id_ Hid. unfold write.
    erewrite bind_Ok; [|reflexivity]. cbv beta. rewrite Hon. cbn [negb].
    erewrite bind_Ok; [|reflexivity]. cbv beta.
    erewrite bind_Ok; [|reflexivity]. cbv beta.
    destruct (normalize && bool_decide (data_name ∈ normalization_required (cls b))).
    + erewrite bind_Raise; [done|].
      erewrite bind_Raise; [done|].
      unfold _unnormalize. cbn [_unnormalize_loop].
      rewrite subscript_None; [done|].
      rewrite Hname. apply dict_get_comp_None. by rewrite <- ids_of_motors.
    + erewrite bind_Ok; [|reflexivity]. cbv beta.
      erewrite bind_Raise; [done|]. unfold _write.
      erewrite bind_Raise; [done|]. unfold _id_to_model.
      rewrite subscript_None; [done|]. rewrite Hmodel. by apply dict_get_comp_None.
Qed.

(** X15.  A group operation that names a motor that is not on the bus
    raises [KeyError] for a name of its argument that is not on the bus,
    before the guard and before any transmission: the bus is left as it is,
    whatever the other entries of the argument are. *)
Theorem X15_group_operation_unknown_name (b : MotorsBus) (data_name : string)
    (normalize : bool) (num_retry : Z) (name : string) :
  is_connected b = true → name ∉ names b →
  sync_read data_name (MotorsOne (Name name)) normalize num_retry b
  = (Raise (KeyError (Name name)), b)
  ∧ (∀ l, Name name ∈ l →
       ∃ name', Name name' ∈ l ∧ (name' ∉ names b)
                ∧ sync_read data_name (MotorsList l) normalize num_retry b
                  = (Raise (KeyError (Name name')), b))
  ∧ (∀ d : dict NameOrID (Value F), Name name ∈ Dict.keys d →
       ∃ name', Name name' ∈ Dict.keys d ∧ (name' ∉ names b)
                ∧ sync_write data_name (PerMotor d) normalize num_retry b
                  = (Raise (KeyError (Name name')), b)).
Proof.
  intros Hon Hname. split_and!.
  - unfold sync_read.
    erewrite bind_Ok; [|reflexivity]. cbv beta. rewrite Hon. cbn [negb].
    erewrite bind_Raise; [done|]. cbn [id_key_map_for].
    erewrite bind_Raise; [done|]. by apply _get_motor_id_unknown.
  - intros l Hin.
    destruct (id_key_map_of_unknown b l [] name Hin Hname) as (name' & Hin' & Hname' & Hrun).
    exists name'. split_and!; [done | done|]. unfold sync_read.
    erewrite bind_Ok; [|reflexivity]. cbv beta. rewrite Hon. cbn [negb].
    erewrite bind_Raise; [done | exact Hrun].
  - intros d Hin.
    destruct (ids_values_of_unknown b d [] name Hin Hname) as (name' & Hin' & Hname' & Hrun).
    exists name'. split_and!; [done | done|]. unfold sync_write.
    erewrite bind_Ok; [|reflexivity]. cbv beta. rewrite Hon. cbn [negb].
    erewrite bind_Raise; [done | exact Hrun].
Qed.
End unknown_motor.

(** X14 on the two-motor bus of the fixture. *)
Lemma X14_write_unknown_motor_witness :
  let b := Fixture.arm (Fixture.wire true (Fixture.always (0, 0)) 0) in
  write "Goal_Position" (Name "elbow") (VInt 0) true 0 b = (Raise (KeyError (Name "elbow")), b)
  ∧ write "Goal_Position" (ID 7) (VInt 0) true 0 b = (Raise (KeyError (ID 7)), b)
  ∧ write "Homing_Offset" (ID 7) (VInt 0) true 0 b = (Raise (KeyError (ID 7)), b).
Proof.
  intros b.
  assert (7 ∉ ids b) as Hid by (apply (bool_decide_unpack _); vm_compute; exact I).
  split_and!.
  - apply (@X14_write_unknown_motor float Binary64.binary64 Fixture.overrides
             b "Goal_Position" (VInt 0) true 0 eq_refl).
    apply (bool_decide_unpack _). vm_compute. exact I.
  - apply (@X14_write_unknown_motor float Binary64.binary64 Fixture.overrides
             b "Goal_Position" (VInt 0) true 0 eq_refl);
      [apply init_derived_dicts_ok | exact Hid].
  - apply (@X14_write_unknown_motor float Binary64.binary64 Fixture.overrides
             b "Homing_Offset" (VInt 0) true 0 eq_refl);
      [apply init_derived_dicts_ok | exact Hid].
Defined.

(** X15 on the two-motor bus of the fixture. *)
Lemma X15_group_operation_unknown_name_witness :
  let b := Fixture.arm (Fixture.wire true (Fixture.always (0, 0)) 0) in
  sync_read "Present_Position" (MotorsOne (Name "elbow")) true 0 b
  = (Raise (KeyError (Name "elbow")), b)
  ∧ ∃ name', sync_write "Goal_Position"
               (PerMotor [(Name "gripper", VInt 0); (Name "elbow", VInt 0)]) true 0 b
             = (Raise (KeyError (Name name')), b).
Proof.
  intros b.
  destruct (@X15_group_operation_unknown_name float Binary64.binary64 Fixture.overrides
              b "Present_Position" true 0 "elbow" eq_refl) as (Hone & _ & _).
  { apply (bool_decide_unpack _). vm_compute. exact I. }
  destruct (@X15_group_operation_unknown_name float Binary64.binary64 Fixture.overrides
              b "Goal_Position" true 0 "elbow" eq_refl) as (_ & _ & Hdict).
  { apply (bool_decide_unpack _). vm_compute. exact I. }
  split; [exact Hone|].
  destruct (Hdict [(Name "gripper", VInt 0); (Name "elbow", VInt 0)])
    as (name' & _ & _ & Hrun).
  { apply list_elem_of_further, list_elem_of_here. }
  by exists name'.
Defined.

(** ** Calibration on a bus that is not connected *)

Section offline.
Context {F : Type} `{PyFloat F} `{Overrides F}.

Lemma reset_calibration_loop_disconnected (b : MotorsBus) (motor : NameOrID)
    (rest : list NameOrID) :
  is_connected b = false →
  ∃ e, reset_calibration_loop (motor :: rest) b = (Raise e, b).
Proof.
  intros Hoff. cbn [reset_calibration_loop].
  destruct (_get_motor_model motor b) as [[model|e] b1] eqn:Hmodel.
  - assert (b1 = b) as ->.
    { unfold _get_motor_model in Hmodel. destruct motor; by injection Hmodel as _ <-. }
    erewrite bind_Ok; [|exact Hmodel]. cbv beta.
    destruct (subscript Name (model_resolution_table (cls b)) model) as [res|e] eqn:Hres.
    + erewrite bind_Ok; [|by rewrite Hres]. cbv beta zeta.
      exists (DeviceNotConnectedError (port b)).
      erewrite bind_Raise; [done|]. by apply write_disconnected.
    + exists e. erewrite bind_Raise; [done|]. by rewrite Hres.
  - assert (b1 = b) as ->.
    { unfold _get_motor_model in Hmodel. destruct motor; by injection Hmodel as _ <-. }
    exists e. erewrite bind_Raise; [done | exact Hmodel].
Qed.

(** X16.  On a bus that is not connected the calibration methods transmit
    nothing and leave the bus as it is.  [reset_calibration] raises as soon
    as it has one motor to reset, and returns when it has none;
    [write_calibration] of a non-empty dictionary raises the not-connected
    error and does not adopt the dictionary; [set_half_turn_homings] and
    [record_ranges_of_motion] raise for every argument. *)
Theorem X16_calibration_needs_connection (b : MotorsBus) :
  is_connected b = false →
  (∀ motor rest, ∃ e, reset_calibration (MotorsList (motor :: rest)) b = (Raise e, b))
  ∧ (∀ motor, ∃ e, reset_calibration (MotorsOne motor) b = (Raise e, b))
  ∧ reset_calibration (MotorsList []) b = (Ok (), b)
  ∧ (∀ item rest,
       write_calibration (item :: rest) b = (Raise (DeviceNotConnectedError (port b)), b))
  ∧ (∀ motors, ∃ e, set_half_turn_homings motors b = (Raise e, b))
  ∧ (∀ fuel enter_pressed motors display_values,
       ∃ e, record_ranges_of_motion fuel enter_pressed motors display_values b = (Raise e, b)).
Proof.
  intros Hoff. split_and!.
  - intros motor rest. by apply reset_calibration_loop_disconnected.
  - intros motor. by apply reset_calibration_loop_disconnected.
  - reflexivity.
  - intros [motor calibration] rest. unfold write_calibration. cbn [write_calibration_loop].
    erewrite bind_Raise; [done|]. erewrite bind_Raise; [done|]. by apply write_disconnected.
  - assert (∀ l, ∃ e,
              (_ ← reset_calibration (MotorsList l);
               actual_positions ← sync_read "Present_Position" (MotorsList l) false 0;
               homing_offsets ← _get_half_turn_homings actual_positions;
               _ ← write_homing_offsets homing_offsets;
               mret homing_offsets) b = (Raise e, b)) as Hlist.
    { intros [|motor rest].
      - exists (DeviceNotConnectedError (port b)).
        erewrite bind_Ok; [|reflexivity]. cbv beta.
        erewrite bind_Raise; [done|]. by apply sync_read_disconnected.
      - destruct (reset_calibration_loop_disconnected b motor rest Hoff) as [e He].
        exists e. erewrite bind_Raise; [done | exact He]. }
    intros [|motor|l|]; unfold set_half_turn_homings.
    + erewrite bind_Ok; [|reflexivity]. cbv beta. apply Hlist.
    + erewrite bind_Ok; [|reflexivity]. cbv beta. apply Hlist.
    + by exists TypeError.
    + by exists TypeError.
  - intros fuel enter_pressed motors display_values. unfold record_ranges_of_motion.
    assert (∀ l, (start_positions ← sync_read "Present_Position" (MotorsList l) false 0;
                  record_ranges_loop fuel enter_pressed 0 l display_values
                    start_positions start_positions) b
                 = (Raise (DeviceNotConnectedError (port b)), b)) as Hlist.
    { intros l. erewrite bind_Raise; [done|]. by apply sync_read_disconnected. }
    destruct motors as [|motor|l|].
    + exists (DeviceNotConnectedError (port b)).
      erewrite bind_Ok; [|reflexivity]. cbv beta. apply Hlist.
    + exists (DeviceNotConnectedError (port b)).
      erewrite bind_Ok; [|reflexivity]. cbv beta. apply Hlist.
    + exists (DeviceNotConnectedError (port b)).
      erewrite bind_Ok; [|reflexivity]. cbv beta. apply Hlist.
    + by exists TypeError.
Qed.
End offline.

(** X16 on the two-motor bus of the fixture, not connected. *)
Lemma X16_calibration_needs_connection_witness :
  let b := Fixture.arm (Fixture.wire false (Fixture.always (0, 0)) 0) in
  write_calibration [("gripper", Fixture.full_range 6)] b
  = (Raise (DeviceNotConnectedError "/dev/ttyACM0"), b)
  ∧ (∃ e, set_half_turn_homings MotorsNone b = (Raise e, b))
  ∧ reset_calibration (MotorsList []) b = (Ok (), b).
Proof.
  intros b.
  destruct (@X16_calibration_needs_connection float Binary64.binary64 Fixture.overrides
              b eq_refl) as (_ & _ & Hnone & Hwrite & Hhoming & _).
  split_and!; [apply Hwrite | apply Hhoming | exact Hnone].
Defined.

(** ** Normalization at the ends of the range *)

Section zero_width.
Context {F : Type} `{PyFloat F}.

Lemma _normalize_loop_zero_width (b : MotorsBus) (id_ val : Z) (rest : list (Z * Z))
    (acc : dict Z (Value F)) (motor : Motor) (cal : MotorCalibration) :
  motor_of_id b id_ = Some (motor, cal) →
  norm_mode motor = RANGE_M100_100 ∨ norm_mode motor = RANGE_0_100 →
  range_min cal = range_max cal →
  _normalize_loop b ((id_, val) :: rest) acc = Raise ZeroDivisionError.
Proof.
  intros Hm Hmode Heq.
  apply motor_of_id_Some in Hm as (name & Hname & Hcal & Hmotor).
  cbn [_normalize_loop]. unfold mbind, Result_bind.
  rewrite Hname, Hcal, Hmotor. cbn beta iota zeta.
  unfold Py.truediv_int. rewrite Heq, Z.sub_diag.
  destruct Hmode as [-> | ->]; by case_decide.
Qed.

(** X17.  A calibration whose range has no width, [range_min = range_max],
    makes [_normalize] raise [ZeroDivisionError] on every input that reaches
    a motor with it, in both range modes and for every raw value: the
    division by [max_ - min_] is not guarded. *)
Theorem X17_normalize_zero_width (b : MotorsBus) (data_name : string) (id_ : Z)
    (motor : Motor) (cal : MotorCalibration) :
  motor_of_id b id_ = Some (motor, cal) →
  norm_mode motor = RANGE_M100_100 ∨ norm_mode motor = RANGE_0_100 →
  range_min cal = range_max cal →
  ∀ pre val post (acc : dict Z (Value F)),
    _normalize_loop b pre [] = Ok acc →
    _normalize data_name (pre ++ (id_, val) :: post) b = (Raise ZeroDivisionError, b).
Proof.
  intros Hm Hmode Heq pre val post acc Hpre. unfold _normalize.
  rewrite _normalize_loop_app, Hpre. unfold mbind, Result_bind.
  by rewrite (_normalize_loop_zero_width b id_ val post acc motor cal).
Qed.
End zero_width.

(** X17 on the gripper of the fixture, calibrated on the single tick 2048,
    in binary64. *)
Lemma X17_normalize_zero_width_witness :
  let t := Fixture.wire true (Fixture.always (0, 0)) 0 in
  let b := with_calibration
             [("gripper", {| c_id := 6; drive_mode := 0; homing_offset := 0;
                             range_min := 2048; range_max := 2048 |})]
             (Fixture.gripper RANGE_0_100 t) in
  _normalize (F := float) "Present_Position" [(6, 2048)] b = (Raise ZeroDivisionError, b).
Proof.
  intros t b.
  apply (X17_normalize_zero_width (F := float) b "Present_Position" 6
           {| m_id := 6; m_model := "sts3215"; norm_mode := RANGE_0_100 |}
           {| c_id := 6; drive_mode := 0; homing_offset := 0;
              range_min := 2048; range_max := 2048 |}
           eq_refl (or_intror eq_refl) eq_refl [] 2048 [] [] eq_refl).
Defined.

(** ** The range of the normalized and of the raw values, in exact arithmetic *)













Section entries.
Context {A B : Type}.

End entries.









(** ** What a group read returns *)

Section read_result.
Context {F : Type} `{PyFloat F} `{Overrides F}.

Lemma read_values_exact (b : MotorsBus) (data_name : string) (motor_ids : list Z)
    (addr n_bytes : Z) (decoded : list Z) (acc : dict Z Z) :
  Forall2 (λ id_ dec,
             _decode_value
               (rx_data (transport b) (length (sent (transport b))) id_ addr n_bytes)
               data_name n_bytes = Ok dec) motor_ids decoded →
  NoDup (Dict.keys acc ++ motor_ids) →
  read_values data_name motor_ids addr n_bytes acc b = (Ok (acc ++ zip motor_ids decoded), b).
Proof.
  intros Hdec. revert acc.
  induction Hdec as [|id_ dec motor_ids decoded Hid Hrest IH]; intros acc Hnd.
  - cbn. by rewrite app_nil_r.
  - cbn [read_values].
    erewrite bind_Ok; [|reflexivity]. cbv beta.
    erewrite bind_Ok; [|unfold lift; by rewrite Hid]. cbv beta.
    assert (id_ ∉ Dict.keys acc) as Hfresh.
    { intros Hin. apply NoDup_app in Hnd as (_ & Hnd & _).
      apply (Hnd id_); [done | apply list_elem_of_here]. }
    rewrite dict_set_fresh by done. rewrite IH.
    + cbn [zip zip_with]. by rewrite <- app_assoc.
    + unfold Dict.keys. rewrite fmap_app. cbn [fmap list_fmap fst].
      rewrite <- app_assoc. exact Hnd.
Qed.

Lemma after_sending_length (extra : list Packet) (b : MotorsBus) :
  length (sent (transport (after_sending extra b)))
  = (length (sent (transport b)) + length extra)%nat.
Proof. unfold after_sending. cbn. by rewrite length_app. Qed.

(** [_sync_read] when the attempts are made, with the values it decodes. *)
Lemma _sync_read_values (b : MotorsBus) (data_name : string) (motor_ids : list Z)
    (num_retry addr n_bytes : Z) (decoded : list Z) :
  0 ≤ num_retry →
  tables_compared b →
  same_address b data_name motor_ids addr n_bytes →
  NoDup motor_ids →
  Forall2 (λ id_ dec,
             _decode_value (received b num_retry id_ addr n_bytes) data_name n_bytes = Ok dec)
    motor_ids decoded →
  ∃ c,
    _sync_read data_name motor_ids None num_retry b
    = (Ok ((reply (transport b)
              (length (sent (transport b)) + pred (attempts b num_retry))).1,
           zip motor_ids decoded),
       after_sending (replicate (attempts b num_retry) (SyncReadPacket addr n_bytes motor_ids))
         (configured_reader addr n_bytes motor_ids (with_cache c b))).
Proof.
  intros Hr [different Hdiff] Hsame Hnd Hdec.
  destruct (_has_different_ctrl_tables_run b different Hdiff) as [c Hrun].
  exists c. unfold _sync_read.
  erewrite bind_Ok; [|exact Hrun]. cbv beta.
  erewrite bind_Ok; [|by apply (guard_passes (with_cache c b) data_name motor_ids addr n_bytes)].
  cbv beta.
  destruct Hsame as [Hne Hall].
  destruct motor_ids as [|id0 rest]; [done|].
  destruct (Hall id0) as (model & Hmodel & Haddr); [apply list_elem_of_here|].
  erewrite bind_Ok; [|unfold _id_to_model, subscript; cbn [_id_to_model_dict with_cache];
                      by rewrite Hmodel].
  cbv beta.
  erewrite bind_Ok; [|reflexivity]. cbv beta.
  erewrite bind_Ok; [|unfold lift; cbn [cls with_cache]; by rewrite Haddr]. cbv beta iota.
  erewrite bind_Ok; [|reflexivity]. cbv beta.
  erewrite bind_Ok;
    [|apply (retry_loop_from _ (λ comm, comm) fst
               (SyncReadPacket addr n_bytes (id0 :: rest))
               (configured_reader addr n_bytes (id0 :: rest) (with_cache c b)));
      [intros extra; apply sync_reader_txRxPacket_after | done]].
  cbv beta.
  change (attempts_made _ _ _) with (attempts b num_retry).
  erewrite bind_Ok.
  2:{ apply (read_values_exact _ data_name (id0 :: rest) addr n_bytes decoded []); [|done].
      eapply Forall2_impl; [exact Hdec|]. intros id_ dec Hid. cbv beta in Hid.
      unfold received in Hid. rewrite after_sending_length, length_replicate. exact Hid. }
  cbv beta. cbn [app].
  destruct (attempts_pos b num_retry Hr) as (m & -> & _). reflexivity.
Qed.

Lemma rekey_zip (id_key_map : dict Z NameOrID) (ks : list (Z * NameOrID))
    (vals : list (Value F)) (acc : dict NameOrID (Value F)) :
  (∀ id_ key, (id_, key) ∈ ks → Dict.get id_ id_key_map = Some key) →
  NoDup (Dict.keys acc ++ ks.*2) →
  rekey id_key_map (zip ks.*1 vals) acc = Ok (acc ++ zip ks.*2 vals).
Proof.
  revert vals acc. induction ks as [|[id_ key] ks IH]; intros vals acc Hget Hnd.
  - cbn. by rewrite app_nil_r.
  - destruct vals as [|val vals]; [cbn; by rewrite app_nil_r|].
    cbn [fmap list_fmap fst snd zip zip_with rekey].
    rewrite (subscript_Some ID _ _ key) by (apply Hget, list_elem_of_here).
    unfold mbind, Result_bind. rewrite fmap_cons in Hnd. cbn [snd] in Hnd.
    assert (key ∉ Dict.keys acc) as Hfresh.
    { intros Hin. apply NoDup_app in Hnd as (_ & Hnd & _).
      apply (Hnd key); [done | apply list_elem_of_here]. }
    rewrite dict_set_fresh by done.
    rewrite (IH vals).
    + by rewrite <- app_assoc.
    + intros id' key' Hin. apply Hget. by apply list_elem_of_further.
    + unfold Dict.keys. rewrite fmap_app. cbn [fmap list_fmap fst].
      rewrite <- app_assoc. exact Hnd.
Qed.

Lemma zip_fmap_VInt (ids_ : list Z) (decoded : list Z) :
  prod_map id (VInt (F := F)) <$> zip ids_ decoded = zip ids_ (VInt <$> decoded).
Proof.
  revert decoded. induction ids_ as [|id_ ids_ IH]; intros [|dec decoded]; cbn; [done..|].
  by rewrite <- IH.
Qed.

(** X21.  What [sync_read] of all motors returns without normalization, on
    a connected bus with pairwise distinct ids whose models keep
    [data_name] at one address, when the last attempt is answered with
    communication success: one entry for every motor of the bus, in the
    order of [motors], keyed by the name of the motor, whose value is what
    [_decode_value] makes of the data received for the id of the motor.  The
    only transmissions are the attempts of the group read. *)
Theorem X21_sync_read_all_motors (b : MotorsBus) (data_name : string)
    (num_retry addr n_bytes : Z) (decoded : list Z) :
  is_connected b = true → 0 ≤ num_retry → valid_bus b → tables_compared b →
  same_address b data_name (ids b) addr n_bytes →
  comm_ok b (length (sent (transport b)) + pred (attempts b num_retry)) = true →
  Forall2 (λ id_ dec,
             _decode_value (received b num_retry id_ addr n_bytes) data_name n_bytes = Ok dec)
    (ids b) decoded →
  ∃ b',
    sync_read data_name MotorsNone false num_retry b
    = (Ok (zip (Name <$> names b) (VInt <$> decoded)), b')
    ∧ sent (transport b')
      = sent (transport b)
        ++ replicate (attempts b num_retry) (SyncReadPacket addr n_bytes (ids b)).
Proof.
  intros Hon Hr (Hwf & Hnd & Hderived) Hcmp Hsame Hok Hdec.
  set (ks := (λ item : string * Motor, (m_id item.2, Name item.1)) <$> motors b).
  assert (ks.*1 = ids b) as Hks1.
  { subst ks. unfold ids. rewrite ids_of_motors, <- list_fmap_compose. done. }
  assert (ks.*2 = Name <$> names b) as Hks2.
  { subst ks. unfold names, Dict.keys. rewrite <- !list_fmap_compose. done. }
  assert (id_key_map_for MotorsNone b = (Ok ks, b)) as Hmap.
  { cbn [id_key_map_for]. unfold gets. f_equal. f_equal. subst ks.
    apply dict_comp_NoDup. by rewrite <- ids_of_motors. }
  assert (Dict.keys ks = ids b) as Hkeys by exact Hks1.
  destruct (_sync_read_values b data_name (ids b) num_retry addr n_bytes decoded
              Hr Hcmp Hsame Hnd Hdec) as (c & Hrun).
  eexists. split.
  - unfold sync_read.
    erewrite bind_Ok; [|reflexivity]. cbv beta. rewrite Hon. cbn [negb].
    erewrite bind_Ok; [|exact Hmap]. cbv beta zeta. rewrite Hkeys.
    erewrite bind_Ok; [|exact Hrun]. cbv beta iota.
    erewrite bind_Ok; [|reflexivity]. cbv beta.
    change (bool_decide (_ = _comm_success _))
      with (comm_ok b (length (sent (transport b)) + pred (attempts b num_retry))).
    rewrite Hok. cbn [negb].
    erewrite bind_Ok; [|reflexivity]. cbv beta. cbn [andb].
    erewrite bind_Ok; [|reflexivity]. cbv beta.
    unfold lift. f_equal.
    rewrite zip_fmap_VInt, <- Hks1, <- Hks2.
    apply (rekey_zip ks ks (VInt <$> decoded) []).
    + intros id_ key Hin. apply dict_get_elem; [|done].
      unfold Dict.wf. by rewrite Hkeys.
    + cbn [Dict.keys fmap list_fmap app]. rewrite Hks2.
      apply NoDup_fmap; [|exact Hwf]. by intros ? ? [=].
  - cbn. reflexivity.
Qed.
End read_result.

(** X21 on the two-motor bus of the fixture, with a wire that fails once and
    then succeeds, and registers that all read 2048. *)
Lemma X21_sync_read_all_motors_witness :
  let b := Fixture.arm (Fixture.wire true (Fixture.fails_first 1) 2048) in
  ∃ b',
    sync_read "Present_Position" MotorsNone false 1 b
    = (Ok [(Name "shoulder", VInt 2048); (Name "gripper", VInt 2048)], b')
    ∧ sent (transport b') = replicate 2 (SyncReadPacket 56 2 [1; 6]).
Proof.
  intros b.
  apply (@X21_sync_read_all_motors float Binary64.binary64 Fixture.overrides
           b "Present_Position" 1 56 2 [2048; 2048]).
  - reflexivity.
  - lia.
  - split_and!; [| |apply init_derived_dicts_ok];
      apply (bool_decide_unpack _); vm_compute; exact I.
  - exists false. reflexivity.
  - split; [discriminate|]. intros id_ Hid. exists "sts3215".
    cbn in Hid. apply elem_of_cons in Hid as [->|Hid]; [done|].
    apply list_elem_of_singleton in Hid as ->. done.
  - vm_compute. reflexivity.
  - repeat constructor.
Defined.

(** ** The writes of [reset_calibration] *)

Section reset.
Context {F : Type} `{PyFloat F} `{Overrides F}.

Lemma attempts_zero (b : MotorsBus) : attempts b 0 = 1%nat.
Proof.
  unfold attempts, tries. change (Z.to_nat (1 + 0)) with 1%nat. cbn [attempts_made].
  by destruct (comm_ok b _).
Qed.

Lemma _get_motor_id_after (motor : NameOrID) (extra : list Packet) (b : MotorsBus) :
  _get_motor_id motor (after_sending extra b)
  = ((_get_motor_id motor b).1, after_sending extra b).
Proof. by destruct motor. Qed.

Lemma _get_motor_model_after (motor : NameOrID) (extra : list Packet) (b : MotorsBus) :
  _get_motor_model motor (after_sending extra b)
  = ((_get_motor_model motor b).1, after_sending extra b).
Proof. by destruct motor. Qed.

Lemma write_packet_Ok (b : MotorsBus) (model : string) (id_ : Z) (data_name : string)
    (value : Z) (p : Packet) :
  write_packet b model id_ data_name value = Ok p →
  ∃ addr n_bytes encoded data,
    get_address (model_ctrl_table (cls b)) model data_name = Ok (addr, n_bytes)
    ∧ _encode_value (VInt value) data_name n_bytes = Ok encoded
    ∧ _split_int_to_bytes encoded n_bytes = Ok data
    ∧ p = WritePacket id_ addr n_bytes data.
Proof.
  unfold write_packet, mbind, Result_bind.
  destruct (get_address _ model data_name) as [[addr n_bytes]|]; [|done].
  destruct (_encode_value _ data_name n_bytes) as [encoded|] eqn:Henc; [|done].
  destruct (_split_int_to_bytes encoded n_bytes) as [data|] eqn:Hsplit; [|done].
  intros [= <-]. by exists addr, n_bytes, encoded, data.
Qed.

(** One raw write without retry, on the bus after some transmissions. *)
Lemma write_raw_once (b : MotorsBus) (extra : list Packet) (data_name : string)
    (motor : NameOrID) (value id_ : Z) (model : string) (p : Packet) :
  is_connected b = true →
  (_get_motor_id motor b).1 = Ok id_ →
  Dict.get id_ (_id_to_model_dict b) = Some model →
  write_packet b model id_ data_name value = Ok p →
  write data_name motor (VInt value) false 0 (after_sending extra b)
  = (write_outcome b data_name 0 (reply (transport b) (length (sent (transport b) ++ extra))),
     after_sending (extra ++ [p]) b).
Proof.
  intros Hon Hid Hmodel Hp.
  apply write_packet_Ok in Hp as (addr & n_bytes & encoded & data & Haddr & Henc & Hsplit & ->).
  rewrite (write_run (after_sending extra b) data_name motor (VInt value) (VInt value)
             false 0 id_ model addr n_bytes encoded data);
    [|done|done|by rewrite _get_motor_id_after, Hid|done|done|done|done|done].
  rewrite attempts_zero. cbn [replicate pred]. rewrite after_sending_app.
  rewrite after_sending_length, Nat.add_0_r, <- length_app. done.
Qed.

Lemma write_outcome_ok (b : MotorsBus) (data_name : string) (num_retry : Z) (k : nat) :
  answers_ok b k → write_outcome b data_name num_retry (reply (transport b) k) = Ok ().
Proof.
  unfold answers_ok, write_outcome. intros ->. cbn [fst snd].
  rewrite bool_decide_eq_true_2 by done. by rewrite bool_decide_eq_false_2 by auto.
Qed.

(** X22.  [reset_calibration] of one motor, on a connected bus whose
    control table has the three registers: it writes 0 to [Homing_Offset],
    0 to [Min_Position_Limit] and the resolution of the model minus one to
    [Max_Position_Limit], in this order, raw and each once.  When the wire
    answers the three writes with success, these three packets are all that
    is transmitted; when it answers the first one with a communication
    failure, the write is not tried again: the method raises the
    connectivity error with the count 1 and the two other registers are not
    written. *)
Theorem X22_reset_calibration_writes (b : MotorsBus) (motor : NameOrID) (id_ : Z)
    (model : string) (res : Z) (p1 p2 p3 : Packet) :
  is_connected b = true →
  (_get_motor_id motor b).1 = Ok id_ →
  (_get_motor_model motor b).1 = Ok model →
  Dict.get id_ (_id_to_model_dict b) = Some model →
  Dict.get model (model_resolution_table (cls b)) = Some res →
  write_packet b model id_ "Homing_Offset" 0 = Ok p1 →
  write_packet b model id_ "Min_Position_Limit" 0 = Ok p2 →
  write_packet b model id_ "Max_Position_Limit" (res - 1) = Ok p3 →
  let k := length (sent (transport b)) in
  (answers_ok b k → answers_ok b (k + 1) → answers_ok b (k + 2) →
   reset_calibration (MotorsOne motor) b = (Ok (), after_sending [p1; p2; p3] b))
  ∧ ((reply (transport b) k).1 ≠ _comm_success (cls b) →
     reset_calibration (MotorsOne motor) b
     = (Raise (ConnectionError OpWrite "Homing_Offset" 1
                 (getTxRxResult (transport b) (reply (transport b) k).1)),
        after_sending [p1] b)).
Proof.
  intros Hon Hid Hmodel Hlookup Hres Hp1 Hp2 Hp3 k.
  assert (reset_calibration (MotorsOne motor) b
          = (_ ← write "Homing_Offset" motor (VInt 0) false 0;
             _ ← write "Min_Position_Limit" motor (VInt 0) false 0;
             _ ← write "Max_Position_Limit" motor (VInt (res - 1)) false 0;
             mret ()) b) as Hunfold.
  { assert (_get_motor_model motor b = (Ok model, b)) as Hmodel'.
    { rewrite <- Hmodel. by destruct motor. }
    unfold reset_calibration.
    erewrite bind_Ok; [|reflexivity]. cbv beta. cbn [reset_calibration_loop].
    erewrite bind_Ok; [|exact Hmodel']. cbv beta.
    erewrite bind_Ok; [|cbv beta; by rewrite (subscript_Some Name _ _ _ Hres)].
    cbv beta zeta. done. }
  rewrite Hunfold.
  pose proof (write_raw_once b [] "Homing_Offset" motor 0 id_ model p1 Hon Hid Hlookup Hp1)
    as Hw1.
  rewrite after_sending_nil, app_nil_r in Hw1. cbn [app] in Hw1. fold k in Hw1.
  split.
  - intros Hk0 Hk1 Hk2.
    erewrite bind_Ok; [|by rewrite Hw1, write_outcome_ok]. cbv beta.
    erewrite bind_Ok.
    2:{ rewrite (write_raw_once b [p1] "Min_Position_Limit" motor 0 id_ model p2) by done.
        rewrite write_outcome_ok; [done|]. rewrite length_app. exact Hk1. }
    cbv beta. cbn [app].
    erewrite bind_Ok.
    2:{ rewrite (write_raw_once b [p1; p2] "Max_Position_Limit" motor (res - 1) id_ model p3)
          by done.
        rewrite write_outcome_ok; [done|]. rewrite length_app. exact Hk2. }
    done.
  - intros Hfail.
    erewrite bind_Raise; [done|]. rewrite Hw1. f_equal.
    unfold write_outcome. by rewrite bool_decide_eq_false_2 by done.
Qed.
End reset.

(** X22 on the gripper of the fixture. *)
Lemma X22_reset_calibration_writes_witness :
  let good := Fixture.gripper RANGE_0_100 (Fixture.wire true (Fixture.always (0, 0)) 0) in
  let bad := Fixture.gripper RANGE_0_100 (Fixture.wire true (Fixture.always (-3001, 0)) 0) in
  reset_calibration (MotorsOne (Name "gripper")) good
  = (Ok (), after_sending [WritePacket 6 31 2 [0; 0]; WritePacket 6 9 2 [0; 0];
                           WritePacket 6 11 2 [255; 15]] good)
  ∧ reset_calibration (MotorsOne (Name "gripper")) bad
    = (Raise (ConnectionError OpWrite "Homing_Offset" 1
                "[TxRxResult] There is no status packet!"),
       after_sending [WritePacket 6 31 2 [0; 0]] bad).
Proof.
  intros good bad. split.
  - apply (@X22_reset_calibration_writes float Binary64.binary64 Fixture.overrides
             good (Name "gripper") 6 "sts3215" 4096
             (WritePacket 6 31 2 [0; 0]) (WritePacket 6 9 2 [0; 0])
             (WritePacket 6 11 2 [255; 15])
             eq_refl eq_refl eq_refl eq_refl eq_refl eq_refl eq_refl eq_refl);
      reflexivity.
  - apply (@X22_reset_calibration_writes float Binary64.binary64 Fixture.overrides
             bad (Name "gripper") 6 "sts3215" 4096
             (WritePacket 6 31 2 [0; 0]) (WritePacket 6 9 2 [0; 0])
             (WritePacket 6 11 2 [255; 15])
             eq_refl eq_refl eq_refl eq_refl eq_refl eq_refl eq_refl eq_refl).
    discriminate.
Defined.

(** ** The ranges of motion *)

Lemma bind_Ok_inv {A B : Type} (m : M A) (f : A → M B) (b b' : MotorsBus) (r : B) :
  (m ≫= f) b = (Ok r, b') → ∃ a b1, m b = (Ok a, b1) ∧ f a b1 = (Ok r, b').
Proof. unfold mbind, M_bind. destruct (m b) as [[a|e] b1]; [eauto | done]. Qed.

Section dict_values.
Context {K V : Type} `{EqDecision K}.

Lemma dict_set_values (P : V → Prop) (d : dict K V) (k : K) (v : V) :
  Forall P (Dict.values d) → P v → Forall P (Dict.values (Dict.set k v d)).
Proof.
  intros Hd Hv. induction d as [|[k' v'] d IH]; cbn [Dict.set].
  - by repeat constructor.
  - unfold Dict.values in *. rewrite fmap_cons in Hd. apply Forall_cons in Hd as [Hv' Hd].
    case_decide; rewrite fmap_cons; apply Forall_cons; auto.
Qed.

Lemma dict_get_values (P : V → Prop) (d : dict K V) (k : K) (v : V) :
  Forall P (Dict.values d) → Dict.get k d = Some v → P v.
Proof.
  intros Hd Hget. apply dict_get_Some_elem in Hget.
  apply (proj1 (Forall_forall _ _) Hd). unfold Dict.values.
  apply list_elem_of_fmap. by exists (k, v).
Qed.
End dict_values.

Section ranges_of_motion.
Context {F : Type} `{PyFloat F} `{Overrides F}.

Lemma rekey_result (id_key_map : dict Z NameOrID) (items : list (Z * Value F))
    (acc res : dict NameOrID (Value F)) :
  rekey id_key_map items acc = Ok res →
  Dict.wf acc → Forall is_int (Dict.values acc) → Forall is_int items.*2 →
  Dict.wf res ∧ Forall is_int (Dict.values res).
Proof.
  revert acc. induction items as [|[id_ val] items IH]; intros acc Hrun Hwf Hacc Hitems.
  - cbn in Hrun. by injection Hrun as <-.
  - cbn [rekey] in Hrun. unfold mbind, Result_bind in Hrun.
    destruct (subscript ID id_key_map id_) as [key|]; [|done].
    rewrite fmap_cons in Hitems. apply Forall_cons in Hitems as [Hval Hitems].
    apply (IH _ Hrun); [by apply dict_wf_set | by apply dict_set_values | done].
Qed.

(** Without normalization [sync_read] returns a dictionary of integers. *)
Lemma sync_read_raw_result (b b' : MotorsBus) (data_name : string) (motors_ : MotorsArg)
    (num_retry : Z) (res : dict NameOrID (Value F)) :
  sync_read data_name motors_ false num_retry b = (Ok res, b') →
  Dict.wf res ∧ Forall is_int (Dict.values res).
Proof.
  unfold sync_read. intros Hrun.
  apply bind_Ok_inv in Hrun as (connected & b1 & _ & Hrun).
  destruct (negb connected).
  { apply bind_Ok_inv in Hrun as (? & ? & _ & Hrun). discriminate. }
  apply bind_Ok_inv in Hrun as (id_key_map & b2 & _ & Hrun). cbv zeta in Hrun.
  apply bind_Ok_inv in Hrun as ([comm raw] & b3 & _ & Hrun).
  apply bind_Ok_inv in Hrun as (ok & b4 & _ & Hrun).
  destruct (negb ok).
  { apply bind_Ok_inv in Hrun as (? & ? & _ & Hrun). discriminate. }
  apply bind_Ok_inv in Hrun as (required & b5 & _ & Hrun).
  cbn [andb] in Hrun.
  apply bind_Ok_inv in Hrun as (ids_values & b6 & Hvalues & Hrun).
  injection Hvalues as <- <-. unfold lift in Hrun. injection Hrun as Hrun _.
  apply (rekey_result _ _ [] res Hrun).
  - apply NoDup_nil_2.
  - constructor.
  - rewrite <- list_fmap_compose. apply Forall_fmap, Forall_forall.
    intros [id_ n] _. by exists n.
Qed.

(** [update_bounds] goes through the bounds in order and keeps their keys. *)
Lemma update_bounds_result (pick : Value F → Value F → Value F)
    (positions : dict NameOrID (Value F)) (bounds : list (NameOrID * Value F))
    (acc res : dict NameOrID (Value F)) :
  update_bounds pick positions bounds acc = Ok res →
  NoDup (Dict.keys acc ++ Dict.keys bounds) →
  ∃ updated,
    res = acc ++ updated
    ∧ Forall2 (λ bound new,
                 new.1 = bound.1
                 ∧ ∃ position, Dict.get bound.1 positions = Some position
                               ∧ new.2 = pick position bound.2) bounds updated.
Proof.
  revert acc. induction bounds as [|[motor bound] bounds IH]; intros acc Hrun Hnd.
  - cbn in Hrun. injection Hrun as <-. exists []. split; [by rewrite app_nil_r | constructor].
  - cbn [update_bounds] in Hrun. unfold mbind, Result_bind, subscript in Hrun.
    destruct (Dict.get motor positions) as [position|] eqn:Hposition; [|done].
    unfold Dict.keys in Hnd. rewrite fmap_cons in Hnd. cbn [fst] in Hnd.
    assert (motor ∉ Dict.keys acc) as Hfresh.
    { intros Hin. apply NoDup_app in Hnd as (_ & Hnd & _).
      apply (Hnd motor); [done | apply list_elem_of_here]. }
    rewrite dict_set_fresh in Hrun by done.
    destruct (IH _ Hrun) as (updated & -> & Hall).
    { unfold Dict.keys. rewrite fmap_app. cbn [fmap list_fmap fst].
      rewrite <- app_assoc. exact Hnd. }
    exists ((motor, pick position bound) :: updated). split; [by rewrite <- app_assoc|].
    constructor; [|done]. split; [done|]. by exists position.
Qed.

Lemma bracketed_start (start : dict NameOrID (Value F)) :
  Dict.wf start → Forall is_int (Dict.values start) → bracketed start start start.
Proof.
  intros Hwf Hint. induction start as [|[key v] start IH].
  - exists []. split_and!; first [done | constructor].
  - unfold Dict.wf, Dict.keys, Dict.values in *. rewrite !fmap_cons in *.
    cbn [fst snd] in *.
    apply NoDup_cons in Hwf as [Hkey Hwf]. apply Forall_cons in Hint as [[n ->] Hint].
    destruct (IH Hwf Hint) as (rows & Hnd & Hs & Hlo & Hhi & Hle).
    exists ((key, (n, n, n)) :: rows).
    assert (rows.*1 = start.*1) as Hkeys.
    { rewrite Hs, <- list_fmap_compose. by apply list_fmap_ext. }
    split_and!.
    + rewrite fmap_cons. apply NoDup_cons. by rewrite Hkeys.
    + rewrite fmap_cons. by rewrite <- Hs.
    + rewrite fmap_cons. by rewrite <- Hlo.
    + rewrite fmap_cons. by rewrite <- Hhi.
    + constructor; [cbn; lia | done].
Qed.

Lemma bracketed_step (start mins maxes positions mins' maxes' : dict NameOrID (Value F)) :
  bracketed start mins maxes →
  Forall is_int (Dict.values positions) →
  update_bounds Py.min positions mins [] = Ok mins' →
  update_bounds Py.max positions maxes [] = Ok maxes' →
  bracketed start mins' maxes'.
Proof.
  intros (rows & Hnd & -> & -> & -> & Hle) Hint Hmins Hmaxes.
  apply update_bounds_result in Hmins as (new_mins & -> & Hnew_mins);
    [|cbn [Dict.keys fmap list_fmap app]; unfold Dict.keys;
      by rewrite <- list_fmap_compose].
  apply update_bounds_result in Hmaxes as (new_maxes & -> & Hnew_maxes);
    [|cbn [Dict.keys fmap list_fmap app]; unfold Dict.keys;
      by rewrite <- list_fmap_compose].
  cbn [app].
  assert (∃ rows' : list (NameOrID * (Z * Z * Z)),
            rows'.*1 = rows.*1
            ∧ (λ row, (row.1, VInt row.2.1.2)) <$> rows
              = (λ row, (row.1, VInt (F := F) row.2.1.2)) <$> rows'
            ∧ new_mins = (λ row, (row.1, VInt row.2.1.1)) <$> rows'
            ∧ new_maxes = (λ row, (row.1, VInt row.2.2)) <$> rows'
            ∧ Forall (λ row, row.2.1.1 ≤ row.2.1.2 ≤ row.2.2) rows')
    as (rows' & Hkeys & Hs & Hlo & Hhi & Hle').
  { clear Hnd. revert new_mins new_maxes Hnew_mins Hnew_maxes.
    induction rows as [|[key [[lo s] hi]] rows IH];
      intros new_mins new_maxes Hnew_mins Hnew_maxes.
    - apply Forall2_nil_inv_l in Hnew_mins as ->. apply Forall2_nil_inv_l in Hnew_maxes as ->.
      exists []. split_and!; first [done | constructor].
    - rewrite fmap_cons in Hnew_mins, Hnew_maxes.
      apply Forall2_cons_inv_l in Hnew_mins
        as ([key1 v1] & rest_mins & Hmin & Hrest_mins & ->).
      apply Forall2_cons_inv_l in Hnew_maxes
        as ([key2 v2] & rest_maxes & Hmax & Hrest_maxes & ->).
      cbn [fst snd] in Hmin, Hmax.
      destruct Hmin as (-> & p1 & Hp1 & ->). destruct Hmax as (-> & p2 & Hp2 & ->).
      rewrite Hp1 in Hp2. injection Hp2 as <-.
      destruct (dict_get_values is_int positions key p1 Hint Hp1) as [p ->].
      apply Forall_cons in Hle as [Hrow Hle]. cbn [fst snd] in Hrow.
      destruct (IH Hle rest_mins rest_maxes Hrest_mins Hrest_maxes)
        as (rows' & Hkeys & Hs & -> & -> & Hle').
      exists ((key, (Z.min p lo, s, Z.max p hi)) :: rows').
      split_and!.
      + rewrite !fmap_cons. cbn [fst]. by rewrite Hkeys.
      + rewrite !fmap_cons. cbn [fst snd]. by rewrite Hs.
      + rewrite !fmap_cons. cbn [fst snd]. f_equal. f_equal.
        unfold Py.min, Py.lt. case_bool_decide; f_equal; lia.
      + rewrite !fmap_cons. cbn [fst snd]. f_equal. f_equal.
        unfold Py.max, Py.lt. case_bool_decide; f_equal; lia.
      + constructor; [cbn [fst snd]; lia | done]. }
  exists rows'. split_and!; [by rewrite Hkeys | done | done | done | done].
Qed.

Lemma record_ranges_loop_bracketed (fuel : nat) (enter_pressed : nat → bool) (k : nat)
    (motors : list NameOrID) (display_values : bool)
    (start mins maxes mins' maxes' : dict NameOrID (Value F)) (b b' : MotorsBus) :
  bracketed start mins maxes →
  record_ranges_loop fuel enter_pressed k motors display_values mins maxes b
  = (Ok (Some (mins', maxes')), b') →
  bracketed start mins' maxes'.
Proof.
  revert k mins maxes b.
  induction fuel as [|fuel IH]; intros k mins maxes b Hinv Hrun;
    cbn [record_ranges_loop] in Hrun; [discriminate|].
  apply bind_Ok_inv in Hrun as (positions & b1 & Hread & Hrun).
  apply bind_Ok_inv in Hrun as (mins1 & b2 & Hmins & Hrun).
  apply bind_Ok_inv in Hrun as (maxes1 & b3 & Hmaxes & Hrun).
  apply bind_Ok_inv in Hrun as ([] & b4 & _ & Hrun).
  unfold lift in Hmins, Hmaxes. injection Hmins as Hmins _. injection Hmaxes as Hmaxes _.
  apply sync_read_raw_result in Hread as [_ Hint].
  pose proof (bracketed_step start mins maxes positions mins1 maxes1 Hinv Hint Hmins Hmaxes)
    as Hinv1.
  destruct (enter_pressed k).
  - injection Hrun as <- <- _. exact Hinv1.
  - by apply (IH _ _ _ _ Hinv1 Hrun).
Qed.

Lemma bracketed_ranges_ok (start mins maxes : dict NameOrID (Value F)) :
  bracketed start mins maxes → ranges_ok start mins maxes.
Proof.
  intros (rows & Hnd & -> & -> & -> & Hle).
  assert (∀ f : NameOrID * (Z * Z * Z) → Value F,
            Dict.keys ((λ row, (row.1, f row)) <$> rows) = rows.*1) as Hkeys.
  { intros f. unfold Dict.keys. rewrite <- list_fmap_compose. by apply list_fmap_ext. }
  split_and!.
  - by rewrite (Hkeys (λ row, VInt row.2.1.1)), (Hkeys (λ row, VInt row.2.1.2)).
  - by rewrite (Hkeys (λ row, VInt row.2.2)), (Hkeys (λ row, VInt row.2.1.2)).
  - intros key Hkey. rewrite (Hkeys (λ row, VInt row.2.1.2)) in Hkey.
    apply list_elem_of_fmap in Hkey as ([key' [[lo s] hi]] & -> & Hrow).
    exists s, lo, hi. cbn [fst].
    assert (∀ f : NameOrID * (Z * Z * Z) → Value F,
              Dict.get key' ((λ row, (row.1, f row)) <$> rows)
              = Some (f (key', (lo, s, hi)))) as Hget.
    { intros f. apply dict_get_elem; [unfold Dict.wf; by rewrite Hkeys|].
      apply list_elem_of_fmap. by exists (key', (lo, s, hi)). }
    pose proof (proj1 (Forall_forall _ _) Hle _ Hrow) as Hbounds. cbn [fst snd] in Hbounds.
    split_and!; [| | | lia | lia].
    + apply (Hget (λ row, VInt row.2.1.2)).
    + apply (Hget (λ row, VInt row.2.1.1)).
    + apply (Hget (λ row, VInt row.2.2)).
Qed.

(** X23.  When [record_ranges_of_motion] returns, the ranges it returns
    bracket the positions it read first: the minima and the maxima have the
    keys of the first read, in its order, and for every key the minimum is at
    most the position read first, which is at most the maximum.  The loop
    reads the positions at least once more before it looks at the Enter
    key. *)
Theorem X23_recorded_ranges_bracket_start (b b' : MotorsBus) (fuel : nat)
    (enter_pressed : nat → bool) (motors : MotorsArg) (display_values : bool)
    (mins maxes : dict NameOrID (Value F)) :
  record_ranges_of_motion fuel enter_pressed motors display_values b
  = (Ok (Some (mins, maxes)), b') →
  ∃ l start b1 positions b2,
    sync_read "Present_Position" (MotorsList l) false 0 b = (Ok start, b1)
    ∧ sync_read "Present_Position" (MotorsList l) false 0 b1 = (Ok positions, b2)
    ∧ ranges_ok start mins maxes.
Proof.
  unfold record_ranges_of_motion. intros Hrun.
  apply bind_Ok_inv in Hrun as (l & b0 & Hl & Hrun).
  assert (b0 = b) as ->.
  { destruct motors; unfold gets, mret, M_ret, raise in Hl; by simplify_eq. }
  apply bind_Ok_inv in Hrun as (start & b1 & Hstart & Hrun).
  exists l, start, b1.
  assert (∃ positions b2,
            sync_read "Present_Position" (MotorsList l) false 0 b1 = (Ok positions, b2))
    as (positions & b2 & Hpositions).
  { destruct fuel as [|fuel]; [discriminate|]. cbn [record_ranges_loop] in Hrun.
    apply bind_Ok_inv in Hrun as (positions & b2 & Hread & _). by exists positions, b2. }
  exists positions, b2. split_and!; [done | done|].
  apply bracketed_ranges_ok.
  apply (record_ranges_loop_bracketed fuel enter_pressed 0 l display_values
           start start start mins maxes b1 b'); [|exact Hrun].
  apply sync_read_raw_result in Hstart as [Hwf Hint]. by apply bracketed_start.
Qed.
End ranges_of_motion.

(** X23 on the two-motor bus of the fixture, with registers that read 2048
    and the Enter key pressed in the second round. *)
Lemma X23_recorded_ranges_bracket_start_witness :
  let b := Fixture.arm (Fixture.wire true (Fixture.always (0, 0)) 2048) in
  ∃ mins maxes b',
    record_ranges_of_motion 5 (λ k, bool_decide (k = 1%nat)) MotorsNone true b
    = (Ok (Some (mins, maxes)), b')
    ∧ ∃ l start b1 positions b2,
        sync_read "Present_Position" (MotorsList l) false 0 b = (Ok start, b1)
        ∧ sync_read "Present_Position" (MotorsList l) false 0 b1 = (Ok positions, b2)
        ∧ ranges_ok start mins maxes.
Proof.
  intros b.
  destruct (record_ranges_of_motion 5 (λ k, bool_decide (k = 1%nat)) MotorsNone true b)
    as [[[[mins maxes]|]|e] b'] eqn:Hrun.
  - exists mins, maxes, b'. split; [reflexivity|].
    exact (@X23_recorded_ranges_bracket_start float Binary64.binary64 Fixture.overrides
             b b' 5 _ MotorsNone true mins maxes Hrun).
  - vm_compute in Hrun. discriminate Hrun.
  - vm_compute in Hrun. discriminate Hrun.
Defined.

(** ** Registers that the control tables do not have *)

Lemma quiet_bind_raises {A B : Type} (m : M A) (f : A → M B) (b : MotorsBus) :
  quiet m →
  (∀ a b1, cls b1 = cls b → transport b1 = transport b → raises_silently (f a) b1) →
  raises_silently (m ≫= f) b.
Proof.
  intros Hm Hf. unfold raises_silently, mbind, M_bind.
  destruct (Hm b) as [Hcls Ht]. destruct (m b) as [[a|e] b1]; cbn [snd] in *.
  - destruct (Hf a b1 Hcls Ht) as (e & b' & -> & Hcls' & Ht').
    exists e, b'. split_and!; [done | congruence | congruence].
  - by exists e, b1.
Qed.

Lemma quiet_bind {A B : Type} (m : M A) (f : A → M B) :
  quiet m → (∀ a, quiet (f a)) → quiet (m ≫= f).
Proof.
  intros Hm Hf b. unfold mbind, M_bind.
  destruct (Hm b) as [Hcls Ht]. destruct (m b) as [[a|e] b1]; cbn [snd] in *; [|done].
  destruct (Hf a b1) as [Hcls' Ht']. split; congruence.
Qed.

Lemma quiet_pure {A : Type} (f : MotorsBus → Result A) : quiet (λ b, (f b, b)).
Proof. by intros b. Qed.

Lemma quiet_ret {A : Type} (a : A) : quiet (mret a).
Proof. by intros b. Qed.

Lemma quiet_raise {A : Type} (e : Exn) : quiet (raise e : M A).
Proof. by intros b. Qed.

Lemma raise_raises_silently {A : Type} (e : Exn) (b : MotorsBus) :
  raises_silently (raise e : M A) b.
Proof. by exists e, b. Qed.

Lemma get_address_missing (b b1 : MotorsBus) (data_name model : string) :
  register_missing b data_name → cls b1 = cls b →
  ∃ e, get_address (model_ctrl_table (cls b1)) model data_name = Raise e.
Proof.
  intros Hmissing ->. unfold get_address, get_ctrl_table, mbind, Result_bind.
  destruct (model_ctrl_table (cls b) !! model) as [t|] eqn:Ht; [|by eexists].
  rewrite (Hmissing model t Ht). by eexists.
Qed.

Lemma assert_same_address_missing (b b1 : MotorsBus) (data_name : string)
    (models : list string) :
  register_missing b data_name → cls b1 = cls b →
  ∃ e, assert_same_address (model_ctrl_table (cls b1)) models data_name = Raise e.
Proof.
  intros Hmissing Hcls. destruct models as [|model models]; [by eexists|].
  unfold assert_same_address. cbn [all_addresses].
  destruct (get_address_missing b b1 data_name model Hmissing Hcls) as [e ->].
  by exists e.
Qed.

Section missing_register.
Context {F : Type} `{PyFloat F} `{Overrides F}.

Lemma quiet__has_different_ctrl_tables : quiet _has_different_ctrl_tables.
Proof.
  intros b. unfold _has_different_ctrl_tables.
  destruct (_has_different_ctrl_tables_cache b); [done|].
  by destruct (_has_different_ctrl_tables_body b).
Qed.

Lemma quiet_models_of (motor_ids : list Z) : quiet (models_of motor_ids).
Proof.
  induction motor_ids as [|id_ rest IH]; cbn [models_of]; [apply quiet_ret|].
  apply quiet_bind; [apply quiet_pure|]. intros model.
  apply quiet_bind; [exact IH|]. intros ms. apply quiet_ret.
Qed.

Lemma quiet_id_key_map_for (motors_ : MotorsArg) : quiet (id_key_map_for motors_).
Proof. intros b. by rewrite id_key_map_for_state. Qed.

Lemma quiet_ids_values_for (values : ValuesArg F) : quiet (ids_values_for values).
Proof.
  intros b. destruct values as [[n|x]|d]; cbn [ids_values_for]; try done.
  by rewrite ids_values_of_state.
Qed.

Lemma gets_bind_raises {A B : Type} (g : MotorsBus → A) (f : A → M B) (b : MotorsBus) :
  raises_silently (f (g b)) b → raises_silently (gets g ≫= f) b.
Proof. intros Hf. exact Hf. Qed.

Lemma lift_raise_raises {A B : Type} (r : Result A) (f : A → M B) (b : MotorsBus) (e : Exn) :
  r = Raise e → raises_silently (lift r ≫= f) b.
Proof. intros ->. by exists e, b. Qed.

(** From the lookup of the address on. *)
Lemma address_lookup_raises {A : Type} (b b1 : MotorsBus) (data_name model : string)
    (rest : Z * Z → M A) :
  register_missing b data_name → cls b1 = cls b →
  raises_silently
    (tbl ← gets (λ b, model_ctrl_table (cls b));
     ab ← lift (get_address tbl model data_name);
     rest ab) b1.
Proof.
  intros Hmissing Hcls. apply gets_bind_raises.
  destruct (get_address_missing b b1 data_name model Hmissing Hcls) as [e He].
  by apply (lift_raise_raises _ _ _ e).
Qed.

Lemma guard_missing (b b1 : MotorsBus) (data_name : string) (motor_ids : list Z) :
  register_missing b data_name → cls b1 = cls b →
  raises_silently
    (models ← models_of motor_ids;
     tbl ← gets (λ b, model_ctrl_table (cls b));
     lift (assert_same_address tbl models data_name)) b1.
Proof.
  intros Hmissing Hcls.
  apply quiet_bind_raises; [apply quiet_models_of|]. intros models b2 Hcls2 Ht2.
  apply gets_bind_raises.
  destruct (assert_same_address_missing b b2 data_name models Hmissing) as [e He];
    [congruence|].
  exists e, b2. unfold lift. by rewrite He.
Qed.

Lemma _sync_read_missing (b b0 : MotorsBus) (data_name : string) (motor_ids : list Z)
    (num_retry : Z) :
  register_missing b data_name → cls b0 = cls b →
  raises_silently (_sync_read data_name motor_ids None num_retry) b0.
Proof.
  intros Hmissing Hcls0. unfold _sync_read.
  apply quiet_bind_raises; [apply quiet__has_different_ctrl_tables|].
  intros [|] b1 Hcls1 Ht1.
  - destruct (guard_missing b b1 data_name motor_ids Hmissing) as (e & b' & Hrun & Hcls' & Ht');
      [congruence|].
    exists e, b'. split_and!; [|done..]. erewrite bind_Raise; [done | exact Hrun].
  - apply quiet_bind_raises; [apply quiet_ret|]. intros _ b2 Hcls2 Ht2.
    apply quiet_bind_raises.
    { destruct motor_ids; [apply quiet_raise | apply quiet_pure]. }
    intros model b3 Hcls3 Ht3.
    apply (address_lookup_raises b b3 data_name model); [exact Hmissing | congruence].
Qed.

Lemma _sync_write_missing (b b0 : MotorsBus) (data_name : string)
    (ids_values : dict Z (Value F)) (num_retry : Z) :
  register_missing b data_name → cls b0 = cls b →
  raises_silently (_sync_write data_name ids_values num_retry) b0.
Proof.
  intros Hmissing Hcls0. unfold _sync_write.
  apply quiet_bind_raises; [apply quiet__has_different_ctrl_tables|].
  intros [|] b1 Hcls1 Ht1.
  - destruct (guard_missing b b1 data_name (Dict.keys ids_values) Hmissing)
      as (e & b' & Hrun & Hcls' & Ht'); [congruence|].
    exists e, b'. split_and!; [|done..]. erewrite bind_Raise; [done | exact Hrun].
  - apply quiet_bind_raises; [apply quiet_ret|]. intros _ b2 Hcls2 Ht2.
    apply quiet_bind_raises.
    { destruct (Dict.keys ids_values); [apply quiet_raise | apply quiet_pure]. }
    intros model b3 Hcls3 Ht3.
    apply (address_lookup_raises b b3 data_name model); [exact Hmissing | congruence].
Qed.

Lemma _write_missing (b b0 : MotorsBus) (data_name : string) (motor_id : Z)
    (value : Value F) (num_retry : Z) :
  register_missing b data_name → cls b0 = cls b →
  raises_silently (_write data_name motor_id value num_retry) b0.
Proof.
  intros Hmissing Hcls0. unfold _write.
  apply quiet_bind_raises; [apply quiet_pure|]. intros model b1 Hcls1 Ht1.
  apply (address_lookup_raises b b1 data_name model); [exact Hmissing | congruence].
Qed.

Lemma sync_read_missing (b b0 : MotorsBus) (data_name : string) (motors_ : MotorsArg)
    (normalize : bool) (num_retry : Z) :
  register_missing b data_name → cls b0 = cls b →
  raises_silently (sync_read data_name motors_ normalize num_retry) b0.
Proof.
  intros Hmissing Hcls0. unfold sync_read. apply gets_bind_raises.
  destruct (negb (is_connected b0)).
  { apply gets_bind_raises. apply raise_raises_silently. }
  apply quiet_bind_raises; [apply quiet_id_key_map_for|]. intros id_key_map b1 Hcls1 Ht1.
  cbv zeta.
  destruct (_sync_read_missing b b1 data_name (Dict.keys id_key_map) num_retry Hmissing)
    as (e & b' & Hrun & Hcls' & Ht'); [congruence|].
  exists e, b'. split_and!; [|done..]. erewrite bind_Raise; [done | exact Hrun].
Qed.

Lemma sync_write_missing (b b0 : MotorsBus) (data_name : string) (values : ValuesArg F)
    (normalize : bool) (num_retry : Z) :
  register_missing b data_name → cls b0 = cls b →
  raises_silently (sync_write data_name values normalize num_retry) b0.
Proof.
  intros Hmissing Hcls0. unfold sync_write. apply gets_bind_raises.
  destruct (negb (is_connected b0)).
  { apply gets_bind_raises. apply raise_raises_silently. }
  apply quiet_bind_raises; [apply quiet_ids_values_for|]. intros ids_values b1 Hcls1 Ht1.
  unfold sync_write_ids_values. apply gets_bind_raises.
  apply quiet_bind_raises.
  { destruct (normalize && _); [|apply quiet_ret].
    apply quiet_bind; [apply quiet_pure|]. intros raw. apply quiet_ret. }
  intros raw b2 Hcls2 Ht2.
  destruct (_sync_write_missing b b2 data_name raw num_retry Hmissing)
    as (e & b' & Hrun & Hcls' & Ht'); [congruence|].
  exists e, b'. split_and!; [|done..]. erewrite bind_Raise; [done | exact Hrun].
Qed.

Lemma write_missing (b b0 : MotorsBus) (data_name : string) (motor : NameOrID)
    (value : Value F) (normalize : bool) (num_retry : Z) :
  register_missing b data_name → cls b0 = cls b →
  raises_silently (write data_name motor value normalize num_retry) b0.
Proof.
  intros Hmissing Hcls0. unfold write. apply gets_bind_raises.
  destruct (negb (is_connected b0)).
  { apply gets_bind_raises. apply raise_raises_silently. }
  apply quiet_bind_raises.
  { intros b1. by rewrite _get_motor_id_state. }
  intros id_ b1 Hcls1 Ht1. apply gets_bind_raises.
  apply quiet_bind_raises.
  { destruct (normalize && _); [|apply quiet_ret].
    apply quiet_bind; [apply quiet_pure|]. intros id_value.
    apply quiet_bind; [apply quiet_pure|]. intros raw. apply quiet_ret. }
  intros raw b2 Hcls2 Ht2.
  destruct (_write_missing b b2 data_name id_ raw num_retry Hmissing)
    as (e & b' & Hrun & Hcls' & Ht'); [congruence|].
  exists e, b'. split_and!; [|done..]. erewrite bind_Raise; [done | exact Hrun].
Qed.

(** X24.  A read or a write of a register that no control table of the
    class has never returns and never reaches the SDK: for every bus and
    every argument, [sync_read], [sync_write] and [write] raise, and the
    port, the group reader and writer and the transmissions made are what
    they were. *)
Theorem X24_missing_register_raises (b : MotorsBus) (data_name : string) :
  register_missing b data_name →
  (∀ motors_ normalize num_retry,
     ∃ e b', sync_read data_name motors_ normalize num_retry b = (Raise e, b')
             ∧ transport b' = transport b)
  ∧ (∀ (values : ValuesArg F) normalize num_retry,
       ∃ e b', sync_write data_name values normalize num_retry b = (Raise e, b')
               ∧ transport b' = transport b)
  ∧ (∀ motor (value : Value F) normalize num_retry,
       ∃ e b', write data_name motor value normalize num_retry b = (Raise e, b')
               ∧ transport b' = transport b).
Proof.
  intros Hmissing. split_and!.
  - intros motors_ normalize num_retry.
    destruct (sync_read_missing b b data_name motors_ normalize num_retry Hmissing eq_refl)
      as (e & b' & Hrun & _ & Ht).
    by exists e, b'.
  - intros values normalize num_retry.
    destruct (sync_write_missing b b data_name values normalize num_retry Hmissing eq_refl)
      as (e & b' & Hrun & _ & Ht).
    by exists e, b'.
  - intros motor value normalize num_retry.
    destruct (write_missing b b data_name motor value normalize num_retry Hmissing eq_refl)
      as (e & b' & Hrun & _ & Ht).
    by exists e, b'.
Qed.
End missing_register.

(** The control tables of the fixture have no register [Drive_Mode]. *)
Lemma fixture_no_drive_mode (b : MotorsBus) :
  cls b = Fixture.klass → register_missing b "Drive_Mode".
Proof.
  intros Hcls model t. rewrite Hcls. cbn [model_ctrl_table Fixture.klass].
  intros Ht. apply elem_of_list_to_map_2 in Ht.
  apply elem_of_cons in Ht as [[= _ ->]|Ht]; [by vm_compute|].
  apply list_elem_of_singleton in Ht as [= _ ->]. by vm_compute.
Qed.

(** X24 on the two-motor bus of the fixture, whose control table has no
    register [Drive_Mode]. *)
Lemma X24_missing_register_raises_witness :
  let b := Fixture.arm (Fixture.wire true (Fixture.always (0, 0)) 0) in
  (∃ e b', sync_read "Drive_Mode" MotorsNone false 0 b = (Raise e, b')
           ∧ transport b' = transport b)
  ∧ (∃ e b', write "Drive_Mode" (Name "gripper") (VInt 0) false 0 b = (Raise e, b')
             ∧ transport b' = transport b).
Proof.
  intros b.
  destruct (@X24_missing_register_raises float Binary64.binary64 Fixture.overrides
              b "Drive_Mode" (fixture_no_drive_mode b eq_refl)) as (Hread & _ & Hwrite).
  split; [apply Hread | apply Hwrite].
Defined.

(** ** Reading the calibration back *)

Section dict_equality.
Context {K V : Type} `{EqDecision K} `{EqDecision V}.

(** On dictionaries, [==] is the equality of the lookups. *)
Lemma dict_eqb_spec (d1 d2 : dict K V) :
  Dict.wf d1 → Dict.wf d2 →
  dict_eqb d1 d2 = true ↔ ∀ k, Dict.get k d1 = Dict.get k d2.
Proof.
  intros Hwf1 Hwf2. unfold dict_eqb. rewrite andb_true_iff, bool_decide_eq_true.
  rewrite forallb_forall. split.
  - intros [Hlen Hall] k.
    assert (∀ item, item ∈ d1 → Dict.get item.1 d2 = Some item.2) as Hin.
    { intros item Hitem. eapply bool_decide_eq_true_1, Hall. by apply list_elem_of_In. }
    assert (Dict.keys d1 ≡ₚ Dict.keys d2) as Hperm.
    { apply submseteq_length_Permutation.
      - apply NoDup_submseteq; [done|]. intros k' Hk'.
        apply list_elem_of_fmap in Hk' as (item & -> & Hitem).
        specialize (Hin item Hitem). apply dict_get_Some_elem in Hin.
        apply list_elem_of_fmap. by exists (item.1, item.2).
      - unfold Dict.keys. rewrite !length_fmap. lia. }
    destruct (Dict.get k d1) as [v|] eqn:Hget.
    + apply dict_get_Some_elem in Hget. symmetry. apply (Hin (k, v) Hget).
    + symmetry. apply dict_get_None. rewrite <- Hperm. by apply dict_get_None.
  - intros Heq. split.
    + assert (Dict.keys d1 ≡ₚ Dict.keys d2) as Hperm.
      { apply NoDup_Permutation; [done | done|]. intros k. split; intros Hk.
        - destruct (decide (k ∈ Dict.keys d2)) as [|Hn]; [done|].
          apply dict_get_None in Hn. rewrite <- Heq in Hn. by apply dict_get_None in Hn.
        - destruct (decide (k ∈ Dict.keys d1)) as [|Hn]; [done|].
          apply dict_get_None in Hn. rewrite Heq in Hn. by apply dict_get_None in Hn. }
      apply Permutation_length in Hperm. unfold Dict.keys in Hperm.
      by rewrite !length_fmap in Hperm.
    + intros [k v] Hitem. apply bool_decide_eq_true_2. cbn [fst snd].
      rewrite <- Heq. apply dict_get_elem; [done | by apply list_elem_of_In].
Qed.
End dict_equality.

Section read_back.
Context {F : Type} `{PyFloat F} `{Overrides F}.

Lemma register_value_Ok (d : dict NameOrID (Value F)) (key : NameOrID) (n : Z) :
  subscript (λ k, k) d key ≫= register_value = Ok n → Dict.get key d = Some (VInt n).
Proof.
  unfold subscript, mbind, Result_bind, register_value.
  destruct (Dict.get key d) as [[m|x]|]; [|done..]. by intros [= ->].
Qed.

Lemma keys_of_Forall2 {K A B : Type} (P : K * A → K * B → Prop) (l : list (K * A))
    (k : list (K * B)) :
  (∀ x y, P x y → y.1 = x.1) → Forall2 P l k → Dict.keys k = Dict.keys l.
Proof.
  intros HP Hall. induction Hall as [|x y l k Hxy Hall IH]; [done|].
  unfold Dict.keys in *. rewrite !fmap_cons, IH. f_equal. by apply HP.
Qed.

Lemma read_calibration_loop_result (items : list (string * Motor))
    (drive_modes offsets mins maxes : dict NameOrID (Value F))
    (acc cal : dict string MotorCalibration) :
  read_calibration_loop items drive_modes offsets mins maxes acc = Ok cal →
  NoDup (Dict.keys acc ++ Dict.keys items) →
  ∃ new, cal = acc ++ new
         ∧ Forall2 (read_entry drive_modes offsets mins maxes) items new.
Proof.
  revert acc. induction items as [|[name motor] items IH]; intros acc Hrun Hnd.
  - cbn in Hrun. injection Hrun as <-. exists []. split; [by rewrite app_nil_r | constructor].
  - cbn [read_calibration_loop] in Hrun.
    destruct (subscript (λ k, k) drive_modes (Name name) ≫= register_value)
      as [dm|] eqn:Hdm; [|done].
    destruct (subscript (λ k, k) offsets (Name name) ≫= register_value)
      as [ho|] eqn:Hho; [|done].
    destruct (subscript (λ k, k) mins (Name name) ≫= register_value)
      as [lo|] eqn:Hlo; [|done].
    destruct (subscript (λ k, k) maxes (Name name) ≫= register_value)
      as [hi|] eqn:Hhi; [|done].
    unfold mbind at 1 2 3 4, Result_bind at 1 2 3 4 in Hrun.
    unfold Dict.keys in Hnd. rewrite fmap_cons in Hnd. cbn [fst] in Hnd.
    assert (name ∉ Dict.keys acc) as Hfresh.
    { intros Hin. apply NoDup_app in Hnd as (_ & Hnd & _).
      apply (Hnd name); [done | apply list_elem_of_here]. }
    rewrite dict_set_fresh in Hrun by done.
    destruct (IH _ Hrun) as (new & -> & Hall).
    { unfold Dict.keys. rewrite fmap_app. cbn [fmap list_fmap fst].
      rewrite <- app_assoc. exact Hnd. }
    eexists (_ :: new). split; [by rewrite <- app_assoc|].
    constructor; [|done]. unfold read_entry. cbn [fst snd c_id drive_mode homing_offset
                                                    range_min range_max].
    split_and!; [done | done | by apply register_value_Ok..].
Qed.

Lemma framed_read_drive_modes : framed read_drive_modes.
Proof.
  intros b. unfold read_drive_modes.
  pose proof (framed_sync_read (F := F) "Drive_Mode" MotorsNone false 0 b) as Hframe.
  destruct (sync_read "Drive_Mode" MotorsNone false 0 b) as [[?|e] b1]; [done|].
  by destruct (is_KeyError e).
Qed.

Lemma framed_read_calibration : framed read_calibration.
Proof.
  unfold read_calibration.
  apply framed_bind; [apply framed_sync_read|]. intros offsets.
  apply framed_bind; [apply framed_sync_read|]. intros mins.
  apply framed_bind; [apply framed_sync_read|]. intros maxes.
  apply framed_bind; [apply framed_read_drive_modes|]. intros drive_modes.
  apply framed_bind; [apply framed_gets|]. intros items. apply framed_lift.
Qed.

Lemma frame_cls (b b' : MotorsBus) : frame b b' → cls b' = cls b.
Proof. by intros [? _]. Qed.

Lemma frame_motors (b b' : MotorsBus) : frame b b' → motors b' = motors b.
Proof. by intros (_ & _ & ? & _). Qed.

Lemma read_calibration_result (b b' : MotorsBus) (cal : dict string MotorCalibration) :
  Dict.wf (motors b) →
  read_calibration b = (Ok cal, b') →
  (∃ offsets mins maxes b1 b2 b3,
     sync_read "Homing_Offset" MotorsNone false 0 b = (Ok offsets, b1)
     ∧ sync_read "Min_Position_Limit" MotorsNone false 0 b1 = (Ok mins, b2)
     ∧ sync_read "Max_Position_Limit" MotorsNone false 0 b2 = (Ok maxes, b3)
     ∧ ∀ name c, Dict.get name cal = Some c →
         Dict.get (Name name) offsets = Some (VInt (homing_offset c))
         ∧ Dict.get (Name name) mins = Some (VInt (range_min c))
         ∧ Dict.get (Name name) maxes = Some (VInt (range_max c)))
  ∧ Dict.keys cal = names b
  ∧ (∀ name motor, (name, motor) ∈ motors b →
       ∃ c, Dict.get name cal = Some c ∧ c_id c = m_id motor)
  ∧ frame b b'
  ∧ (register_missing b "Drive_Mode" →
     ∀ name c, Dict.get name cal = Some c → drive_mode c = 0).
Proof.
  intros Hwf Hrun.
  pose proof (framed_read_calibration b) as Hframe. rewrite Hrun in Hframe. cbn [snd] in Hframe.
  unfold read_calibration in Hrun.
  apply bind_Ok_inv in Hrun as (offsets & b1 & Hoffsets & Hrun).
  apply bind_Ok_inv in Hrun as (mins & b2 & Hmins & Hrun).
  apply bind_Ok_inv in Hrun as (maxes & b3 & Hmaxes & Hrun).
  apply bind_Ok_inv in Hrun as (drive_modes & b4 & Hmodes & Hrun).
  apply bind_Ok_inv in Hrun as (items & b5 & Hitems & Hrun).
  unfold gets in Hitems. injection Hitems as <- <-.
  unfold lift in Hrun. injection Hrun as Hloop <-.
  assert (frame b b3) as Hframe3.
  { pose proof (framed_sync_read (F := F) "Homing_Offset" MotorsNone false 0 b) as H1.
    pose proof (framed_sync_read (F := F) "Min_Position_Limit" MotorsNone false 0 b1) as H2.
    pose proof (framed_sync_read (F := F) "Max_Position_Limit" MotorsNone false 0 b2) as H3.
    rewrite Hoffsets in H1. rewrite Hmins in H2. rewrite Hmaxes in H3. cbn [snd] in *.
    eapply frame_trans; [|exact H3]. eapply frame_trans; [exact H1 | exact H2]. }
  assert (motors b4 = motors b) as Hmotors by (by apply frame_motors).
  rewrite Hmotors in Hloop.
  apply read_calibration_loop_result in Hloop as (new & -> & Hall); [|exact Hwf].
  cbn [app] in *.
  assert (Dict.keys new = names b) as Hkeys.
  { apply (keys_of_Forall2 _ _ _ (λ x y Hxy, proj1 Hxy) Hall). }
  assert (Dict.wf new) as Hwf' by (unfold Dict.wf; by rewrite Hkeys).
  assert (∀ name c, Dict.get name new = Some c →
            ∃ motor, read_entry drive_modes offsets mins maxes (name, motor) (name, c))
    as Hentry.
  { intros name c Hget. apply dict_get_Some_elem in Hget.
    apply list_elem_of_lookup in Hget as [i Hi].
    destruct (Forall2_lookup_r _ _ _ _ _ Hall Hi) as ([name' motor] & _ & Hread).
    exists motor. destruct Hread as (Hname & Hrest). cbn [fst] in Hname. by subst name'. }
  split_and!.
  - exists offsets, mins, maxes, b1, b2, b3. split_and!; [done..|].
    intros name c Hget. destruct (Hentry name c Hget) as (motor & _ & _ & _ & Ho & Hlo & Hhi).
    done.
  - done.
  - intros name motor Hin. apply list_elem_of_lookup in Hin as [i Hi].
    destruct (Forall2_lookup_l _ _ _ _ _ Hall Hi) as ([name' c] & Hc & Hname & Hid & _).
    cbn [fst snd] in Hname, Hid. subst name'. exists c. split; [|done].
    apply dict_get_elem; [done | by eapply list_elem_of_lookup_2].
  - done.
  - intros Hmissing name c Hget.
    destruct (Hentry name c Hget) as (motor & _ & _ & Hdm & _). cbn [fst snd] in Hdm.
    unfold read_drive_modes in Hmodes.
    destruct (sync_read_missing b b3 "Drive_Mode" MotorsNone false 0 Hmissing
                (frame_cls _ _ Hframe3)) as (e & b3' & Hraise & _ & _).
    rewrite Hraise in Hmodes. destruct (is_KeyError e); [|done].
    injection Hmodes as <- _. rewrite dict_get_comp_const in Hdm.
    case_decide; [|done]. by injection Hdm as <-.
Qed.

(** X25.  When [read_calibration] returns, on a bus whose motors have
    pairwise distinct names: the three registers [Homing_Offset],
    [Min_Position_Limit] and [Max_Position_Limit] were read in this order,
    from all motors and raw; the result has one entry for every motor, in
    the order of [motors], with the id of the motor and the three values
    read for its name; the bus keeps its calibration and its motors.  When
    no control table has a register [Drive_Mode], the [KeyError] of the
    fourth read is caught and every entry has the drive mode 0.  An error
    of one of the three other reads, a [KeyError] too, is not caught. *)
Theorem X25_read_calibration (b b' : MotorsBus) (cal : dict string MotorCalibration) :
  Dict.wf (motors b) →
  read_calibration b = (Ok cal, b') →
  (∃ offsets mins maxes b1 b2 b3,
     sync_read "Homing_Offset" MotorsNone false 0 b = (Ok offsets, b1)
     ∧ sync_read "Min_Position_Limit" MotorsNone false 0 b1 = (Ok mins, b2)
     ∧ sync_read "Max_Position_Limit" MotorsNone false 0 b2 = (Ok maxes, b3)
     ∧ ∀ name c, Dict.get name cal = Some c →
         Dict.get (Name name) offsets = Some (VInt (homing_offset c))
         ∧ Dict.get (Name name) mins = Some (VInt (range_min c))
         ∧ Dict.get (Name name) maxes = Some (VInt (range_max c)))
  ∧ Dict.keys cal = names b
  ∧ (∀ name motor, (name, motor) ∈ motors b →
       ∃ c, Dict.get name cal = Some c ∧ c_id c = m_id motor)
  ∧ frame b b'
  ∧ (register_missing b "Drive_Mode" →
     ∀ name c, Dict.get name cal = Some c → drive_mode c = 0).
Proof. apply read_calibration_result. Qed.

(** X26.  [is_calibrated] is not a plain attribute: it reads the
    calibration from the motors.  On a bus that is not connected it
    raises the not-connected error.  When it returns, on a bus whose
    motors and whose calibration have pairwise distinct names, it answers
    [True] exactly when the calibration of the bus and the calibration read
    have the same entry for every name, in whatever order, and it leaves
    the calibration of the bus as it was. *)
Theorem X26_is_calibrated (b : MotorsBus) :
  (is_connected b = false →
   is_calibrated b = (Raise (DeviceNotConnectedError (port b)), b))
  ∧ (∀ b' answer,
       Dict.wf (motors b) → Dict.wf (calibration b) →
       is_calibrated b = (Ok answer, b') →
       ∃ read,
         read_calibration b = (Ok read, b')
         ∧ calibration b' = calibration b
         ∧ (answer = true ↔ ∀ name, Dict.get name (calibration b) = Dict.get name read)).
Proof.
  split.
  - intros Hoff. unfold is_calibrated.
    erewrite bind_Ok; [|reflexivity]. cbv beta.
    erewrite bind_Raise; [done|]. unfold read_calibration.
    erewrite bind_Raise; [done|]. by apply sync_read_disconnected.
  - intros b' answer Hwf Hcal Hrun. unfold is_calibrated in Hrun.
    apply bind_Ok_inv in Hrun as (c & b0 & Hc & Hrun).
    unfold gets in Hc. injection Hc as <- <-.
    apply bind_Ok_inv in Hrun as (read & b1 & Hread & Hrun).
    unfold mret, M_ret in Hrun. injection Hrun as <- <-.
    exists read.
    destruct (read_calibration_result b b1 read Hwf Hread) as (_ & Hkeys & _ & Hframe & _).
    split_and!; [done | apply Hframe|].
    apply dict_eqb_spec; [done|]. unfold Dict.wf. by rewrite Hkeys.
Qed.
End read_back.

(** X25 on the two-motor bus of the fixture, whose control table has no
    register [Drive_Mode] and whose registers all read 2048. *)
Lemma X25_read_calibration_witness :
  let b := Fixture.arm (Fixture.wire true (Fixture.always (0, 0)) 2048) in
  ∃ cal b',
    read_calibration b = (Ok cal, b')
    ∧ Dict.keys cal = ["shoulder"; "gripper"]
    ∧ calibration b' = calibration b
    ∧ ∀ name c, Dict.get name cal = Some c → drive_mode c = 0.
Proof.
  intros b.
  destruct (read_calibration b) as [[cal|e] b'] eqn:Hrun.
  - exists cal, b'.
    destruct (@X25_read_calibration float Binary64.binary64 Fixture.overrides b b' cal)
      as (_ & Hkeys & _ & Hframe & Hmodes).
    + apply (bool_decide_unpack _). vm_compute. exact I.
    + exact Hrun.
    + split_and!; [reflexivity | exact Hkeys | apply Hframe|].
      apply Hmodes. by apply fixture_no_drive_mode.
  - vm_compute in Hrun. discriminate Hrun.
Defined.

(** X26 on the two-motor bus of the fixture: not connected, and connected
    with registers that all read 2048, which is not the calibration of the
    bus. *)
Lemma X26_is_calibrated_witness :
  let off := Fixture.arm (Fixture.wire false (Fixture.always (0, 0)) 2048) in
  let on := Fixture.arm (Fixture.wire true (Fixture.always (0, 0)) 2048) in
  is_calibrated off = (Raise (DeviceNotConnectedError "/dev/ttyACM0"), off)
  ∧ ∃ answer b' read,
      is_calibrated on = (Ok answer, b')
      ∧ read_calibration on = (Ok read, b')
      ∧ (answer = true ↔ ∀ name, Dict.get name (calibration on) = Dict.get name read).
Proof.
  intros off on. split.
  - apply (@X26_is_calibrated float Binary64.binary64 Fixture.overrides off). reflexivity.
  - destruct (is_calibrated on) as [[answer|e] b'] eqn:Hrun.
    + destruct (@X26_is_calibrated float Binary64.binary64 Fixture.overrides on)
        as [_ Hreturns].
      destruct (Hreturns b' answer) as (read & Hread & _ & Hiff).
      * apply (bool_decide_unpack _). vm_compute. exact I.
      * apply (bool_decide_unpack _). vm_compute. exact I.
      * exact Hrun.
      * by exists answer, b', read.
    + vm_compute in Hrun. discriminate Hrun.
Defined.
